(** * Battery cycle analyzer: container, loaders and analysis engine

    A shallow embedding of the Python package [battery_analyzer]
    (data/container.py, data/*_loader.py, analysis/base_analyzer.py and
    analysis/cycle/*.py) together with the properties its specification
    states about it.

    Conventions of the embedding.
    - Python floats are idealised as exact rationals ([Q]); [==] is
      equality of rationals.  The literals 0.8, 0.95 and 0.01 are the
      rationals 4/5, 19/20 and 1/100.
    - A float that pandas would report as NaN is an absent value
      ([None] in an [option Q]); comparisons with NaN are false.
    - A pandas [DataFrame] is the list of its rows, each carrying its
      index label; only the required columns TimeMin, Vol and Crate are
      kept.
    - Python objects that can be shared (frames, dicts, lists) live in a
      heap and are handled through their addresses. *)

From Stdlib Require Import QArith Qabs Qround Lqa Lia ZArith List String Ascii DecimalString.
From Stdlib Require Import DecimalPos.
From stdpp Require Import base list strings sorting.

Open Scope Q_scope.

(** ** Exceptions *)

Inductive exn_class :=
  FileNotFoundError | ValueError | KeyError | IndexError | TypeError.

(** The arguments interpolated into the exception's message. *)
Inductive exn_msg :=
| SaveData_not_found (data_path : string) (cycle_no : Z)
| No_raw_data_files (data_path : string)
| Condition_column_not_found
| No_data_found_for_Cycle (cycle_no : Z)
| Missing_required_columns (cols : list string)
| No_cycles_found_in_range (start stop : Z)
| Cycle_not_found_in_container (cycle_no : Z)
| Cycles_not_found (missing_cycles : list Z)
| Label_not_in_index (label : Z)
| Key_not_in_dict (key : string)
| Position_out_of_bounds
| No_SaveData_files (data_path : string)
| No_cycle_numbers_found (data_path : string)
| Identical_x_values
| Ambiguous_truth_value
| Wrong_object_kind.

Record exn := Exn { exn_cls : exn_class; exn_what : exn_msg }.

Inductive result (A : Type) :=
| Ok (a : A)
| Raise (e : exn).
Arguments Ok {A} a.
Arguments Raise {A} e.

Definition rbind {A B} (m : result A) (k : A -> result B) : result B :=
  match m with
  | Ok a => k a
  | Raise e => Raise e
  end.

#[global] Instance result_ret : MRet result := fun A a => Ok a.
#[global] Instance result_bind : MBind result := fun A B k m => rbind m k.

Definition exn_class_eqb (a b : exn_class) : bool :=
  match a, b with
  | FileNotFoundError, FileNotFoundError
  | ValueError, ValueError
  | KeyError, KeyError
  | IndexError, IndexError
  | TypeError, TypeError => true
  | _, _ => false
  end.

(** ** Rational helpers *)

Definition Qltb (a b : Q) : bool := negb (Qle_bool b a).

(** [Series.sum()]: the sum of an empty column is 0. *)
Definition Qsum (l : list Q) : Q := fold_right Qplus 0 l.

(** ** Cycle record tables *)

Record Row := mkRow { TimeMin : Q; Vol : Q; Crate : Q }.

(** A frame is the list of its rows in positional order; the first
    component is the row's index label. *)
Abbreviation DataFrame := (list (Z * Row)).

Definition labels (df : DataFrame) : list Z := map fst df.
Definition rows (df : DataFrame) : list Row := map snd df.

(** [df.reset_index(drop=True)] and the default index of a new frame. *)
Fixpoint relabel_from (i : Z) (rs : list Row) : DataFrame :=
  match rs with
  | [] => []
  | r :: rs' => (i, r) :: relabel_from (i + 1) rs'
  end.

Definition range_index (rs : list Row) : DataFrame := relabel_from 0 rs.

(** [Series.diff()]: NaN in the first position, then the difference with
    the previous position. *)
Fixpoint diff_from (prev : Q) (l : list Q) : list (option Q) :=
  match l with
  | [] => []
  | x :: l' => Some (x - prev) :: diff_from x l'
  end.

Definition diff (l : list Q) : list (option Q) :=
  match l with
  | [] => []
  | x :: l' => None :: diff_from x l'
  end.

(** [Series.fillna(v)]. *)
Definition fillna (v : Q) (l : list (option Q)) : list Q :=
  map (fun o => match o with Some x => x | None => v end) l.

(** [df["TimeDiff"] = df["TimeMin"].diff().fillna(0)], as the list of
    rows paired with the new column. *)
Definition with_TimeDiff (df : DataFrame) : list (Row * Q) :=
  combine (rows df) (fillna 0 (diff (map TimeMin (rows df)))).

(** ** Configuration (config/models.py, config/enums.py) *)

Inductive CapacityMode := AUTO_CRATE | MANUAL.

Record CapacityConfig := mkCapacityConfig {
  mode : CapacityMode;
  c_rate : Q;
  manual_capacity : Q
}.

(** The capacity basis chosen by every analyzer:
    [manual_capacity] when [mode.value == "manual"], else 58.0. *)
Definition capacity_base (cfg : CapacityConfig) : Q :=
  match mode cfg with
  | MANUAL => manual_capacity cfg
  | AUTO_CRATE => 58
  end.

(** ** Per-cycle capacity (analysis/cycle/individual.py, linked.py and
    reliability.py carry the same [_calculate_cycle_capacity]) *)

Record CycleCapacity := mkCycleCapacity {
  discharge_capacity : Q;
  charge_capacity : Q;
  efficiency : Q
}.

Definition is_discharge (r : Row) : bool := Qltb (Crate r) 0.
Definition is_charge (r : Row) : bool := Qltb 0 (Crate r).

Definition _calculate_cycle_capacity (cfg : CapacityConfig) (df : DataFrame)
  : CycleCapacity :=
  let df := with_TimeDiff df in
  let capacity_base := capacity_base cfg in
  let discharge := filter (fun rt => is_discharge (fst rt)) df in
  let discharge_capacity :=
    Qsum (map (fun rt => Qabs (Crate (fst rt) * snd rt)) discharge) * capacity_base in
  let charge := filter (fun rt => is_charge (fst rt)) df in
  let charge_capacity :=
    Qsum (map (fun rt => Crate (fst rt) * snd rt) charge) * capacity_base in
  let efficiency :=
    if Qltb 0 charge_capacity
    then discharge_capacity / charge_capacity * 100
    else 0 in
  mkCycleCapacity discharge_capacity charge_capacity efficiency.

(** [_normalize_capacity] (individual.py and linked.py): cumulative
    |Crate| x dt of a charge or discharge subset, in percent of its
    maximum.  The time differences are taken inside the subset. *)

Fixpoint cumsum_from (acc : Q) (l : list Q) : list Q :=
  match l with
  | [] => []
  | x :: l' => (acc + x) :: cumsum_from (acc + x) l'
  end.

Definition cumsum (l : list Q) : list Q := cumsum_from 0 l.

Definition Qmax2 (a b : Q) : Q := if Qle_bool a b then b else a.

(** [Series.max()]: NaN on an empty column. *)
Definition series_max (l : list Q) : option Q :=
  match l with
  | [] => None
  | x :: l' => Some (fold_left Qmax2 l' x)
  end.

Definition _normalize_capacity (df : DataFrame) : list Q :=
  if (length df =? 0)%nat then []
  else
    let TimeDiff := fillna 0 (diff (map TimeMin (rows df))) in
    let Capacity_Cumulative :=
      cumsum (map (fun ct => Qabs (fst ct) * snd ct)
                  (combine (map Crate (rows df)) TimeDiff)) in
    match series_max Capacity_Cumulative with
    | Some max_capacity =>
        if Qltb 0 max_capacity
        then map (fun c => c / max_capacity * 100) Capacity_Cumulative
        else map (fun _ => 0) df
    | None => map (fun _ => 0) df
    end.

(** [df[df["Crate"] < 0]] and [df[df["Crate"] > 0]]: boolean selection
    keeps the labels of the selected rows. *)
Definition discharge_subset (df : DataFrame) : DataFrame :=
  filter (fun lr => is_discharge (snd lr)) df.
Definition charge_subset (df : DataFrame) : DataFrame :=
  filter (fun lr => is_charge (snd lr)) df.

(** ** Pulse-based internal resistance (analysis/base_analyzer.py) *)

(** Sorting by a rational key (pandas leaves the order of equal keys
    open; here equal keys keep their order). *)
Fixpoint insert_by {A} (key : A -> Q) (x : A) (l : list A) : list A :=
  match l with
  | [] => [x]
  | y :: l' => if Qle_bool (key x) (key y) then x :: l else y :: insert_by key x l'
  end.

Definition sort_by {A} (key : A -> Q) (l : list A) : list A :=
  fold_right (insert_by key) [] l.

Definition sort_values (l : list Q) : list Q := sort_by (fun x => x) l.

Definition dropna (l : list (option Q)) : list Q :=
  omap (fun o => o) l.

(** [Series.quantile(q)] with pandas' default linear interpolation: NaN
    entries are skipped, the result is NaN when nothing is left. *)
Definition quantile (q : Q) (col : list (option Q)) : option Q :=
  let vals := sort_values (dropna col) in
  match vals with
  | [] => None
  | v0 :: _ =>
      let n := Z.of_nat (length vals) in
      let pos := q * inject_Z (n - 1) in
      let lo := Qfloor pos in
      let hi := Z.min (lo + 1) (n - 1) in
      let frac := pos - inject_Z lo in
      let vlo := nth (Z.to_nat lo) vals v0 in
      let vhi := nth (Z.to_nat hi) vals v0 in
      Some (vlo + (vhi - vlo) * frac)
  end.

(** [x > threshold] on a column entry; false as soon as a NaN is
    involved. *)
Definition gt_nan (x threshold : option Q) : bool :=
  match x, threshold with
  | Some a, Some t => Qltb t a
  | _, _ => false
  end.

(** [df.loc[label, column]]: by label, not by position.  A label that
    is not in the index raises KeyError; a repeated label selects
    several rows, and the caller's scalar test on them raises
    ValueError. *)
Definition loc_row (df : DataFrame) (label : Z) : result Row :=
  match filter (fun lr => Z.eqb (fst lr) label) df with
  | [] => Raise (Exn KeyError (Label_not_in_index label))
  | [lr] => Ok (snd lr)
  | _ => Raise (Exn ValueError Ambiguous_truth_value)
  end.

Definition calculate_ir (df : DataFrame) : result Q :=
  let CurrentDiff := map (option_map Qabs) (diff (map Crate (rows df))) in
  let threshold := quantile (19 # 20) CurrentDiff in
  let pulse_points :=
    filter (fun lc => gt_nan (snd lc) threshold) (combine (labels df) CurrentDiff) in
  if (length pulse_points <? 2)%nat then Ok 0
  else
    match pulse_points with
    | [] => Ok 0
    | (pulse_start, _) :: _ =>
        let pulse_end := Z.min (pulse_start + 10) (Z.of_nat (length df) - 1) in
        r_end ← loc_row df pulse_end;
        r_start ← loc_row df pulse_start;
        let v_diff := Vol r_end - Vol r_start in
        let i_diff := Crate r_end - Crate r_start in
        if Qltb (Qabs i_diff) (1 # 100) then Ok 0
        else Ok (Qabs (v_diff / i_diff) * 1000)
    end.

(** ** Python dicts with string keys

    Insertion-ordered association lists: assigning an existing key
    keeps its position, a new key goes last. *)

Abbreviation pydict V := (list (string * V)).

Fixpoint dict_get {K V} (eqb : K -> K -> bool) (k : K) (d : list (K * V)) : option V :=
  match d with
  | [] => None
  | (k', v) :: d' => if eqb k' k then Some v else dict_get eqb k d'
  end.

Fixpoint dict_set {K V} (eqb : K -> K -> bool) (k : K) (v : V) (d : list (K * V))
  : list (K * V) :=
  match d with
  | [] => [(k, v)]
  | (k', v') :: d' =>
      if eqb k' k then (k', v) :: d' else (k', v') :: dict_set eqb k v d'
  end.

Definition dict_keys {K V} (d : list (K * V)) : list K := map fst d.

(** [d[key]] on a dict with string keys. *)
Definition getitem {V} (d : pydict V) (key : string) : result V :=
  match dict_get String.eqb key d with
  | Some v => Ok v
  | None => Raise (Exn KeyError (Key_not_in_dict key))
  end.

(** ** Reliability analyzer (analysis/cycle/reliability.py) *)

Record CapacityRow := mkCapacityRow {
  Cycle : Z;
  Discharge_Capacity : Q;
  Charge_Capacity : Q;
  Efficiency : Q
}.

Definition Qmean (l : list Q) : Q := Qsum l / inject_Z (Z.of_nat (length l)).

(** [int(x)]: truncation toward zero. *)
Definition py_int (x : Q) : Z := Z.quot (Qnum x) (Zpos (Qden x)).

Definition all_identical (l : list Q) : bool :=
  match l with
  | [] => true
  | x :: l' => forallb (Qeq_bool x) l'
  end.

Record LinregressResult := mkLinregress {
  lr_slope : Q;
  lr_intercept : Q;
  lr_r_squared : Q;
  lr_p_value : Q
}.

Section Reliability.

(** External to the package and not rational: scipy's two-sided p-value
    of the regression, and numpy/scipy's descriptive statistics
    (standard deviation, Student-t interval).  Both are parameters. *)
Variable p_value_of : list Q -> list Q -> Q.
Variable statistical_metrics_of : list CapacityRow -> pydict Q.

(** [scipy.stats.linregress(x, y)]: ordinary least squares through the
    biased covariances; identical x values are refused. *)
Definition linregress (x y : list Q) : result LinregressResult :=
  if all_identical x && (1 <? length x)%nat
  then Raise (Exn ValueError Identical_x_values)
  else
    let xmean := Qmean x in
    let ymean := Qmean y in
    let dx := map (fun xi => xi - xmean) x in
    let dy := map (fun yi => yi - ymean) y in
    let ssxm := Qmean (map (fun d => d * d) dx) in
    let ssym := Qmean (map (fun d => d * d) dy) in
    let ssxym := Qmean (map (fun p => fst p * snd p) (combine dx dy)) in
    let slope := ssxym / ssxm in
    let intercept := ymean - slope * xmean in
    let r_squared :=
      if Qeq_bool ssxm 0 || Qeq_bool ssym 0 then 0
      else ssxym * ssxym / (ssxm * ssym) in
    Ok (mkLinregress slope intercept r_squared (p_value_of x y)).

Definition _analyze_capacity_fade (capacity_df : list CapacityRow)
  : result (pydict Q) :=
  if (length capacity_df <? 2)%nat then
    Ok [("initial_capacity", 0); ("final_capacity", 0); ("absolute_fade", 0);
        ("relative_fade", 0); ("fade_per_cycle", 0)]%string
  else
    match capacity_df, last capacity_df with
    | first :: _, Some final =>
        let initial_capacity := Discharge_Capacity first in
        let final_capacity := Discharge_Capacity final in
        let absolute_fade := initial_capacity - final_capacity in
        let relative_fade :=
          if Qltb 0 initial_capacity
          then absolute_fade / initial_capacity * 100 else 0 in
        let cycle_count := length capacity_df in
        let fade_per_cycle :=
          if (0 <? cycle_count)%nat
          then relative_fade / inject_Z (Z.of_nat cycle_count) else 0 in
        let x := map (fun r => inject_Z (Cycle r)) capacity_df in
        let y := map Discharge_Capacity capacity_df in
        fit ← linregress x y;
        Ok [("initial_capacity", initial_capacity);
            ("final_capacity", final_capacity);
            ("absolute_fade", absolute_fade);
            ("relative_fade", relative_fade);
            ("fade_per_cycle", fade_per_cycle);
            ("linear_slope", lr_slope fit);
            ("r_squared", lr_r_squared fit);
            ("p_value", lr_p_value fit)]%string
    | _, _ => Raise (Exn IndexError Position_out_of_bounds)
    end.

(** [_calculate_statistical_metrics]: reading the capacity column of a
    frame built from no rows (a frame without columns) raises KeyError;
    otherwise the metrics are the external statistics. *)
Definition _calculate_statistical_metrics (capacity_df : list CapacityRow)
  : result (pydict Q) :=
  match capacity_df with
  | [] => Raise (Exn KeyError (Key_not_in_dict "Discharge_Capacity"))
  | _ => Ok (statistical_metrics_of capacity_df)
  end.

Definition _predict_lifecycle (capacity_df : list CapacityRow)
  (fade_analysis : pydict Q) : result (pydict Q) :=
  initial_capacity ← getitem fade_analysis "initial_capacity";
  linear_slope ← getitem fade_analysis "linear_slope";
  if Qle_bool initial_capacity 0 || Qle_bool 0 linear_slope then
    Ok [("eol_capacity", 0); ("predicted_eol_cycle", 0);
        ("remaining_cycles", 0)]%string
  else
    let eol_capacity := initial_capacity * (4 # 5) in
    let predicted_eol_cycle :=
      py_int ((eol_capacity - initial_capacity) / linear_slope) in
    match last capacity_df with
    | None => Raise (Exn IndexError Position_out_of_bounds)
    | Some r =>
        let current_cycle := Cycle r in
        let remaining_cycles := Z.max 0 (predicted_eol_cycle - current_cycle) in
        Ok [("eol_capacity", eol_capacity);
            ("predicted_eol_cycle", inject_Z predicted_eol_cycle);
            ("current_cycle", inject_Z current_cycle);
            ("remaining_cycles", inject_Z remaining_cycles)]%string
    end.

Record ReliabilityResults := mkResults {
  capacity_data : list CapacityRow;
  fade_analysis : pydict Q;
  statistical_metrics : pydict Q;
  lifecycle_prediction : pydict Q;
  reliability_grade : option string
}.

(** Steps 2 to 4 of [ReliabilityCycleAnalyzer.analyze], on the capacity
    table that step 1 collected from the container. *)
Definition analyze_capacity_data (capacity_df : list CapacityRow)
  : result ReliabilityResults :=
  fade ← _analyze_capacity_fade capacity_df;
  metrics ← _calculate_statistical_metrics capacity_df;
  lifecycle ← _predict_lifecycle capacity_df fade;
  Ok (mkResults capacity_df fade metrics lifecycle None).

End Reliability.

(** [get_summary_report]: the values interpolated into the report, in
    the order the template reads them, and the grade
    ([results.get("reliability_grade", "Unknown")]).  Number formatting
    is not modelled. *)
Definition get_summary_report (results : ReliabilityResults)
  : result (list Q * string) :=
  let fade := fade_analysis results in
  let stats := statistical_metrics results in
  let lifecycle := lifecycle_prediction results in
  let grade := default "Unknown"%string (reliability_grade results) in
  f1 ← getitem fade "initial_capacity";
  f2 ← getitem fade "final_capacity";
  f3 ← getitem fade "relative_fade";
  f4 ← getitem fade "fade_per_cycle";
  s1 ← getitem stats "capacity_mean";
  s2 ← getitem stats "capacity_std";
  s3 ← getitem stats "capacity_cv";
  s4 ← getitem stats "efficiency_mean";
  l1 ← getitem lifecycle "eol_capacity";
  l2 ← getitem lifecycle "predicted_eol_cycle";
  l3 ← getitem lifecycle "current_cycle";
  l4 ← getitem lifecycle "remaining_cycles";
  Ok ([f1; f2; f3; f4; s1; s2; s3; s4; l1; l2; l3; l4], grade).

(** ** The object heap

    Frames, dicts and lists are Python objects: a variable or a dict
    entry holds the address of one.  Allocation appends to the heap;
    nothing is ever freed. *)

Abbreviation loc := nat.

(** The values kept in the container's metadata dict. *)
Inductive pyval :=
| VStr (s : string)              (* data_path *)
| VRange (start stop : Z)        (* the tuple (start, end) *)
| VListRef (l : loc).            (* a list object *)

Inductive obj :=
| OFrame (df : DataFrame)
| OList (l : list Z)
| OCycles (d : list (Z * loc))   (* Dict[int, pd.DataFrame] *)
| OMeta (d : pydict pyval).      (* Dict[str, any] *)

Abbreviation heap := (list obj).

Definition M (A : Type) : Type := heap -> result A * heap.

#[global] Instance M_ret : MRet M := fun A a h => (Ok a, h).
#[global] Instance M_bind : MBind M := fun A B k m h =>
  match m h with
  | (Ok a, h') => k a h'
  | (Raise e, h') => (Raise e, h')
  end.

Definition raise {A} (c : exn_class) (what : exn_msg) : M A :=
  fun h => (Raise (Exn c what), h).

Definition alloc (o : obj) : M loc :=
  fun h => (Ok (length h), h ++ [o]).

Definition store (l : loc) (o : obj) : M unit :=
  fun h => (Ok tt, <[l := o]> h).

Definition read_frame (l : loc) : M DataFrame :=
  fun h => match h !! l with
           | Some (OFrame df) => (Ok df, h)
           | _ => (Raise (Exn TypeError Wrong_object_kind), h)
           end.

Definition read_list (l : loc) : M (list Z) :=
  fun h => match h !! l with
           | Some (OList xs) => (Ok xs, h)
           | _ => (Raise (Exn TypeError Wrong_object_kind), h)
           end.

Definition read_cycles (l : loc) : M (list (Z * loc)) :=
  fun h => match h !! l with
           | Some (OCycles d) => (Ok d, h)
           | _ => (Raise (Exn TypeError Wrong_object_kind), h)
           end.

Definition read_meta (l : loc) : M (pydict pyval) :=
  fun h => match h !! l with
           | Some (OMeta d) => (Ok d, h)
           | _ => (Raise (Exn TypeError Wrong_object_kind), h)
           end.

(** [df.copy()]: a new frame object with the same content. *)
Definition copy_frame (l : loc) : M loc :=
  df ← read_frame l; alloc (OFrame df).

(** [range(a, b + 1)]. *)
Definition inclusive_range (a b : Z) : list Z := seqZ a (b + 1 - a).

(** ** Cycle data container (data/container.py) *)

Record CycleDataContainer := mkContainer { _cycles : loc; _metadata : loc }.

Definition __init__ : M CycleDataContainer :=
  c ← alloc (OCycles []);
  m ← alloc (OMeta []);
  mret (mkContainer c m).

Definition get_cycle (self : CycleDataContainer) (cycle_no : Z) : M loc :=
  d ← read_cycles (_cycles self);
  match dict_get Z.eqb cycle_no d with
  | None => raise KeyError (Cycle_not_found_in_container cycle_no)
  | Some l => copy_frame l
  end.

Definition shift_TimeMin (dt : Q) (df : DataFrame) : DataFrame :=
  map (fun lr => (fst lr, mkRow (TimeMin (snd lr) + dt) (Vol (snd lr)) (Crate (snd lr)))) df.

(** [pd.concat(dfs, ignore_index=True)]. *)
Definition concat_ignore_index (dfs : list DataFrame) : DataFrame :=
  range_index (concat (map rows dfs)).

(** The loop of [get_cycle_range]: [dfs] collects the addresses of the
    shifted copies, [cumulative_time] is the float carried from one
    cycle to the next ([None] once it is NaN). *)
Fixpoint get_cycle_range_loop (d : list (Z * loc)) (cycle_nos : list Z)
  (dfs : list loc) (cumulative_time : option Q) : M (list loc) :=
  match cycle_nos with
  | [] => mret dfs
  | cycle_no :: rest =>
      match dict_get Z.eqb cycle_no d with
      | None => get_cycle_range_loop d rest dfs cumulative_time
      | Some l =>
          df ← copy_frame l;
          _ ← (if gt_nan cumulative_time (Some 0)
               then content ← read_frame df;
                    store df (OFrame (shift_TimeMin (default 0 cumulative_time) content))
               else mret tt);
          content ← read_frame df;
          get_cycle_range_loop d rest (dfs ++ [df])
            (series_max (map TimeMin (rows content)))
      end
  end.

Fixpoint read_frames (ls : list loc) : M (list DataFrame) :=
  match ls with
  | [] => mret []
  | l :: ls' => df ← read_frame l; dfs ← read_frames ls'; mret (df :: dfs)
  end.

Definition get_cycle_range (self : CycleDataContainer) (start stop : Z) : M loc :=
  d ← read_cycles (_cycles self);
  dfs ← get_cycle_range_loop d (inclusive_range start stop) [] (Some 0);
  match dfs with
  | [] => raise ValueError (No_cycles_found_in_range start stop)
  | _ => contents ← read_frames dfs;
         alloc (OFrame (concat_ignore_index contents))
  end.

(** The loop of [get_cycles]: [result] is the address of the dict being
    filled. *)
Fixpoint get_cycles_loop (d : list (Z * loc)) (cycle_list : list Z)
  (result : loc) (missing_cycles : list Z) : M (list Z) :=
  match cycle_list with
  | [] => mret missing_cycles
  | cycle_no :: rest =>
      match dict_get Z.eqb cycle_no d with
      | Some l =>
          df ← copy_frame l;
          r ← read_cycles result;
          _ ← store result (OCycles (dict_set Z.eqb cycle_no df r));
          get_cycles_loop d rest result missing_cycles
      | None => get_cycles_loop d rest result (missing_cycles ++ [cycle_no])
      end
  end.

Definition get_cycles (self : CycleDataContainer) (cycle_list : list Z) : M loc :=
  result ← alloc (OCycles []);
  d ← read_cycles (_cycles self);
  missing_cycles ← get_cycles_loop d cycle_list result [];
  match missing_cycles with
  | [] => mret result
  | _ => raise KeyError (Cycles_not_found missing_cycles)
  end.

Definition has_cycle (self : CycleDataContainer) (cycle_no : Z) : M bool :=
  d ← read_cycles (_cycles self);
  mret (bool_decide (is_Some (dict_get Z.eqb cycle_no d))).

(** [self._metadata.copy()]: a new dict object holding the same values;
    a value that is an address is copied as an address. *)
Definition get_metadata (self : CycleDataContainer) : M loc :=
  d ← read_meta (_metadata self);
  alloc (OMeta d).

(** [sorted(self._cycles.keys())] *)
Definition get_loaded_cycle_numbers (self : CycleDataContainer) : M (list Z) :=
  d ← read_cycles (_cycles self);
  mret (merge_sort Z.le (dict_keys d)).

Definition clear (self : CycleDataContainer) : M unit :=
  _ ← store (_cycles self) (OCycles []);
  store (_metadata self) (OMeta []).

Definition __len__ (self : CycleDataContainer) : M nat :=
  d ← read_cycles (_cycles self);
  mret (length d).

(** ** Files

    A data folder is given by the files directly inside it (in listing
    order), the files of its [Restore] subfolder and whether it has a
    [Pattern] entry.  A file is represented by what [pd.read_csv]
    returns for it: the header and, per row, the cells of the time,
    voltage, current and condition columns (an absent cell is NaN; time
    cells are taken to be numeric). *)

Record RawRow := mkRawRow {
  raw_time : Q;
  raw_voltage : option Q;
  raw_current : option Q;
  raw_condition : option string
}.

Record RawFrame := mkRawFrame {
  raw_columns : list string;
  raw_rows : list RawRow
}.

Record Folder := mkFolder {
  folder_files : list (string * RawFrame);
  folder_Restore : list (string * RawFrame);
  folder_Pattern : bool
}.

Definition FileSystem := string -> option Folder.

(** [str(n)] for an int. *)
Definition str_of_int (n : Z) : string := NilZero.string_of_int (Z.to_int n).

Definition SaveData_name (cycle_no : Z) : string :=
  ("SaveData" ++ str_of_int cycle_no ++ ".csv")%string.

Definition has_suffix (suffix s : string) : bool :=
  let n := String.length s in
  let k := String.length suffix in
  (k <=? n)%nat && String.eqb (String.substring (n - k) k s) suffix.

(** [glob(os.path.join(data_path, "*" + suffix))]: hidden files are not
    matched by [*]. *)
Definition glob_suffix (suffix : string) (files : list (string * RawFrame))
  : list (string * RawFrame) :=
  filter (fun f => has_suffix suffix (fst f) && negb (String.prefix "." (fst f))) files.

(** ** Regular expressions used by the loaders and parsers *)

Definition is_space (c : ascii) : bool :=
  let n := nat_of_ascii c in
  ((9 <=? n) && (n <=? 13) || (28 <=? n) && (n <=? 32))%nat.

Definition is_digit (c : ascii) : bool :=
  let n := nat_of_ascii c in ((48 <=? n) && (n <=? 57))%nat.

Definition to_lower (c : ascii) : ascii :=
  let n := nat_of_ascii c in
  if ((65 <=? n) && (n <=? 90))%nat then ascii_of_nat (n + 32) else c.

Fixpoint strip_prefix (fold_case : bool) (p s : list ascii) : option (list ascii) :=
  match p, s with
  | [], _ => Some s
  | _ :: _, [] => None
  | a :: p', b :: s' =>
      if (if fold_case then Ascii.eqb (to_lower a) (to_lower b) else Ascii.eqb a b)
      then strip_prefix fold_case p' s' else None
  end.

Fixpoint drop_while (f : ascii -> bool) (s : list ascii) : list ascii :=
  match s with
  | c :: s' => if f c then drop_while f s' else s
  | [] => []
  end.

Fixpoint take_while (f : ascii -> bool) (s : list ascii) : list ascii :=
  match s with
  | c :: s' => if f c then c :: take_while f s' else []
  | [] => []
  end.

(** [\s+] at the head of [s]: the remainder after one or more spaces. *)
Definition some_spaces (s : list ascii) : option (list ascii) :=
  match s with
  | c :: s' => if is_space c then Some (drop_while is_space s') else None
  | [] => None
  end.

(** [re.search] at every start position, leftmost first. *)
Fixpoint search {A} (match_here : list ascii -> option A) (s : list ascii) : option A :=
  match match_here s with
  | Some a => Some a
  | None => match s with
            | [] => None
            | _ :: s' => search match_here s'
            end
  end.

(** The pattern ["Cycle\s+<cycle_no>"], case-insensitive. *)
Definition match_Cycle_no (cycle_no : Z) (s : list ascii) : option unit :=
  rest ← strip_prefix true (list_ascii_of_string "Cycle") s;
  rest ← some_spaces rest;
  _ ← strip_prefix true (list_ascii_of_string (str_of_int cycle_no)) rest;
  Some tt.

(** [Series.str.contains(pattern, case=False, na=False)] on one cell. *)
Definition contains_Cycle (cycle_no : Z) (cell : option string) : bool :=
  match cell with
  | None => false
  | Some s => bool_decide (is_Some (search (match_Cycle_no cycle_no) (list_ascii_of_string s)))
  end.

Definition int_of_digits (ds : list ascii) : Z :=
  fold_left (fun acc c => acc * 10 + (Z.of_nat (nat_of_ascii c) - 48))%Z ds 0%Z.

(** [(\d+)]: the longest non-empty run of digits and the remainder. *)
Definition some_digits (s : list ascii) : option (Z * list ascii) :=
  match take_while is_digit s with
  | [] => None
  | ds => Some (int_of_digits ds, drop_while is_digit s)
  end.

(** The pattern ["Cycle\s+(\d+)"], case-insensitive. *)
Definition match_Cycle_digits (s : list ascii) : option Z :=
  rest ← strip_prefix true (list_ascii_of_string "Cycle") s;
  rest ← some_spaces rest;
  nr ← some_digits rest;
  Some (fst nr).

(** The pattern ["SaveData(\d+)\.csv"]. *)
Definition match_SaveData (s : list ascii) : option Z :=
  rest ← strip_prefix false (list_ascii_of_string "SaveData") s;
  nr ← some_digits rest;
  _ ← strip_prefix false (list_ascii_of_string ".csv") (snd nr);
  Some (fst nr).

(** ** Loaders (data/base_loader.py, pne_loader.py, toyo_loader.py) *)

Definition required_columns : list string := ["TimeMin"; "Vol"; "Crate"]%string.

Definition has_column (col : string) (columns : list string) : bool :=
  existsb (String.eqb col) columns.

Definition validate_data (columns : list string) : result unit :=
  let missing_columns :=
    filter (fun col => negb (has_column col columns)) required_columns in
  match missing_columns with
  | [] => Ok tt
  | _ => Raise (Exn ValueError (Missing_required_columns missing_columns))
  end.

(** [BaseDataLoader.preprocess_data] on a validated frame (so TimeMin is
    a column): sort by time, renumber the index, then drop the rows
    whose voltage or current is NaN; the rows that stay keep the labels
    they got from the renumbering. *)
Definition preprocess_data (raw : list RawRow) : DataFrame :=
  let sorted := sort_by raw_time raw in
  let indexed := combine (seqZ 0 (Z.of_nat (length sorted))) sorted in
  omap (fun ir =>
          match raw_voltage (snd ir), raw_current (snd ir) with
          | Some v, Some c => Some (fst ir, mkRow (raw_time (snd ir)) v c)
          | _, _ => None
          end) indexed.

Class BaseDataLoader (L : Type) := {
  load_cycle : FileSystem -> string -> Z -> L -> result DataFrame * L
}.

Inductive PNEDataLoader := PNE.

Definition folder_at (fs : FileSystem) (data_path : string) : Folder :=
  default (mkFolder [] [] false) (fs data_path).

Definition PNE_load_cycle (fs : FileSystem) (data_path : string) (cycle_no : Z)
  : result DataFrame :=
  let folder := folder_at fs data_path in
  let name := SaveData_name cycle_no in
  savedata_file ←
    match dict_get String.eqb name (folder_files folder) with
    | Some f => Ok f
    | None =>
        match dict_get String.eqb name (folder_Restore folder) with
        | Some f => Ok f
        | None => Raise (Exn FileNotFoundError (SaveData_not_found data_path cycle_no))
        end
    end;
  _ ← validate_data (raw_columns savedata_file);
  Ok (preprocess_data (raw_rows savedata_file)).

#[global] Instance PNE_loader : BaseDataLoader PNEDataLoader := {
  load_cycle fs data_path cycle_no self := (PNE_load_cycle fs data_path cycle_no, self)
}.

Record ToyoDataLoader := mkToyo { _raw_data_cache : option RawFrame }.

Definition raw_files (folder : Folder) : list (string * RawFrame) :=
  glob_suffix ".csv" (folder_files folder) ++ glob_suffix ".txt" (folder_files folder).

Definition _load_raw_data (fs : FileSystem) (data_path : string) : result RawFrame :=
  match raw_files (folder_at fs data_path) with
  | [] => Raise (Exn FileNotFoundError (No_raw_data_files data_path))
  | (_, df) :: _ =>
      if has_column "Condition" (raw_columns df) then Ok df
      else Raise (Exn ValueError Condition_column_not_found)
  end.

Definition column_mapping (col : string) : string :=
  if String.eqb col "Time" then "TimeMin"
  else if String.eqb col "Voltage" then "Vol"
  else if String.eqb col "Current" then "Crate"
  else if String.eqb col "Temperature" then "Temp"
  else col.

(** [_map_columns]: rename, then seconds to minutes. *)
Definition _map_columns (df : RawFrame) : RawFrame :=
  let columns := map column_mapping (raw_columns df) in
  let rows :=
    if has_column "TimeMin" columns
    then map (fun r => mkRawRow (raw_time r / 60) (raw_voltage r)
                                (raw_current r) (raw_condition r)) (raw_rows df)
    else raw_rows df in
  mkRawFrame columns rows.

Definition series_min (l : list Q) : option Q :=
  match l with
  | [] => None
  | x :: l' => Some (fold_left (fun a b => if Qle_bool a b then a else b) l' x)
  end.

(** [ToyoDataLoader.preprocess_data]: the common steps, then time is
    re-zeroed on a non-empty frame. *)
Definition Toyo_preprocess_data (raw : list RawRow) : DataFrame :=
  let df := preprocess_data raw in
  match series_min (map TimeMin (rows df)) with
  | Some t0 => shift_TimeMin (- t0) df
  | None => df
  end.

Definition Toyo_load_cycle (fs : FileSystem) (data_path : string) (cycle_no : Z)
  (self : ToyoDataLoader) : result DataFrame * ToyoDataLoader :=
  let loaded :=
    match _raw_data_cache self with
    | Some df => (Ok df, self)
    | None =>
        match _load_raw_data fs data_path with
        | Ok df => (Ok df, mkToyo (Some df))
        | Raise e => (Raise e, self)
        end
    end in
  (df ← fst loaded;
   let cycle_df :=
     mkRawFrame (raw_columns df)
       (filter (fun r => contains_Cycle cycle_no (raw_condition r)) (raw_rows df)) in
   if (length (raw_rows cycle_df) =? 0)%nat
   then Raise (Exn ValueError (No_data_found_for_Cycle cycle_no))
   else
     let cycle_df := _map_columns cycle_df in
     _ ← validate_data (raw_columns cycle_df);
     Ok (Toyo_preprocess_data (raw_rows cycle_df)),
   snd loaded).

#[global] Instance Toyo_loader : BaseDataLoader ToyoDataLoader := {
  load_cycle := Toyo_load_cycle
}.

(** ** Cycle range detection (utils/parsers.py) *)

Inductive CyclerType := CyclerType_PNE | CyclerType_TOYO.

Definition check_cycler (fs : FileSystem) (cyclefolder : string) : CyclerType :=
  if folder_Pattern (folder_at fs cyclefolder) then CyclerType_PNE else CyclerType_TOYO.

Definition Zmin_list (x : Z) (l : list Z) : Z := fold_left Z.min l x.
Definition Zmax_list (x : Z) (l : list Z) : Z := fold_left Z.max l x.

Definition min_max (data_path : string) (cycle_numbers : list Z) : result (Z * Z) :=
  match cycle_numbers with
  | [] => Raise (Exn ValueError (No_cycle_numbers_found data_path))
  | n :: ns => Ok (Zmin_list n ns, Zmax_list n ns)
  end.

Definition get_all_cycles (fs : FileSystem) (data_path : string) : result (Z * Z) :=
  let folder := folder_at fs data_path in
  match check_cycler fs data_path with
  | CyclerType_PNE =>
      let savedata_files :=
        filter (fun f => String.prefix "SaveData" (fst f)
                         && (12 <=? String.length (fst f))%nat)
               (glob_suffix ".csv" (folder_files folder)) in
      match savedata_files with
      | [] => Raise (Exn FileNotFoundError (No_SaveData_files data_path))
      | _ =>
          min_max data_path
            (omap (fun f => search match_SaveData (list_ascii_of_string (fst f)))
                  savedata_files)
      end
  | CyclerType_TOYO =>
      match raw_files folder with
      | [] => Raise (Exn FileNotFoundError (No_raw_data_files data_path))
      | (_, df) :: _ =>
          if has_column "Condition" (raw_columns df) then
            let conditions := omap raw_condition (raw_rows df) in
            min_max data_path
              (omap (fun cond => search match_Cycle_digits (list_ascii_of_string cond))
                    conditions)
          else Raise (Exn ValueError Condition_column_not_found)
      end
  end.

(** ** Bulk load ([CycleDataContainer.load_all_cycles]) *)

Section BulkLoad.
Context {L : Type} `{BaseDataLoader L}.

(** [self._cycles[cycle_no] = df] for a frame the loader just built. *)
Definition store_cycle (self : CycleDataContainer) (cycle_no : Z) (df : DataFrame)
  : M unit :=
  l ← alloc (OFrame df);
  d ← read_cycles (_cycles self);
  store (_cycles self) (OCycles (dict_set Z.eqb cycle_no l d)).

(** The [for cycle_no in range(start, end + 1)] loop with its
    [try ... except FileNotFoundError: continue]. *)
Fixpoint load_loop (fs : FileSystem) (self : CycleDataContainer) (data_path : string)
  (cycle_nos : list Z) (loader : L) (h : heap) : result unit * L * heap :=
  match cycle_nos with
  | [] => (Ok tt, loader, h)
  | cycle_no :: rest =>
      match load_cycle fs data_path cycle_no loader with
      | (Ok df, loader') =>
          match store_cycle self cycle_no df h with
          | (Ok _, h') => load_loop fs self data_path rest loader' h'
          | (Raise e, h') => (Raise e, loader', h')
          end
      | (Raise e, loader') =>
          if exn_class_eqb (exn_cls e) FileNotFoundError
          then load_loop fs self data_path rest loader' h
          else (Raise e, loader', h)
      end
  end.

Definition setitem_metadata (self : CycleDataContainer) (key : string) (v : pyval)
  : M unit :=
  d ← read_meta (_metadata self);
  store (_metadata self) (OMeta (dict_set String.eqb key v d)).

Definition save_metadata (self : CycleDataContainer) (data_path : string)
  (start stop : Z) : M unit :=
  _ ← setitem_metadata self "data_path" (VStr data_path);
  _ ← setitem_metadata self "cycle_range" (VRange start stop);
  d ← read_cycles (_cycles self);
  keys ← alloc (OList (dict_keys d));
  setitem_metadata self "loaded_cycles" (VListRef keys).

Definition load_all_cycles (fs : FileSystem) (self : CycleDataContainer)
  (data_path : string) (loader : L) (cycle_range : option (Z * Z)) (h : heap)
  : result unit * L * heap :=
  match (match cycle_range with
         | None => get_all_cycles fs data_path
         | Some r => Ok r
         end) with
  | Raise e => (Raise e, loader, h)
  | Ok (start, stop) =>
      match load_loop fs self data_path (inclusive_range start stop) loader h with
      | (Ok _, loader', h') =>
          let (r, h'') := save_metadata self data_path start stop h' in
          (r, loader', h'')
      | (Raise e, loader', h') => (Raise e, loader', h')
      end
  end.

End BulkLoad.

(** ** Analyzer base (analysis/base_analyzer.py) *)

Definition lift {A} (r : result A) : M A := fun h => (r, h).

(** [BaseAnalyzer.get_capacity]: discharge capacity of one stored cycle. *)
Definition get_capacity (cfg : CapacityConfig) (container : CycleDataContainer)
  (cycle_no : Z) : M Q :=
  df ← get_cycle container cycle_no;
  df ← copy_frame df;
  content ← read_frame df;
  let df := with_TimeDiff content in
  let discharge := filter (fun rt => is_discharge (fst rt)) df in
  if (length discharge =? 0)%nat then mret 0
  else
    let capacity_base := capacity_base cfg in
    mret (Qsum (map (fun rt => Qabs (Crate (fst rt) * snd rt)) discharge) * capacity_base).

(** ** Linked analyzer (analysis/cycle/linked.py) *)

Module Linked.

Record SummaryRow := mkSummaryRow {
  Path : string;
  Path_Name : string;
  Local_Cycle : Z;
  Global_Cycle : Z;
  Discharge_Capacity : Q;
  Charge_Capacity : Q;
  Efficiency : Q;
  DCIR : Q
}.

(** The inner loop over the loaded cycles of one path.  The voltage
    profiles built in the same loop cannot fail and do not feed the
    numbering; they are left out. *)
Fixpoint analyze_cycles (cfg : CapacityConfig) (container : CycleDataContainer)
  (cyclepath cyclename : string) (cumulative_cycle_offset : Z)
  (loaded_cycles : list Z) : M (list SummaryRow) :=
  match loaded_cycles with
  | [] => mret []
  | local_cycle_no :: rest =>
      df ← get_cycle container local_cycle_no;
      content ← read_frame df;
      let capacity_result := _calculate_cycle_capacity cfg content in
      dcir ← lift (calculate_ir content);
      let global_cycle_no := (cumulative_cycle_offset + local_cycle_no)%Z in
      let summary_row :=
        mkSummaryRow cyclepath cyclename local_cycle_no global_cycle_no
          (discharge_capacity capacity_result) (charge_capacity capacity_result)
          (efficiency capacity_result) dcir in
      path_summary ← analyze_cycles cfg container cyclepath cyclename
                       cumulative_cycle_offset rest;
      mret (summary_row :: path_summary)
  end.

(** [max(cumulative_cycle_offset, max(loaded_cycles))] when the path
    has loaded cycles. *)
Definition next_offset (cumulative_cycle_offset : Z) (loaded_cycles : list Z) : Z :=
  match loaded_cycles with
  | [] => cumulative_cycle_offset
  | c :: cs => Z.max cumulative_cycle_offset (Zmax_list c cs)
  end.

Record Results := mkResults {
  summary : list SummaryRow;
  path_summaries : pydict (list SummaryRow)
}.

(** The outer loop over the manifest rows (cyclepath, cyclename). *)
Fixpoint analyze_paths (cfg : CapacityConfig)
  (containers : pydict CycleDataContainer) (tsv_data : list (string * string))
  (cumulative_cycle_offset : Z) (acc : Results) : M Results :=
  match tsv_data with
  | [] => mret acc
  | (cyclepath, cyclename) :: rest =>
      match dict_get String.eqb cyclepath containers with
      | None => analyze_paths cfg containers rest cumulative_cycle_offset acc
      | Some container =>
          loaded_cycles ← get_loaded_cycle_numbers container;
          path_summary ← analyze_cycles cfg container cyclepath cyclename
                           cumulative_cycle_offset loaded_cycles;
          analyze_paths cfg containers rest
            (next_offset cumulative_cycle_offset loaded_cycles)
            (mkResults (summary acc ++ path_summary)
               (dict_set String.eqb cyclepath path_summary (path_summaries acc)))
      end
  end.

Definition analyze (cfg : CapacityConfig) (containers : pydict CycleDataContainer)
  (tsv_data : list (string * string)) : M Results :=
  analyze_paths cfg containers tsv_data 0%Z (mkResults [] []).

End Linked.

(** ** The capacity derivation in the words of the specification

    "Split a cycle's rows into discharge and charge subsets; for each
    subset, integrate |current| x dt over consecutive rows (first row's
    dt treated as 0) and multiply by the capacity basis."  Consecutive
    rows are consecutive rows of the subset. *)

Fixpoint spec_integral_from (prev : Q) (subset : list Row) : Q :=
  match subset with
  | [] => 0
  | r :: rest => Qabs (Crate r) * (TimeMin r - prev) + spec_integral_from (TimeMin r) rest
  end.

Definition spec_integral (subset : list Row) : Q :=
  match subset with
  | [] => 0
  | r :: rest => Qabs (Crate r) * 0 + spec_integral_from (TimeMin r) rest
  end.

Definition spec_cycle_capacity (cfg : CapacityConfig) (df : DataFrame) : CycleCapacity :=
  let d := spec_integral (filter is_discharge (rows df)) * capacity_base cfg in
  let c := spec_integral (filter is_charge (rows df)) * capacity_base cfg in
  mkCycleCapacity d c (if Qeq_bool c 0 then 0 else d / c * 100).

(** What the code integrates: the selected rows of the whole table, each
    with the time elapsed since the row just before it in the whole
    table. *)
Fixpoint table_integral_from (sel : Row -> bool) (term : Q -> Q) (prev : Q)
  (table : list Row) : Q :=
  match table with
  | [] => 0
  | r :: rest =>
      (if sel r then term (Crate r * (TimeMin r - prev)) else 0)
      + table_integral_from sel term (TimeMin r) rest
  end.

Definition table_integral (sel : Row -> bool) (term : Q -> Q) (table : list Row) : Q :=
  match table with
  | [] => 0
  | r :: rest =>
      (if sel r then term (Crate r * 0) else 0)
      + table_integral_from sel term (TimeMin r) rest
  end.

(** A column in non-decreasing order. *)
Fixpoint nondecreasing_from (prev : Q) (l : list Q) : Prop :=
  match l with
  | [] => True
  | x :: l' => prev <= x /\ nondecreasing_from x l'
  end.

Definition nondecreasing (l : list Q) : Prop :=
  match l with
  | [] => True
  | x :: l' => nondecreasing_from x l'
  end.

(** Rows in non-decreasing order of elapsed time. *)
Definition time_sorted (table : list Row) : Prop :=
  nondecreasing (map TimeMin table).

(** ** The lifecycle prediction in the words of the specification

    "End-of-life capacity defined as 80% of initial capacity; predicted
    EOL cycle number solved from the fitted line (cycle = (eol_capacity
    - initial) / slope); all-zero prediction if initial capacity <= 0 or
    the fitted slope is non-negative; remaining cycles = max(0,
    predicted EOL cycle - last observed cycle)." *)

Record LifecyclePrediction := mkLifecycle {
  spec_eol_capacity : Q;
  spec_predicted_eol_cycle : Q;
  spec_remaining_cycles : Q
}.

Definition spec_predict_lifecycle (initial slope : Q) (last_cycle : Z)
  : LifecyclePrediction :=
  if Qle_bool initial 0 || Qle_bool 0 slope then mkLifecycle 0 0 0
  else
    let eol := initial * (4 # 5) in
    let predicted := (eol - initial) / slope in
    let remaining := predicted - inject_Z last_cycle in
    mkLifecycle eol predicted (if Qle_bool 0 remaining then remaining else 0).

(** The slope of the least-squares line through the points (x, y). *)
Definition least_squares_slope (x y : list Q) : Q :=
  let xmean := Qmean x in
  let ymean := Qmean y in
  Qsum (map (fun p => (fst p - xmean) * (snd p - ymean)) (combine x y))
  / Qsum (map (fun xi => (xi - xmean) * (xi - xmean)) x).

Definition zero_prediction : pydict Q :=
  [("eol_capacity", 0); ("predicted_eol_cycle", 0); ("remaining_cycles", 0)]%string.


(** ** The DCIR routine in the words of the specification

    "Compute the absolute row-to-row change in signed current; take the
    95th percentile of that change as a threshold; the first row
    exceeding the threshold is the pulse start, the pulse end is 10 rows
    later (or the last row if shorter).  Resistance = |dV| / |dI| x 1000
    between those two rows; 0 if fewer than 2 pulse candidates exist or
    the current delta is below 0.01."  Rows are counted by position. *)

Definition spec_calculate_ir (table : list Row) : Q :=
  let change := map (option_map Qabs) (diff (map Crate table)) in
  let threshold := quantile (19 # 20) change in
  let candidates :=
    map fst (filter (fun ic : nat * option Q => gt_nan (snd ic) threshold)
               (combine (seq 0 (length table)) change)) in
  match candidates with
  | pulse_start :: _ :: _ =>
      let pulse_end := Nat.min (pulse_start + 10) (length table - 1) in
      match table !! pulse_start, table !! pulse_end with
      | Some r_start, Some r_end =>
          let dV := Vol r_end - Vol r_start in
          let dI := Crate r_end - Crate r_start in
          if Qltb (Qabs dI) (1 # 100) then 0
          else Qabs dV / Qabs dI * 1000
      | _, _ => 0
      end
  | _ => 0
  end.

(** A stored PNE file whose thirteenth row has no voltage reading: 25
    samples one minute apart, a one-C pulse on rows 2 to 4. *)
Definition C6_raw_row (i : nat) : RawRow :=
  mkRawRow (inject_Z (Z.of_nat i))
    (if (i =? 12)%nat then None
     else if ((2 <=? i) && (i <=? 4))%nat then Some (39 # 10) else Some 4)
    (if ((2 <=? i) && (i <=? 4))%nat then Some 1 else Some 0)
    None.

Definition C6_file : RawFrame :=
  mkRawFrame ["TimeMin"; "Vol"; "Crate"]%string (map C6_raw_row (seq 0 25)).

Definition C6_files : FileSystem :=
  fun data_path =>
    if String.eqb data_path "/data/cell"
    then Some (mkFolder [("SaveData1.csv"%string, C6_file)] [] true)
    else None.


(** ** What a container holds

    The tables and the metadata a container gives access to, read
    through the heap: stored addresses are followed down to the
    values. *)

Definition frame_at (h : heap) (l : loc) : option DataFrame :=
  match h !! l with
  | Some (OFrame df) => Some df
  | _ => None
  end.

Definition stored_cycles (h : heap) (self : CycleDataContainer)
  : option (list (Z * loc)) :=
  match h !! _cycles self with
  | Some (OCycles d) => Some d
  | _ => None
  end.

(** The table stored for a cycle number, [None] when the number was
    never loaded. *)
Definition stored_table (h : heap) (self : CycleDataContainer) (cycle_no : Z)
  : option DataFrame :=
  d ← stored_cycles h self;
  l ← dict_get Z.eqb cycle_no d;
  frame_at h l.

Inductive metadata_value :=
| MStr (s : string)
| MRange (start stop : Z)
| MList (l : list Z)
| MDangling.

Definition metadata_value_at (h : heap) (v : pyval) : metadata_value :=
  match v with
  | VStr s => MStr s
  | VRange a b => MRange a b
  | VListRef l => match h !! l with
                  | Some (OList xs) => MList xs
                  | _ => MDangling
                  end
  end.

Definition stored_metadata (h : heap) (self : CycleDataContainer)
  : option (list (string * metadata_value)) :=
  match h !! _metadata self with
  | Some (OMeta d) => Some (map (fun kv => (fst kv, metadata_value_at h (snd kv))) d)
  | _ => None
  end.

(** A container whose two dicts are in the heap and whose stored
    addresses lead to frames and lists. *)
Definition container_ok (h : heap) (self : CycleDataContainer) : Prop :=
  _cycles self <> _metadata self
  /\ (exists d, stored_cycles h self = Some d
                /\ forall n l, In (n, l) d -> is_Some (frame_at h l))
  /\ (exists md, h !! _metadata self = Some (OMeta md)
                 /\ forall k l, In (k, VListRef l) md ->
                                exists xs, h !! l = Some (OList xs)).

(** ** What a caller can do with a returned object *)

(** [lst.append(x)] on a list object. *)
Definition list_append (l : loc) (x : Z) : M unit :=
  xs ← read_list l;
  store l (OList (xs ++ [x])).

(** [d[key].append(x)] on a returned metadata dict. *)
Definition append_to_entry (d : loc) (key : string) (x : Z) : M unit :=
  md ← read_meta d;
  match dict_get String.eqb key md with
  | Some (VListRef l) => list_append l x
  | _ => raise KeyError (Key_not_in_dict key)
  end.

(** [d[key] = v] on a returned metadata dict. *)
Definition setitem_entry (d : loc) (key : string) (v : pyval) : M unit :=
  md ← read_meta d;
  store d (OMeta (dict_set String.eqb key v md)).

(** State of the run after a computation, and its outcome. *)
Definition run {A} (m : M A) (h : heap) : heap := snd (m h).
Definition outcome {A} (m : M A) (h : heap) : result A := fst (m h).


(** ** Example data folders *)

Definition sample (t v c : Q) : RawRow := mkRawRow t (Some v) (Some c) None.

Definition csv (rows : list RawRow) : RawFrame :=
  mkRawFrame ["TimeMin"; "Vol"; "Crate"]%string rows.

(** [load_all_cycles] for a caller that drops the loader afterwards. *)
Definition bulk_load {L} `{BaseDataLoader L} (fs : FileSystem)
  (self : CycleDataContainer) (data_path : string) (loader : L)
  (cycle_range : option (Z * Z)) : M unit :=
  fun h => let '(r, _, h') := load_all_cycles fs self data_path loader cycle_range h in
           (r, h').

Definition new_container {L} `{BaseDataLoader L} (fs : FileSystem)
  (data_path : string) (loader : L) (cycle_range : option (Z * Z))
  : M CycleDataContainer :=
  self ← __init__;
  _ ← bulk_load fs self data_path loader cycle_range;
  mret self.

(** A Toyo export with rows for cycles 1 and 3 and none for cycle 2. *)
Definition toyo_row (t v c : Q) (condition : string) : RawRow :=
  mkRawRow t (Some v) (Some c) (Some condition).

Definition C2_toyo_export : RawFrame :=
  mkRawFrame ["Time"; "Voltage"; "Current"; "Condition"]%string
    [toyo_row 0 4 1 "Cycle 1"; toyo_row 60 4 (-1) "Cycle 1";
     toyo_row 120 4 1 "Cycle 3"; toyo_row 180 4 (-1) "Cycle 3"].

Definition C2_toyo_files : FileSystem :=
  fun data_path =>
    if String.eqb data_path "/data/toyo"
    then Some (mkFolder [("export.csv"%string, C2_toyo_export)] [] false)
    else None.

(** The same gap in a PNE folder: SaveData2.csv is missing. *)
Definition C2_pne_files : FileSystem :=
  fun data_path =>
    if String.eqb data_path "/data/pne"
    then Some (mkFolder
                 [("SaveData1.csv"%string, csv [sample 0 4 1; sample 1 4 (-1)]);
                  ("SaveData3.csv"%string, csv [sample 0 4 1; sample 1 4 (-1)])]
                 [] true)
    else None.

(** A PNE folder whose second cycle file has a header and no rows. *)
Definition C3_files : FileSystem :=
  fun data_path =>
    if String.eqb data_path "/data/pne"
    then Some (mkFolder
                 [("SaveData1.csv"%string, csv [sample 0 4 1; sample 10 4 (-1)]);
                  ("SaveData2.csv"%string, csv []);
                  ("SaveData3.csv"%string, csv [sample 0 4 1; sample 5 4 (-1)])]
                 [] true)
    else None.

(** Three PNE folders with cycles 1 to 3 each, and the manifest that
    links them. *)
Definition C4_folder : Folder :=
  mkFolder
    [("SaveData1.csv"%string, csv [sample 0 4 1; sample 1 4 (-1)]);
     ("SaveData2.csv"%string, csv [sample 0 4 1; sample 1 4 (-1)]);
     ("SaveData3.csv"%string, csv [sample 0 4 1; sample 1 4 (-1)])]
    [] true.

Definition C4_files : FileSystem :=
  fun data_path =>
    if String.eqb data_path "/data/A" || String.eqb data_path "/data/B"
       || String.eqb data_path "/data/C"
    then Some C4_folder else None.

Definition C4_manifest : list (string * string) :=
  [("/data/A", "first"); ("/data/B", "second"); ("/data/C", "third")]%string.

Definition C4_run : M Linked.Results :=
  a ← new_container C4_files "/data/A" PNE (Some (1, 3)%Z);
  b ← new_container C4_files "/data/B" PNE (Some (1, 3)%Z);
  c ← new_container C4_files "/data/C" PNE (Some (1, 3)%Z);
  Linked.analyze (mkCapacityConfig AUTO_CRATE (1 # 5) 58)
    [("/data/A"%string, a); ("/data/B"%string, b); ("/data/C"%string, c)]
    C4_manifest.


(** [h'] is [h] with new objects allocated after it: every object of
    [h] is still there, unchanged. *)
Definition extends (h h' : heap) : Prop := exists ext, h' = h ++ ext.


(** ** The merged range in the words of the specification

    "Concatenates all loaded tables in [start, end] in cycle-number
    order, shifting each subsequent table's elapsed-time column forward
    by the running maximum elapsed time of all tables appended so
    far." *)

Definition tables_in_range (h : heap) (self : CycleDataContainer) (start stop : Z)
  : list DataFrame :=
  omap (stored_table h self) (inclusive_range start stop).

(** Maximum elapsed time of the rows appended so far, 0 before the
    first table. *)
Definition running_max (appended : list Row) : Q :=
  fold_left Qmax2 (map TimeMin appended) 0.

Definition shift_row (dt : Q) (r : Row) : Row :=
  mkRow (TimeMin r + dt) (Vol r) (Crate r).

Fixpoint spec_merge_from (appended : list Row) (tables : list (list Row)) : list Row :=
  match tables with
  | [] => appended
  | t :: rest =>
      spec_merge_from (appended ++ map (shift_row (running_max appended)) t) rest
  end.

Definition spec_merge (tables : list (list Row)) : list Row :=
  spec_merge_from [] tables.

(** Rows that agree up to equality of rationals. *)
Definition row_equiv (r1 r2 : Row) : Prop :=
  TimeMin r1 == TimeMin r2 /\ Vol r1 == Vol r2 /\ Crate r1 == Crate r2.

(** The loop of [get_cycle_range] on the tables themselves. *)
Fixpoint merge_loop (tables : list DataFrame) (cumulative_time : option Q)
  : list DataFrame :=
  match tables with
  | [] => []
  | df :: rest =>
      let df' := if gt_nan cumulative_time (Some 0)
                 then shift_TimeMin (default 0 cumulative_time) df
                 else df in
      df' :: merge_loop rest (series_max (map TimeMin (rows df')))
  end.


(** A stored table as the loaders are meant to deliver it for merging:
    at least one row, sorted by elapsed time, no negative time. *)
Definition mergeable (df : DataFrame) : Prop :=
  df <> [] /\ time_sorted (rows df) /\ Forall (fun r => 0 <= TimeMin r) (rows df).


(** ** The global numbering of the linked analyzer, path by path

    Every local number of a path is moved by the offset in force when
    the path is reached; the offset for the next path is computed after
    that. *)

Fixpoint global_numbers (offset : Z) (paths : list (list Z)) : list Z :=
  match paths with
  | [] => []
  | loaded_cycles :: rest =>
      map (Z.add offset) loaded_cycles
      ++ global_numbers (Linked.next_offset offset loaded_cycles) rest
  end.

(** The offsets in force at the start of each path. *)
Fixpoint offsets (offset : Z) (paths : list (list Z)) : list Z :=
  match paths with
  | [] => []
  | loaded_cycles :: rest =>
      offset :: offsets (Linked.next_offset offset loaded_cycles) rest
  end.

(** The sorted loaded cycle numbers of the containers the manifest
    names, in manifest order; rows whose path has no container are
    skipped. *)
Definition manifest_paths (h : heap) (containers : pydict CycleDataContainer)
  (tsv_data : list (string * string)) : list (list Z) :=
  omap (fun row : string * string =>
          container ← dict_get String.eqb (fst row) containers;
          d ← stored_cycles h container;
          Some (merge_sort Z.le (dict_keys d)))
       tsv_data.

Definition Z_nondecreasing (l : list Z) : Prop :=
  forall i a b, l !! i = Some a -> l !! S i = Some b -> (a <= b)%Z.


(** ** Sample tables and series used by the examples below *)

Definition C1_table : DataFrame :=
  range_index [mkRow 0 4 1; mkRow 1 4 (-1); mkRow 2 4 (-1)].

Definition C1_config : CapacityConfig := mkCapacityConfig AUTO_CRATE (1 # 5) 58.

Definition C7_table : DataFrame :=
  range_index [mkRow 0 4 1; mkRow 1 4 1; mkRow 2 4 (-1); mkRow 4 4 (-1); mkRow 5 4 (-2)].

Definition C5_series : list CapacityRow :=
  [mkCapacityRow 1 100 101 99; mkCapacityRow 2 97 98 99].


Definition C10_flat_series : list CapacityRow :=
  [mkCapacityRow 1 100 101 99; mkCapacityRow 2 100 101 99].

Definition C10_metrics (_ : list CapacityRow) : pydict Q :=
  [("capacity_mean", 100); ("capacity_std", 0); ("capacity_cv", 0);
   ("efficiency_mean", 99)]%string.


(** ** Text input (utils/parsers.py)

    Text is ASCII.  [str.split()], [str.strip()] and the pattern [\s]
    share the blanks of [is_space]; [int()] only skips the blanks of
    [is_int_space] around a literal. *)

(** The errors of the parsing and configuration layer; all of them are
    raised as ValueError. *)
Inductive value_error :=
| Invalid_int_literal (text : string)
| Exceeds_digit_limit
| Not_enough_values_to_unpack (got : nat)
| Too_many_values_to_unpack
| Range_format_required (cycle_input : string)
| Invalid_float_literal (text : string)
| TSV_file_required
| C_rate_not_positive
| Capacity_not_positive
| Cycle_numbers_not_positive
| Cycle_range_not_valid
| Voltage_range_not_valid
| Container_is_empty
| Analysis_produced_no_results
| Requires_cycle_numbers
| Requires_TSV_file.

Inductive checked (A : Type) :=
| Valid (a : A)
| Invalid (what : value_error).
Arguments Valid {A} a.
Arguments Invalid {A} what.

#[global] Instance checked_ret : MRet checked := fun A a => Valid a.
#[global] Instance checked_bind : MBind checked := fun A B k m =>
  match m with
  | Valid a => k a
  | Invalid e => Invalid e
  end.

Definition is_int_space (c : ascii) : bool :=
  let n := nat_of_ascii c in
  ((9 <=? n) && (n <=? 13) || (n =? 32))%nat.

Definition digit_value (c : ascii) : Z := (Z.of_nat (nat_of_ascii c) - 48)%Z.

(** [text.strip()], and the same for the blanks [int()] skips. *)
Definition strip_with (blank : ascii -> bool) (s : list ascii) : list ascii :=
  rev (drop_while blank (rev (drop_while blank s))).

Definition strip (s : list ascii) : list ascii := strip_with is_space s.

(** [text.split()]: the maximal runs of non-blank characters;
    [word] is the run being read, last character first. *)
Fixpoint split_from (word : list ascii) (s : list ascii) : list (list ascii) :=
  match s with
  | [] => match word with [] => [] | _ => [rev word] end
  | c :: s' =>
      if is_space c
      then match word with
           | [] => split_from [] s'
           | _ => rev word :: split_from [] s'
           end
      else split_from (c :: word) s'
  end.

Definition split (s : list ascii) : list (list ascii) := split_from [] s.

(** [text.split(sep)] for a one-character separator: empty pieces are
    kept, and there is always at least one piece. *)
Fixpoint split_on (sep : ascii) (s : list ascii) : list (list ascii) :=
  match s with
  | [] => [[]]
  | c :: s' =>
      if Ascii.eqb c sep then [] :: split_on sep s'
      else match split_on sep s' with
           | piece :: pieces => (c :: piece) :: pieces
           | [] => [[c]]
           end
  end.

(** [sub in text] for a one-character [sub]. *)
Definition contains_char (c : ascii) (s : list ascii) : bool :=
  existsb (Ascii.eqb c) s.

(** The digits of a decimal int literal: single underscores may stand
    between two digits. *)
Fixpoint int_literal_digits (acc : Z) (after_digit : bool) (s : list ascii) : option Z :=
  match s with
  | [] => if after_digit then Some acc else None
  | c :: s' =>
      if is_digit c then int_literal_digits (acc * 10 + digit_value c) true s'
      else if Ascii.eqb c "_" && after_digit then int_literal_digits acc false s'
      else None
  end.

(** The interpreter's default cap on the number of digits of an int
    literal. *)
Definition int_max_str_digits : nat := 4300.

(** [int(text)]. *)
Definition int_of_str (text : list ascii) : checked Z :=
  let body := strip_with is_int_space text in
  let signed :=
    match body with
    | c :: ds =>
        if Ascii.eqb c "+" then (false, ds)
        else if Ascii.eqb c "-" then (true, ds)
        else (false, body)
    | [] => (false, [])
    end in
  match int_literal_digits 0 false (snd signed) with
  | None => Invalid (Invalid_int_literal (string_of_list_ascii text))
  | Some n =>
      if (int_max_str_digits <? length (filter (fun c => is_digit c) (snd signed)))%nat
      then Invalid Exceeds_digit_limit
      else Valid (if fst signed then - n else n)%Z
  end.

(** [a, b = map(int, pieces)]: the pieces are converted one by one as
    the unpacking asks for them, a third piece is converted before the
    count is refused. *)
Definition unpack_int_pair (pieces : list (list ascii)) : checked (Z * Z) :=
  match pieces with
  | [] => Invalid (Not_enough_values_to_unpack 0)
  | a :: rest =>
      x ← int_of_str a;
      match rest with
      | [] => Invalid (Not_enough_values_to_unpack 1)
      | b :: rest' =>
          y ← int_of_str b;
          match rest' with
          | [] => Valid (x, y)
          | c :: _ => _ ← int_of_str c; Invalid Too_many_values_to_unpack
          end
      end
  end.

(** [convert_steplist]: the loop over the blank-separated steps. *)
Fixpoint convert_steps (steps : list (list ascii)) (steplist : list Z)
  : checked (list Z) :=
  match steps with
  | [] => Valid steplist
  | step :: rest =>
      if contains_char "-" step
      then r ← unpack_int_pair (split_on "-" step);
           convert_steps rest (steplist ++ inclusive_range (fst r) (snd r))
      else n ← int_of_str step;
           convert_steps rest (steplist ++ [n])
  end.

Definition convert_steplist (stepnum : string) : checked (list Z) :=
  convert_steps (split (list_ascii_of_string stepnum)) [].

Definition parse_cycle_range (cycle_input : string) : checked (Z * Z) :=
  if negb (contains_char "-" (list_ascii_of_string cycle_input))
  then Invalid (Range_format_required cycle_input)
  else
    let cycle_range := strip (list_ascii_of_string cycle_input) in
    unpack_int_pair (split_on "-" cycle_range).

(** *** Writing steps

    The text a user enters for a list of cycles: numbers and spans
    [a-b], separated by one blank. *)

Inductive step := Single (n : Z) | Span (a b : Z).

Definition step_text (s : step) : string :=
  match s with
  | Single n => str_of_int n
  | Span a b => str_of_int a ++ "-" ++ str_of_int b
  end.

Definition step_cycles (s : step) : list Z :=
  match s with
  | Single n => [n]
  | Span a b => inclusive_range a b
  end.

(** A number that [str] writes without a sign and [int] reads back. *)
Definition writable (n : Z) : Prop :=
  (0 <= n)%Z /\ (String.length (str_of_int n) <= int_max_str_digits)%nat.

Definition step_writable (s : step) : Prop :=
  match s with
  | Single n => writable n
  | Span a b => writable a /\ writable b
  end.

(** [name_capacity]: the pattern ["(\d+([-.]\d+)?)mAh"] at the head of
    [s], as the integer digits and the fraction digits of group 1.
    Both digit runs are maximal in any match (the character after a
    shorter run would be a digit); the optional group is given up when
    no [mAh] follows it. *)
Definition match_mAh (s : list ascii) : option (list ascii * list ascii) :=
  match take_while is_digit s with
  | [] => None
  | whole =>
      let rest := drop_while is_digit s in
      let without_group :=
        _ ← strip_prefix false (list_ascii_of_string "mAh") rest; Some (whole, []) in
      match rest with
      | c :: rest' =>
          if Ascii.eqb c "-" || Ascii.eqb c "."
          then match take_while is_digit rest' with
               | [] => without_group
               | fraction =>
                   match strip_prefix false (list_ascii_of_string "mAh")
                           (drop_while is_digit rest') with
                   | Some _ => Some (whole, fraction)
                   | None => without_group
                   end
               end
          else without_group
      | [] => None
      end
  end.

(** [float(text)] for a text of digits, or of digits, a point and
    digits. *)
Definition float_of_decimal (whole fraction : list ascii) : Q :=
  inject_Z (int_of_digits whole)
  + inject_Z (int_of_digits fraction) / inject_Z (10 ^ Z.of_nat (length fraction)).

(** [None] is Python's [None]. *)
Definition name_capacity (filepath : string) : option Q :=
  m ← search match_mAh (list_ascii_of_string filepath);
  Some (float_of_decimal (fst m) (snd m)).

(** The number a decimal numeral denotes, read digit by digit. *)
Fixpoint uint_value (acc : Z) (u : Decimal.uint) : Z :=
  match u with
  | Decimal.Nil => acc
  | Decimal.D0 l => uint_value (acc * 10 + 0) l
  | Decimal.D1 l => uint_value (acc * 10 + 1) l
  | Decimal.D2 l => uint_value (acc * 10 + 2) l
  | Decimal.D3 l => uint_value (acc * 10 + 3) l
  | Decimal.D4 l => uint_value (acc * 10 + 4) l
  | Decimal.D5 l => uint_value (acc * 10 + 5) l
  | Decimal.D6 l => uint_value (acc * 10 + 6) l
  | Decimal.D7 l => uint_value (acc * 10 + 7) l
  | Decimal.D8 l => uint_value (acc * 10 + 8) l
  | Decimal.D9 l => uint_value (acc * 10 + 9) l
  end%Z.



(** ** Capacity detection by the loaders (data/pne_loader.py,
    data/toyo_loader.py) and the loader factory
    (data/loader_factory.py) *)




Definition clear_cache (self : ToyoDataLoader) : ToyoDataLoader := mkToyo None.


(** [DataLoaderFactory.create_loader_by_type]; [CyclerType] has no
    third member for the final [raise]. *)
Definition create_loader_by_type (cycler_type : CyclerType)
  : PNEDataLoader + ToyoDataLoader :=
  match cycler_type with
  | CyclerType_PNE => inl PNE
  | CyclerType_TOYO => inr (mkToyo None)
  end.



(** ** Sample containers *)

(** The heap and the container that [CycleDataContainer()] makes when
    nothing else has been allocated. *)
Definition empty_heap : heap := [OCycles []; OMeta []].
Definition first_container : CycleDataContainer := mkContainer 0%nat 1%nat.

(** The same container after loading cycles 1 to 3 of the PNE folder
    ["/data/pne"] of [C2_pne_files], where cycle 2 has no file. *)
Definition loaded_heap : heap :=
  run (bulk_load C2_pne_files first_container "/data/pne" PNE (Some (1, 3)%Z)) empty_heap.



(** ** An empty container, as its methods show it *)

Definition answers_as_empty (h : heap) (self : CycleDataContainer) : Prop :=
  __len__ self h = (Ok 0%nat, h)
  /\ get_loaded_cycle_numbers self h = (Ok [], h)
  /\ (forall n, has_cycle self n h = (Ok false, h))
  /\ (forall n, get_cycle self n h
                = (Raise (Exn KeyError (Cycle_not_found_in_container n)), h))
  /\ (forall start stop,
        get_cycle_range self start stop h
        = (Raise (Exn ValueError (No_cycles_found_in_range start stop)), h))
  /\ stored_metadata h self = Some [].


(** ** Analysis configuration (config/enums.py, config/models.py) *)

Module Config.

Inductive DCIRMode := STANDARD | PULSE | RSS.
Inductive ProfileLayout := BY_CYCLE | BY_CELL.

Record PathConfig := mkPathConfig {
  use_tsv : bool;
  tsv_file : option string;
  manual_paths : option (list string);
  folder_paths : option (list string)
}.

Record CycleConfig := mkCycleConfig {
  cycle_numbers : option (list Z);
  cycle_range : option (Z * Z);
  x_max : Q;
  y_max : Q;
  y_min : Q;
  dcir_mode : DCIRMode;
  dcir_scale : Q
}.

Module Profile.
Record ProfileConfig := mkProfileConfig {
  cycle_numbers : option (list Z);
  cycle_range : option (Z * Z);
  layout : ProfileLayout;
  voltage_min : Q;
  voltage_max : Q;
  voltage_gap : Q;
  smoothing : Z;
  cutoff_crate : Q;
  dqdv_scale : Q;
  swap_dqdv_axes : bool
}.
End Profile.

Record ExportConfig := mkExportConfig {
  save_excel : bool;
  save_ect : bool;
  save_figure : bool;
  excel_filename : option string;
  ect_filename : option string;
  figure_filename : option string
}.

Record AnalysisConfig := mkAnalysisConfig {
  path : PathConfig;
  capacity : CapacityConfig;
  cycle : option CycleConfig;
  profile : option Profile.ProfileConfig;
  export : ExportConfig
}.

(** The defaults of the dataclasses. *)
Definition default_PathConfig : PathConfig := mkPathConfig true None None None.
Definition default_CapacityConfig : CapacityConfig :=
  mkCapacityConfig AUTO_CRATE (1 # 5) 58.
Definition default_ExportConfig : ExportConfig :=
  mkExportConfig false false false None None None.

(** Truth value of an optional text and of an optional list: [None],
    the empty text and the empty list are false. *)
Definition text_given (s : option string) : bool :=
  match s with
  | Some s => negb (String.eqb s EmptyString)
  | None => false
  end.

Definition list_given {A} (l : option (list A)) : bool :=
  match l with
  | Some (_ :: _) => true
  | _ => false
  end.

(** The check made on [cycle_numbers] and [cycle_range], in the cycle
    and in the profile settings alike. *)
Definition validate_cycles (cycle_numbers : option (list Z))
  (cycle_range : option (Z * Z)) : checked unit :=
  _ ← (if list_given cycle_numbers
       then if forallb (fun c => 0 <? c)%Z (default [] cycle_numbers)
            then Valid tt
            else Invalid Cycle_numbers_not_positive
       else Valid tt);
  match cycle_range with
  | Some (start, stop) =>
      if (start <=? 0)%Z || (stop <=? 0)%Z || (stop <? start)%Z
      then Invalid Cycle_range_not_valid
      else Valid tt
  | None => Valid tt
  end.

(** [AnalysisConfig.validate].  The float settings are rationals here;
    a NaN, which the comparisons [<= 0] and [>=] of the code let
    through, is outside them. *)
Definition validate (self : AnalysisConfig) : checked unit :=
  _ ← (if use_tsv (path self) && negb (text_given (tsv_file (path self)))
       then Invalid TSV_file_required else Valid tt);
  _ ← match mode (capacity self) with
      | AUTO_CRATE =>
          if Qle_bool (c_rate (capacity self)) 0
          then Invalid C_rate_not_positive else Valid tt
      | MANUAL =>
          if Qle_bool (manual_capacity (capacity self)) 0
          then Invalid Capacity_not_positive else Valid tt
      end;
  _ ← match cycle self with
      | Some cycle => validate_cycles (cycle_numbers cycle) (cycle_range cycle)
      | None => Valid tt
      end;
  match profile self with
  | Some profile =>
      _ ← (if Qle_bool (Profile.voltage_max profile) (Profile.voltage_min profile)
           then Invalid Voltage_range_not_valid else Valid tt);
      validate_cycles (Profile.cycle_numbers profile) (Profile.cycle_range profile)
  | None => Valid tt
  end.

(** ** Configuration builder (config/builder.py) *)

(** The widgets the builder reads: the state of each check box and the
    text of each field. *)
Record Gui := mkGui {
  chk_cyclepath : bool;
  stepnum_2 : string;
  inicaprate : bool;
  ratetext : string;
  capacitytext : string;
  saveok : bool;
  ect_saveok : bool;
  figsaveok : bool;
  dcirchk : bool;
  pulsedcir : bool;
  stepnum : string;
  tcyclerng : string;
  tcyclerngyhl : string;
  tcyclerngyll : string;
  dcirscale : string;
  CycProfile : bool;
  volrngyhl : string;
  volrngyll : string;
  volrnggap : string;
  smooth : string;
  cutoff : string;
  dqdvscale : string;
  chk_dqdv : bool
}.

(** [AnalysisConfigBuilder()]: the configuration the builder starts
    from. *)
Definition new_builder : AnalysisConfig :=
  mkAnalysisConfig default_PathConfig default_CapacityConfig None None
    default_ExportConfig.

(** [_get_tsv_file]: the placeholder returns the empty text. *)
Definition _get_tsv_file (gui : Gui) : string := EmptyString.

Section Builder.

(** Python's [float(text)]; texts it reads as nan or inf are outside
    the rationals. *)
Variable float_of_str : string -> checked Q.

(** The methods of the builder act on its [config]; each returns the
    configuration it leaves behind, also when it raises. *)

Definition from_gui_widgets (gui : Gui) (config : AnalysisConfig)
  : checked unit * AnalysisConfig :=
  let path' :=
    mkPathConfig
      (chk_cyclepath gui)
      (if chk_cyclepath gui then Some (_get_tsv_file gui) else None)
      (if negb (String.eqb (stepnum_2 gui) EmptyString)
       then Some (map string_of_list_ascii
                    (split_on "010"%char (list_ascii_of_string (stepnum_2 gui))))
       else None)
      None in
  let config := mkAnalysisConfig path' (capacity config) (cycle config)
                  (profile config) (export config) in
  match (if inicaprate gui
         then c ← float_of_str (ratetext gui);
              Valid (mkCapacityConfig AUTO_CRATE c 58)
         else c ← float_of_str (capacitytext gui);
              Valid (mkCapacityConfig MANUAL (1 # 5) c)) with
  | Invalid e => (Invalid e, config)
  | Valid capacity' =>
      let export' :=
        mkExportConfig (saveok gui) (ect_saveok gui) (figsaveok gui) None None None in
      (Valid tt,
       mkAnalysisConfig path' capacity' (cycle config) (profile config) export')
  end.

(** The cycle text of the GUI: a text with a dash and without a space
    is a range, any other text is a list of steps. *)
Definition parse_cycle_input (cycle_input : string)
  : checked (option (list Z) * option (Z * Z)) :=
  if contains_char "-" (list_ascii_of_string cycle_input)
     && negb (contains_char " " (list_ascii_of_string cycle_input))
  then cycle_range ← parse_cycle_range cycle_input;
       Valid (None, Some cycle_range)
  else cycle_numbers ← convert_steplist cycle_input;
       Valid (Some cycle_numbers, None).

Definition with_cycle_config (gui : Gui) (config : AnalysisConfig)
  : checked unit * AnalysisConfig :=
  let dcir_mode :=
    if dcirchk gui then STANDARD
    else if pulsedcir gui then PULSE
    else RSS in
  match (cycles ← parse_cycle_input (stepnum gui);
         x_max ← float_of_str (tcyclerng gui);
         y_max ← float_of_str (tcyclerngyhl gui);
         y_min ← float_of_str (tcyclerngyll gui);
         dcir_scale ← float_of_str (dcirscale gui);
         Valid (mkCycleConfig (fst cycles) (snd cycles) x_max y_max y_min
                  dcir_mode dcir_scale)) with
  | Invalid e => (Invalid e, config)
  | Valid cycle' =>
      (Valid tt,
       mkAnalysisConfig (path config) (capacity config) (Some cycle')
         (profile config) (export config))
  end.

Definition with_profile_config (gui : Gui) (config : AnalysisConfig)
  : checked unit * AnalysisConfig :=
  let layout := if CycProfile gui then BY_CYCLE else BY_CELL in
  match (cycles ← parse_cycle_input (stepnum gui);
         voltage_min ← float_of_str (volrngyhl gui);
         voltage_max ← float_of_str (volrngyll gui);
         voltage_gap ← float_of_str (volrnggap gui);
         smoothing ← int_of_str (list_ascii_of_string (smooth gui));
         cutoff_crate ← float_of_str (cutoff gui);
         dqdv_scale ← float_of_str (dqdvscale gui);
         Valid (Profile.mkProfileConfig (fst cycles) (snd cycles) layout
                  voltage_min voltage_max voltage_gap smoothing cutoff_crate
                  dqdv_scale (chk_dqdv gui))) with
  | Invalid e => (Invalid e, config)
  | Valid profile' =>
      (Valid tt,
       mkAnalysisConfig (path config) (capacity config) (cycle config)
         (Some profile') (export config))
  end.

(** [build]: the configuration is returned when it validates. *)
Definition build (config : AnalysisConfig) : checked AnalysisConfig :=
  _ ← validate config; Valid config.

End Builder.

End Config.


(** ** Analyzer workflow (analysis/base_analyzer.py)

    An analyzer can fail with a ValueError of the configuration and
    analysis layer, or with an exception of the data layer and of the
    lookups it makes. *)

Inductive failure :=
| Refused (what : value_error)
| Raised (e : exn)
| StopIteration
| AttributeError_of_None (attribute : string)
| TypeError_None_not_iterable.

Inductive attempt (X : Type) :=
| Done (x : X)
| Failed (why : failure).
Arguments Done {X} x.
Arguments Failed {X} why.

Definition A (X : Type) : Type := heap -> attempt X * heap.

#[global] Instance A_ret : MRet A := fun X x h => (Done x, h).
#[global] Instance A_bind : MBind A := fun X Y k m h =>
  match m h with
  | (Done x, h') => k x h'
  | (Failed why, h') => (Failed why, h')
  end.

Definition refuse {X} (what : value_error) : A X :=
  fun h => (Failed (Refused what), h).

Definition of_checked {X} (c : checked X) : A X :=
  fun h => (match c with
            | Valid x => Done x
            | Invalid what => Failed (Refused what)
            end, h).

Definition of_M {X} (m : M X) : A X :=
  fun h => match m h with
           | (Ok x, h') => (Done x, h')
           | (Raise e, h') => (Failed (Raised e), h')
           end.

(** [BaseAnalyzer.prepare]. *)
Definition prepare (config : Config.AnalysisConfig) (container : CycleDataContainer)
  : A unit :=
  _ ← of_checked (Config.validate config);
  count ← of_M (__len__ container);
  if (count =? 0)%nat then refuse Container_is_empty else mret tt.

(** [BaseAnalyzer.postprocess]; [results_given] is the truth value of
    [self.results]. *)
Definition postprocess (results_given : bool) : A unit :=
  if results_given then mret tt else refuse Analysis_produced_no_results.

(** ** Individual cycle analyzer (analysis/cycle/individual.py) *)

Module Individual.

Record SummaryRow := mkSummaryRow {
  Cycle : Z;
  Discharge_Capacity : Q;
  Charge_Capacity : Q;
  Efficiency : Q;
  DCIR : Q
}.

(** A row of a voltage profile: the columns TimeMin, Vol and
    Capacity_Normalized. *)
Record ProfileRow := mkProfileRow {
  profile_TimeMin : Q;
  profile_Vol : Q;
  Capacity_Normalized : Q
}.

Record VoltageProfile := mkVoltageProfile {
  discharge : list ProfileRow;
  charge : list ProfileRow
}.

Record Results := mkResults {
  summary : list SummaryRow;
  voltage_profiles : list (Z * VoltageProfile);
  cycle_numbers : list Z;
  statistics : option (pydict (option Q))
}.

(** [IndividualCycleAnalyzer.__init__]: the check on the
    configuration. *)
Definition __init__ (config : Config.AnalysisConfig) : checked unit :=
  match Config.cycle config with
  | Some cycle =>
      if Config.list_given (Config.cycle_numbers cycle) then Valid tt
      else Invalid Requires_cycle_numbers
  | None => Invalid Requires_cycle_numbers
  end.

(** The first loop of [analyze]: one summary row per requested cycle
    that the container has. *)
Fixpoint summarize (cfg : CapacityConfig) (container : CycleDataContainer)
  (cycle_numbers : list Z) : M (list SummaryRow) :=
  match cycle_numbers with
  | [] => mret []
  | cycle_no :: rest =>
      present ← has_cycle container cycle_no;
      if negb present then summarize cfg container rest
      else
        df ← get_cycle container cycle_no;
        content ← read_frame df;
        let capacity_result := _calculate_cycle_capacity cfg content in
        dcir ← lift (calculate_ir content);
        summary_data ← summarize cfg container rest;
        mret (mkSummaryRow cycle_no
                (discharge_capacity capacity_result)
                (charge_capacity capacity_result)
                (efficiency capacity_result) dcir :: summary_data)
  end.

(** A charge or discharge subset with its normalized capacity. *)
Definition profile_of (subset : DataFrame) : list ProfileRow :=
  map (fun rc : Row * Q => mkProfileRow (TimeMin (fst rc)) (Vol (fst rc)) (snd rc))
      (combine (rows subset) (_normalize_capacity subset)).

(** The second loop of [analyze]: the profiles, keyed by cycle
    number. *)
Fixpoint profiles (container : CycleDataContainer) (cycle_numbers : list Z)
  (voltage_profiles : list (Z * VoltageProfile)) : M (list (Z * VoltageProfile)) :=
  match cycle_numbers with
  | [] => mret voltage_profiles
  | cycle_no :: rest =>
      present ← has_cycle container cycle_no;
      if negb present then profiles container rest voltage_profiles
      else
        df ← get_cycle container cycle_no;
        content ← read_frame df;
        let discharge := discharge_subset content in
        let charge := charge_subset content in
        profiles container rest
          (dict_set Z.eqb cycle_no
             (mkVoltageProfile (profile_of discharge) (profile_of charge))
             voltage_profiles)
  end.

Definition analyze (config : Config.AnalysisConfig) (container : CycleDataContainer)
  : A Results :=
  match Config.cycle config with
  | None => fun h => (Failed (AttributeError_of_None "cycle_numbers"), h)
  | Some cycle =>
      match Config.cycle_numbers cycle with
      | None => fun h => (Failed TypeError_None_not_iterable, h)
      | Some cycle_numbers =>
          summary_df ← of_M (summarize (Config.capacity config) container
                               cycle_numbers);
          voltage_profiles ← of_M (profiles container cycle_numbers []);
          mret (mkResults summary_df voltage_profiles cycle_numbers None)
      end
  end.

Section Statistics.

(** [Series.std()], the sample standard deviation: not a rational;
    NaN for fewer than two values. *)
Variable std_of : list Q -> option Q.

(** [IndividualCycleAnalyzer.postprocess]: the column of a summary
    frame built from no row does not exist. *)
Definition postprocess (results : Results) : A Results :=
  _ ← postprocess true;
  let summary_df := summary results in
  match summary_df, last summary_df with
  | first :: _, Some final =>
      let stats : pydict (option Q) :=
        [("mean_discharge_capacity", Some (Qmean (map Discharge_Capacity summary_df)));
         ("mean_charge_capacity", Some (Qmean (map Charge_Capacity summary_df)));
         ("mean_efficiency", Some (Qmean (map Efficiency summary_df)));
         ("mean_dcir", Some (Qmean (map DCIR summary_df)));
         ("std_dcir", std_of (map DCIR summary_df))]%string in
      let stats :=
        if (1 <? length summary_df)%nat then
          let first_capacity := Discharge_Capacity first in
          let last_capacity := Discharge_Capacity final in
          let fade_rate :=
            if Qltb 0 first_capacity
            then (first_capacity - last_capacity) / first_capacity * 100
            else 0 in
          dict_set String.eqb "capacity_fade_rate"%string (Some fade_rate) stats
        else stats in
      mret (mkResults (summary results) (voltage_profiles results)
              (cycle_numbers results) (Some stats))
  | _, _ => of_M (raise KeyError (Key_not_in_dict "Discharge_Capacity"))
  end.

(** [BaseAnalyzer.run] for an analyzer that [__init__] accepted. *)
Definition run (config : Config.AnalysisConfig) (container : CycleDataContainer)
  : A Results :=
  _ ← prepare config container;
  results ← analyze config container;
  postprocess results.

End Statistics.

End Individual.

(** ** Reliability analyzer: the whole run
    (analysis/cycle/reliability.py) *)

Module ReliabilityRun.

Section Run.
Variable p_value_of : list Q -> list Q -> Q.
Variable statistical_metrics_of : list CapacityRow -> pydict Q.

(** The first step of [analyze]: one capacity row per selected cycle
    that the container has. *)
Fixpoint collect (cfg : CapacityConfig) (container : CycleDataContainer)
  (cycle_numbers : list Z) : M (list CapacityRow) :=
  match cycle_numbers with
  | [] => mret []
  | cycle_no :: rest =>
      present ← has_cycle container cycle_no;
      if negb present then collect cfg container rest
      else
        df ← get_cycle container cycle_no;
        content ← read_frame df;
        let capacity_result := _calculate_cycle_capacity cfg content in
        capacity_data ← collect cfg container rest;
        mret (mkCapacityRow cycle_no
                (discharge_capacity capacity_result)
                (charge_capacity capacity_result)
                (efficiency capacity_result) :: capacity_data)
  end.

(** The cycles [analyze] works on: the configured numbers when there
    are some, else every loaded number. *)
Definition selected_cycles (config : Config.AnalysisConfig)
  (container : CycleDataContainer) : M (list Z) :=
  match Config.cycle config with
  | Some cycle =>
      if Config.list_given (Config.cycle_numbers cycle)
      then mret (default [] (Config.cycle_numbers cycle))
      else get_loaded_cycle_numbers container
  | None => get_loaded_cycle_numbers container
  end.

Definition analyze (config : Config.AnalysisConfig) (container : CycleDataContainer)
  : A ReliabilityResults :=
  cycle_numbers ← of_M (selected_cycles config container);
  capacity_df ← of_M (collect (Config.capacity config) container cycle_numbers);
  of_M (lift (analyze_capacity_data p_value_of statistical_metrics_of capacity_df)).

(** The grade given by [postprocess]. *)
Definition grade_of (relative_fade capacity_cv : Q) : string :=
  if Qltb relative_fade 5 && Qltb capacity_cv 2 then "Excellent"
  else if Qltb relative_fade 10 && Qltb capacity_cv 5 then "Good"
  else if Qltb relative_fade 20 && Qltb capacity_cv 10 then "Fair"
  else "Poor".

Definition postprocess (results : ReliabilityResults) : A ReliabilityResults :=
  _ ← postprocess true;
  relative_fade ← of_M (lift (getitem (fade_analysis results) "relative_fade"));
  capacity_cv ← of_M (lift (getitem (statistical_metrics results) "capacity_cv"));
  mret (mkResults (capacity_data results) (fade_analysis results)
          (statistical_metrics results) (lifecycle_prediction results)
          (Some (grade_of relative_fade capacity_cv))).

Definition run (config : Config.AnalysisConfig) (container : CycleDataContainer)
  : A ReliabilityResults :=
  _ ← prepare config container;
  results ← analyze config container;
  postprocess results.

End Run.

End ReliabilityRun.

(** ** Linked analyzer: construction (analysis/cycle/linked.py)

    [LinkedCycleAnalyzer.__init__] takes the first container of the
    dict, then checks the configuration; it returns that first
    container. *)
Definition LinkedCycleAnalyzer_init (config : Config.AnalysisConfig)
  (containers : pydict CycleDataContainer) : attempt CycleDataContainer :=
  match containers with
  | [] => Failed StopIteration
  | (_, first_container) :: _ =>
      if negb (Config.use_tsv (Config.path config))
         || negb (Config.text_given (Config.tsv_file (Config.path config)))
      then Failed (Refused Requires_TSV_file)
      else Done first_container
  end.

(** ** Rows an analyzer derives from a stored table *)

Definition capacity_row (cfg : CapacityConfig) (cycle_no : Z) (df : DataFrame)
  : CapacityRow :=
  let capacity_result := _calculate_cycle_capacity cfg df in
  mkCapacityRow cycle_no (discharge_capacity capacity_result)
    (charge_capacity capacity_result) (efficiency capacity_result).

Definition summary_row (cfg : CapacityConfig) (cycle_no : Z) (df : DataFrame)
  (dcir : Q) : Individual.SummaryRow :=
  let capacity_result := _calculate_cycle_capacity cfg df in
  Individual.mkSummaryRow cycle_no (discharge_capacity capacity_result)
    (charge_capacity capacity_result) (efficiency capacity_result) dcir.

Definition voltage_profile_of (df : DataFrame) : Individual.VoltageProfile :=
  Individual.mkVoltageProfile
    (Individual.profile_of (discharge_subset df))
    (Individual.profile_of (charge_subset df)).

(** The grades of the reliability analyzer, best first. *)
Definition grade_rank (grade : string) : nat :=
  if String.eqb grade "Excellent" then 0
  else if String.eqb grade "Good" then 1
  else if String.eqb grade "Fair" then 2
  else 3.

(** A configuration without manifest that asks for the cycles 1 and 2,
    with a manual capacity of 3000 mAh. *)
Definition sample_config : Config.AnalysisConfig :=
  Config.mkAnalysisConfig
    (Config.mkPathConfig false None None None)
    (mkCapacityConfig MANUAL (1 # 5) 3000)
    (Some (Config.mkCycleConfig (Some [1; 2]%Z) None 0 (11 # 10) (65 # 100)
             Config.RSS 0))
    None Config.default_ExportConfig.

(* ================================================================== *)
(** * Properties *)
(* ================================================================== *)

(** ** Rationals *)

Lemma Qltb_lt a b : Qltb a b = true <-> a < b.
Proof.
  unfold Qltb. rewrite negb_true_iff.
  split; intros H.
  - apply Qnot_le_lt. intros Hle. apply Qle_bool_iff in Hle. congruence.
  - destruct (Qle_bool b a) eqn:E; [|reflexivity].
    apply Qle_bool_iff in E. exfalso. apply (Qlt_not_le _ _ H E).
Qed.

Lemma Qltb_ge a b : Qltb a b = false <-> b <= a.
Proof.
  unfold Qltb. rewrite negb_false_iff. apply Qle_bool_iff.
Qed.

Lemma Qsum_app l1 l2 : Qsum (l1 ++ l2) == Qsum l1 + Qsum l2.
Proof.
  induction l1 as [|x l1 IH]; simpl.
  - lra.
  - rewrite IH. lra.
Qed.

(** ** C1: per-cycle capacity *)

Lemma capacity_sum_from (sel : Row -> bool) (term : Q -> Q) prev (table : list Row) :
  Qsum (map (fun rt : Row * Q => term (Crate (fst rt) * snd rt))
          (filter (fun rt : Row * Q => sel (fst rt))
             (combine table (fillna 0 (diff_from prev (map TimeMin table))))))
  == table_integral_from sel term prev table.
Proof.
  revert prev. induction table as [|r rest IH]; intros prev; simpl.
  - reflexivity.
  - rewrite filter_cons. simpl. destruct (sel r); simpl.
    + rewrite IH. reflexivity.
    + rewrite IH. lra.
Qed.

Lemma capacity_sum (sel : Row -> bool) (term : Q -> Q) (df : DataFrame) :
  Qsum (map (fun rt : Row * Q => term (Crate (fst rt) * snd rt))
          (filter (fun rt : Row * Q => sel (fst rt)) (with_TimeDiff df)))
  == table_integral sel term (rows df).
Proof.
  unfold with_TimeDiff. destruct (rows df) as [|r rest]; simpl.
  - reflexivity.
  - rewrite filter_cons. simpl. destruct (sel r); simpl.
    + rewrite capacity_sum_from. reflexivity.
    + rewrite capacity_sum_from. lra.
Qed.

(** The discharge rows of [C1_table] follow a charge row.  The code
    charges the minute between the charge row and the first discharge
    row to the discharge capacity (2 x 58), the subset-wise integral of
    the specification does not (1 x 58). *)
Lemma C1_subset_integral_counterexample :
  ~ discharge_capacity (_calculate_cycle_capacity C1_config C1_table)
    == discharge_capacity (spec_cycle_capacity C1_config C1_table).
Proof. vm_compute. discriminate. Qed.

(** C1 (amended): [_calculate_cycle_capacity] splits the rows into the
    discharge rows (Crate < 0) and the charge rows (Crate > 0) and
    returns, for each, the sum over the selected rows of
    |current x dt| (discharge) or current x dt (charge), where dt is the
    time elapsed since the preceding row of the whole table (0 for the
    table's first row), times the capacity basis: the manual capacity
    in manual mode, 58 otherwise.  The efficiency is discharge / charge
    x 100 when the charge capacity is positive, and 0 otherwise. *)
Theorem C1_capacity_integrates_whole_table (cfg : CapacityConfig) (df : DataFrame) :
  let res := _calculate_cycle_capacity cfg df in
  discharge_capacity res
    == table_integral is_discharge Qabs (rows df) * capacity_base cfg
  /\ charge_capacity res
    == table_integral is_charge (fun x => x) (rows df) * capacity_base cfg
  /\ capacity_base cfg
     = match mode cfg with MANUAL => manual_capacity cfg | AUTO_CRATE => 58 end
  /\ (0 < charge_capacity res ->
      efficiency res == discharge_capacity res / charge_capacity res * 100)
  /\ (charge_capacity res <= 0 -> efficiency res == 0).
Proof.
  cbv zeta. unfold _calculate_cycle_capacity; simpl.
  repeat split.
  - rewrite (capacity_sum is_discharge Qabs). reflexivity.
  - rewrite (capacity_sum is_charge (fun x => x)). reflexivity.
  - intros Hpos. apply Qltb_lt in Hpos. rewrite Hpos. reflexivity.
  - intros Hle. apply Qltb_ge in Hle. rewrite Hle. reflexivity.
Qed.

Lemma C1_capacity_witness :
  let res := _calculate_cycle_capacity C1_config
               (range_index [mkRow 0 4 1; mkRow 1 4 1; mkRow 2 4 (-1)]) in
  0 < charge_capacity res /\ efficiency res == 100.
Proof.
  pose proof (C1_capacity_integrates_whole_table C1_config
                (range_index [mkRow 0 4 1; mkRow 1 4 1; mkRow 2 4 (-1)])) as H.
  cbv zeta in H. destruct H as (_ & _ & _ & Heff & _).
  assert (Hpos : 0 < charge_capacity (_calculate_cycle_capacity C1_config
                (range_index [mkRow 0 4 1; mkRow 1 4 1; mkRow 2 4 (-1)]))).
  { vm_compute. reflexivity. }
  cbv zeta. split; [exact Hpos|].
  rewrite (Heff Hpos). vm_compute. reflexivity.
Defined.

(** ** C7: normalized capacity curves *)

Lemma nondecreasing_from_weaken p q l :
  p <= q -> nondecreasing_from q l -> nondecreasing_from p l.
Proof.
  destruct l as [|x l]; simpl; [tauto|].
  intros Hpq [Hqx Hl]. split; [lra|exact Hl].
Qed.

Lemma nondecreasing_from_nondecreasing p l :
  nondecreasing_from p l -> nondecreasing l.
Proof. destruct l; simpl; tauto. Qed.

Lemma time_sorted_from_subset (sel : Row -> bool) p (df : DataFrame) :
  nondecreasing_from p (map TimeMin (rows df)) ->
  nondecreasing_from p
    (map TimeMin (rows (filter (fun lr : Z * Row => sel (snd lr)) df))).
Proof.
  unfold rows. revert p.
  induction df as [|[l r] df IH]; intros p Hs; [exact I|].
  rewrite filter_cons. cbn [map fst snd nondecreasing_from] in Hs |- *.
  destruct Hs as [Hp Hs].
  destruct (decide (sel r)).
  - cbn [map fst snd nondecreasing_from]. split; [exact Hp|]. apply IH, Hs.
  - apply IH. eapply nondecreasing_from_weaken; eauto.
Qed.

Lemma time_sorted_subset (sel : Row -> bool) (df : DataFrame) :
  time_sorted (rows df) ->
  time_sorted (rows (filter (fun lr : Z * Row => sel (snd lr)) df)).
Proof.
  unfold time_sorted, rows.
  induction df as [|[l r] df IH]; intros Hs; [exact I|].
  rewrite filter_cons. cbn [map fst snd nondecreasing] in Hs |- *.
  destruct (decide (sel r)).
  - cbn [map fst snd nondecreasing]. apply time_sorted_from_subset, Hs.
  - apply IH. eapply nondecreasing_from_nondecreasing; eauto.
Qed.

Lemma diff_from_nonneg p ts :
  nondecreasing_from p ts -> Forall (Qle 0) (fillna 0 (diff_from p ts)).
Proof.
  revert p. induction ts as [|t ts IH]; intros p; simpl.
  - constructor.
  - intros [Hp Hs]. constructor; [lra|]. apply IH, Hs.
Qed.

Lemma TimeDiff_nonneg ts :
  nondecreasing ts -> Forall (Qle 0) (fillna 0 (diff ts)).
Proof.
  destruct ts as [|t ts]; simpl; intros Hs.
  - constructor.
  - constructor; [lra|]. apply diff_from_nonneg, Hs.
Qed.

Lemma terms_nonneg (cs dts : list Q) :
  Forall (Qle 0) dts ->
  Forall (Qle 0) (map (fun ct : Q * Q => Qabs (fst ct) * snd ct) (combine cs dts)).
Proof.
  intros H. revert cs. induction H as [|d dts Hd _ IH]; intros [|c cs]; simpl;
    try constructor.
  - apply Qmult_le_0_compat; [apply Qabs_nonneg|exact Hd].
  - apply IH.
Qed.

Lemma cumsum_from_nondecreasing acc terms :
  Forall (Qle 0) terms -> nondecreasing_from acc (cumsum_from acc terms).
Proof.
  intros H. revert acc. induction H as [|x terms Hx _ IH]; intros acc; simpl.
  - exact I.
  - split; [lra|]. apply IH.
Qed.

Lemma cumsum_from_last acc terms v :
  last (cumsum_from acc terms) = Some v -> v == acc + Qsum terms.
Proof.
  revert acc. induction terms as [|x terms IH]; intros acc; simpl.
  - discriminate.
  - destruct terms as [|y terms].
    + simpl. intros [= <-]. lra.
    + intros H. apply IH in H. simpl in H |- *. lra.
Qed.

Lemma fold_max_nondecreasing x l :
  nondecreasing_from x l -> fold_left Qmax2 l x = default x (last l).
Proof.
  revert x. induction l as [|y l IH]; intros x; simpl.
  - reflexivity.
  - intros [Hxy Hl]. unfold Qmax2 at 2.
    apply Qle_bool_iff in Hxy. rewrite Hxy. rewrite (IH y Hl).
    rewrite (last_cons y l). destruct (last l); reflexivity.
Qed.

Lemma series_max_nondecreasing l :
  nondecreasing l -> series_max l = last l.
Proof.
  destruct l as [|x l]; simpl; [reflexivity|].
  intros H. rewrite (fold_max_nondecreasing _ _ H).
  rewrite (last_cons x l). destruct (last l); reflexivity.
Qed.

Lemma subset_terms_sum_from p (rs : list Row) :
  Qsum (map (fun ct : Q * Q => Qabs (fst ct) * snd ct)
          (combine (map Crate rs) (fillna 0 (diff_from p (map TimeMin rs)))))
  == spec_integral_from p rs.
Proof.
  revert p. induction rs as [|r rs IH]; intros p; simpl.
  - reflexivity.
  - rewrite IH. reflexivity.
Qed.

Lemma subset_terms_sum (rs : list Row) :
  Qsum (map (fun ct : Q * Q => Qabs (fst ct) * snd ct)
          (combine (map Crate rs) (fillna 0 (diff (map TimeMin rs)))))
  == spec_integral rs.
Proof.
  destruct rs as [|r rs]; simpl.
  - reflexivity.
  - rewrite subset_terms_sum_from. reflexivity.
Qed.

Lemma nondecreasing_from_scale m p l :
  0 < m -> nondecreasing_from p l ->
  nondecreasing_from (p / m * 100) (map (fun c => c / m * 100) l).
Proof.
  intros Hm. revert p. induction l as [|x l IH]; intros p; simpl; [tauto|].
  intros [Hpx Hl]. split; [|apply IH, Hl].
  apply Qmult_le_compat_r; [|lra].
  apply Qmult_le_compat_r; [exact Hpx|].
  apply Qlt_le_weak, Qinv_lt_0_compat, Hm.
Qed.

Lemma nondecreasing_scale m l :
  0 < m -> nondecreasing l -> nondecreasing (map (fun c => c / m * 100) l).
Proof.
  destruct l as [|x l]; simpl; [tauto|].
  intros Hm H. apply nondecreasing_from_scale; assumption.
Qed.

Lemma nondecreasing_zeros {A} (l : list A) : nondecreasing (map (fun _ => 0) l).
Proof.
  destruct l as [|a l]; simpl; [exact I|].
  induction l as [|b l IH]; simpl; [exact I|].
  split; [lra|exact IH].
Qed.

Lemma last_map {A B} (f : A -> B) (l : list A) :
  last (map f l) = option_map f (last l).
Proof.
  induction l as [|x l IH]; [reflexivity|].
  simpl map. rewrite !last_cons, IH. destruct (last l); reflexivity.
Qed.

Lemma normalize_capacity_sorted (sub : DataFrame) :
  time_sorted (rows sub) ->
  nondecreasing (_normalize_capacity sub)
  /\ (forall x, head (_normalize_capacity sub) = Some x -> 0 <= x)
  /\ (sub <> [] -> 0 < spec_integral (rows sub) ->
      exists x, last (_normalize_capacity sub) = Some x /\ x == 100)
  /\ (sub = [] -> _normalize_capacity sub = []).
Proof.
  intros Hsorted.
  destruct sub as [|lr0 rest].
  { repeat split; try (intros; exact I); try reflexivity.
    - intros x; discriminate.
    - intros Hne; contradiction. }
  unfold _normalize_capacity.
  change (length (lr0 :: rest) =? 0)%nat with false. cbv iota.
  set (terms := map (fun ct : Q * Q => Qabs (fst ct) * snd ct)
                  (combine (map Crate (rows (lr0 :: rest)))
                     (fillna 0 (diff (map TimeMin (rows (lr0 :: rest))))))).
  assert (Hterms : Forall (Qle 0) terms).
  { apply terms_nonneg, TimeDiff_nonneg, Hsorted. }
  assert (Hsum : Qsum terms == spec_integral (rows (lr0 :: rest))).
  { apply subset_terms_sum. }
  assert (Hcum0 : nondecreasing_from 0 (cumsum terms)).
  { apply cumsum_from_nondecreasing, Hterms. }
  assert (Hcum : nondecreasing (cumsum terms)).
  { eapply nondecreasing_from_nondecreasing, Hcum0. }
  assert (Hne : exists c cs, cumsum terms = c :: cs).
  { subst terms. destruct lr0 as [l0 r0]. simpl. eauto. }
  destruct Hne as (c & cs & Hc).
  rewrite (series_max_nondecreasing _ Hcum).
  destruct (last (cumsum terms)) as [m|] eqn:Hlast.
  2:{ rewrite Hc, last_cons in Hlast. destruct (last cs); discriminate. }
  assert (Hm : m == spec_integral (rows (lr0 :: rest))).
  { apply cumsum_from_last in Hlast. rewrite Hlast, Hsum. lra. }
  destruct (Qltb 0 m) eqn:Hpos.
  - apply Qltb_lt in Hpos.
    split; [apply nondecreasing_scale; assumption|].
    split; [|split].
    + rewrite Hc in Hcum0 |- *. simpl. intros x [= <-].
      destruct Hcum0 as [H0c _].
      apply Qmult_le_0_compat; [|lra].
      apply Qmult_le_0_compat; [exact H0c|].
      apply Qlt_le_weak, Qinv_lt_0_compat, Hpos.
    + intros _ _. exists (m / m * 100). split.
      * rewrite last_map, Hlast. reflexivity.
      * field. lra.
    + discriminate.
  - apply Qltb_ge in Hpos.
    split; [apply nondecreasing_zeros|].
    split; [|split].
    + simpl. intros x [= <-]. lra.
    + intros _ Hint. rewrite <- Hm in Hint. lra.
    + discriminate.
Qed.

(** C7: for a charge or discharge subset of a cycle table sorted by
    elapsed time, the normalized capacity curve is non-decreasing and
    starts at a value >= 0; its final value is 100 when the subset is
    non-empty and its cumulative current-time integral is positive; an
    empty subset yields an empty curve. *)
Theorem C7_normalized_capacity_curve (df subset : DataFrame) :
  time_sorted (rows df) ->
  subset = discharge_subset df \/ subset = charge_subset df ->
  nondecreasing (_normalize_capacity subset)
  /\ (forall x, head (_normalize_capacity subset) = Some x -> 0 <= x)
  /\ (subset <> [] -> 0 < spec_integral (rows subset) ->
      exists x, last (_normalize_capacity subset) = Some x /\ x == 100)
  /\ (subset = [] -> _normalize_capacity subset = []).
Proof.
  intros Hsorted Hsub.
  apply normalize_capacity_sorted.
  destruct Hsub as [-> | ->].
  - apply (time_sorted_subset is_discharge), Hsorted.
  - apply (time_sorted_subset is_charge), Hsorted.
Qed.

Lemma C7_normalized_capacity_curve_witness :
  time_sorted (rows C7_table)
  /\ nondecreasing (_normalize_capacity (discharge_subset C7_table))
  /\ exists x, last (_normalize_capacity (discharge_subset C7_table)) = Some x
               /\ x == 100.
Proof.
  assert (Hsorted : time_sorted (rows C7_table)).
  { vm_compute. intuition discriminate. }
  destruct (C7_normalized_capacity_curve C7_table (discharge_subset C7_table)
              Hsorted (or_introl eq_refl)) as (Hnd & _ & Hlast & _).
  split; [exact Hsorted|]. split; [exact Hnd|].
  apply Hlast.
  - discriminate.
  - vm_compute. reflexivity.
Defined.

(** ** C5 and C10: lifecycle prediction *)

Lemma Qsum_zero (l : list Q) : Forall (fun x => x == 0) l -> Qsum l == 0.
Proof.
  induction 1 as [|x l Hx _ IH]; simpl; [reflexivity|].
  rewrite Hx, IH. reflexivity.
Qed.

Lemma Qsum_const (c : Q) (l : list Q) :
  Forall (fun x => x == c) l -> Qsum l == inject_Z (Z.of_nat (length l)) * c.
Proof.
  induction 1 as [|x l Hx _ IH].
  - change (0 == 0 * c). ring.
  - cbn [Qsum fold_right length]. fold (Qsum l). rewrite Hx, IH.
    rewrite Nat2Z.inj_succ. unfold Z.succ. rewrite inject_Z_plus. ring.
Qed.

Lemma length_pos_inject {A} (l : list A) :
  (0 < length l)%nat -> ~ inject_Z (Z.of_nat (length l)) == 0.
Proof.
  intros Hlen Heq.
  assert (H : (Z.of_nat (length l) = 0)%Z).
  { unfold Qeq in Heq. simpl in Heq. lia. }
  lia.
Qed.

Lemma Qmean_const (c : Q) (l : list Q) :
  (0 < length l)%nat -> Forall (fun x => x == c) l -> Qmean l == c.
Proof.
  intros Hlen Hall. unfold Qmean. rewrite (Qsum_const c l Hall).
  field. apply length_pos_inject, Hlen.
Qed.

Lemma centered_products (xm ym : Q) (x y : list Q) :
  map (fun p : Q * Q => fst p * snd p)
      (combine (map (fun xi => xi - xm) x) (map (fun yi => yi - ym) y))
  = map (fun p : Q * Q => (fst p - xm) * (snd p - ym)) (combine x y).
Proof.
  revert y. induction x as [|a x IH]; intros [|b y]; simpl; try reflexivity.
  rewrite IH. reflexivity.
Qed.

Lemma centered_squares (xm : Q) (x : list Q) :
  map (fun d : Q => d * d) (map (fun xi => xi - xm) x)
  = map (fun xi => (xi - xm) * (xi - xm)) x.
Proof. rewrite map_map. reflexivity. Qed.

Lemma ratio_of_means (a b n : Q) : ~ n == 0 -> (a / n) / (b / n) == a / b.
Proof.
  intros Hn. unfold Qdiv. rewrite Qinv_mult_distr, Qinv_involutive.
  assert (E : n * / n == 1) by (apply Qmult_inv_r; exact Hn).
  transitivity (a * / b * (n * / n)); [ring|]. rewrite E. ring.
Qed.

Lemma length_combine_same {A B} (x : list A) (y : list B) :
  length x = length y -> length (combine x y) = length x.
Proof. intros H. rewrite length_combine. lia. Qed.

Section Fit.
Variable p_value_of : list Q -> list Q -> Q.

Lemma linregress_slope (x y : list Q) fit :
  length x = length y -> (0 < length x)%nat ->
  linregress p_value_of x y = Ok fit ->
  lr_slope fit == least_squares_slope x y.
Proof using Type.
  intros Hlen Hpos. unfold linregress.
  destruct (all_identical x && (1 <? length x)%nat); [discriminate|].
  intros [= <-]. cbn [lr_slope]. unfold least_squares_slope.
  rewrite centered_products, centered_squares.
  generalize (Qmean x) as xm, (Qmean y) as ym. intros xm ym.
  unfold Qmean.
  rewrite !List.length_map, (length_combine_same x y Hlen).
  apply ratio_of_means, length_pos_inject, Hpos.
Qed.

Lemma least_squares_slope_flat (c : Q) (x y : list Q) :
  length x = length y -> (0 < length x)%nat ->
  Forall (fun yi => yi == c) y ->
  least_squares_slope x y == 0.
Proof using Type.
  intros Hlen Hpos Hflat. unfold least_squares_slope.
  assert (Hmean : Qmean y == c) by (apply Qmean_const; [lia|exact Hflat]).
  assert (Hzero : Qsum (map (fun p : Q * Q => (fst p - Qmean x) * (snd p - Qmean y))
                          (combine x y)) == 0).
  { apply Qsum_zero. revert Hmean.
    generalize (Qmean x) as xm, (Qmean y) as ym. intros xm ym Hmean.
    clear Hlen Hpos. revert x.
    induction Hflat as [|b y Hb _ IH]; intros [|a x]; simpl; try constructor.
    - cbv beta in Hb |- *. cbn [fst snd].
      assert (E : b - ym == 0) by (rewrite Hb, Hmean; ring).
      rewrite E. ring.
    - apply IH. }
  rewrite Hzero. unfold Qdiv. ring.
Qed.

End Fit.

Lemma py_int_nonneg (x : Q) :
  0 <= x -> inject_Z (py_int x) <= x /\ x < inject_Z (py_int x) + 1.
Proof.
  intros Hx.
  assert (E : py_int x = Qfloor x).
  { destruct x as [n d]. unfold py_int, Qfloor. simpl.
    apply Z.quot_div_nonneg; [|lia].
    unfold Qle in Hx. simpl in Hx. lia. }
  rewrite E. split; [apply Qfloor_le|].
  pose proof (Qlt_floor x) as H. rewrite inject_Z_plus in H. exact H.
Qed.

Lemma predict_lifecycle_degenerate capacity_df (fade : pydict Q) initial slope :
  getitem fade "initial_capacity" = Ok initial ->
  getitem fade "linear_slope" = Ok slope ->
  initial <= 0 \/ 0 <= slope ->
  _predict_lifecycle capacity_df fade = Ok zero_prediction.
Proof.
  intros Hi Hs Hdeg. unfold _predict_lifecycle.
  rewrite Hi. cbn [mbind result_bind rbind]. rewrite Hs. cbn [mbind result_bind rbind].
  destruct Hdeg as [H|H]; apply Qle_bool_iff in H; rewrite H.
  - reflexivity.
  - rewrite orb_true_r. reflexivity.
Qed.

Lemma predict_lifecycle_regular capacity_df (fade : pydict Q) initial slope final :
  getitem fade "initial_capacity" = Ok initial ->
  getitem fade "linear_slope" = Ok slope ->
  last capacity_df = Some final ->
  0 < initial -> slope < 0 ->
  _predict_lifecycle capacity_df fade
  = Ok [("eol_capacity", initial * (4 # 5));
        ("predicted_eol_cycle",
         inject_Z (py_int ((initial * (4 # 5) - initial) / slope)));
        ("current_cycle", inject_Z (Cycle final));
        ("remaining_cycles",
         inject_Z (Z.max 0 (py_int ((initial * (4 # 5) - initial) / slope)
                            - Cycle final)))]%string.
Proof.
  intros Hi Hs Hlast Hpos Hneg. unfold _predict_lifecycle.
  rewrite Hi. cbn [mbind result_bind rbind]. rewrite Hs. cbn [mbind result_bind rbind].
  assert (H1 : Qle_bool initial 0 = false).
  { destruct (Qle_bool initial 0) eqn:E; [|reflexivity].
    apply Qle_bool_iff in E. lra. }
  assert (H2 : Qle_bool 0 slope = false).
  { destruct (Qle_bool 0 slope) eqn:E; [|reflexivity].
    apply Qle_bool_iff in E. lra. }
  rewrite H1, H2, Hlast. reflexivity.
Qed.

(** C5 (amended): for a capacity series of at least two cycles that the
    fade analysis accepts, the lifecycle prediction takes the initial
    capacity of the first cycle and the slope of the least-squares line;
    it is all zero when the initial capacity is <= 0 or the slope is
    >= 0, in particular for a flat series; otherwise the end-of-life
    capacity is 80% of the initial capacity, the predicted EOL cycle is
    (eol_capacity - initial) / slope truncated to an integer, and the
    remaining cycles are max(0, predicted EOL cycle - last observed
    cycle). *)
Theorem C5_lifecycle_prediction (p_value_of : list Q -> list Q -> Q)
  (capacity_df : list CapacityRow) (fade : pydict Q) :
  (2 <= length capacity_df)%nat ->
  _analyze_capacity_fade p_value_of capacity_df = Ok fade ->
  exists first final slope,
    head capacity_df = Some first
    /\ last capacity_df = Some final
    /\ getitem fade "initial_capacity" = Ok (Discharge_Capacity first)
    /\ getitem fade "linear_slope" = Ok slope
    /\ slope == least_squares_slope (map (fun r => inject_Z (Cycle r)) capacity_df)
                  (map Discharge_Capacity capacity_df)
    /\ (Discharge_Capacity first <= 0 \/ 0 <= slope ->
        _predict_lifecycle capacity_df fade = Ok zero_prediction)
    /\ (Forall (fun r => Discharge_Capacity r == Discharge_Capacity first) capacity_df ->
        _predict_lifecycle capacity_df fade = Ok zero_prediction)
    /\ (0 < Discharge_Capacity first -> slope < 0 ->
        let eol_capacity := Discharge_Capacity first * (4 # 5) in
        let exact_cycle := (eol_capacity - Discharge_Capacity first) / slope in
        let predicted_eol_cycle := py_int exact_cycle in
        _predict_lifecycle capacity_df fade
        = Ok [("eol_capacity", eol_capacity);
              ("predicted_eol_cycle", inject_Z predicted_eol_cycle);
              ("current_cycle", inject_Z (Cycle final));
              ("remaining_cycles",
               inject_Z (Z.max 0 (predicted_eol_cycle - Cycle final)))]%string
        /\ inject_Z predicted_eol_cycle <= exact_cycle
        /\ exact_cycle < inject_Z predicted_eol_cycle + 1).
Proof.
  intros Hlen Hfade. unfold _analyze_capacity_fade in Hfade.
  assert (Hlt : (length capacity_df <? 2)%nat = false) by (apply Nat.ltb_ge; lia).
  rewrite Hlt in Hfade.
  destruct capacity_df as [|first rest]; [simpl in Hlen; lia|].
  destruct (last (first :: rest)) as [final|] eqn:Hlast; [|discriminate].
  destruct (linregress p_value_of (map (fun r => inject_Z (Cycle r)) (first :: rest))
              (map Discharge_Capacity (first :: rest))) as [fit|e] eqn:Hfit;
    [|discriminate].
  cbn [mbind result_bind rbind] in Hfade. injection Hfade as <-.
  assert (Hslope : lr_slope fit
            == least_squares_slope (map (fun r => inject_Z (Cycle r)) (first :: rest))
                 (map Discharge_Capacity (first :: rest))).
  { apply (linregress_slope p_value_of); [|simpl; lia|exact Hfit].
    rewrite !List.length_map. reflexivity. }
  exists first, final, (lr_slope fit).
  split; [reflexivity|]. split; [reflexivity|].
  split; [reflexivity|]. split; [reflexivity|].
  split; [exact Hslope|].
  split; [|split].
  - intros Hdeg. eapply predict_lifecycle_degenerate; [reflexivity|reflexivity|exact Hdeg].
  - intros Hflat. eapply predict_lifecycle_degenerate; [reflexivity|reflexivity|].
    right. rewrite Hslope.
    rewrite (least_squares_slope_flat (Discharge_Capacity first)).
    + apply Qle_refl.
    + rewrite !List.length_map. reflexivity.
    + simpl; lia.
    + apply Forall_map. exact Hflat.
  - intros Hpos Hneg. cbv zeta. split.
    + eapply predict_lifecycle_regular; try reflexivity; assumption.
    + apply py_int_nonneg.
      assert (H : (Discharge_Capacity first * (4 # 5) - Discharge_Capacity first)
                  / lr_slope fit
                  == (Discharge_Capacity first * (1 # 5)) * / (- lr_slope fit)).
      { field. lra. }
      rewrite H. apply Qmult_le_0_compat; [lra|].
      apply Qlt_le_weak, Qinv_lt_0_compat. lra.
Qed.

(** Capacities 100 and 97 over cycles 1 and 2: the fitted slope is -3,
    the line reaches 80 after 20/3 cycles, and the code reports 6. *)
Lemma C5_truncation_counterexample :
  exists fade initial slope pred v,
    _analyze_capacity_fade (fun _ _ => 0) C5_series = Ok fade
    /\ getitem fade "initial_capacity" = Ok initial
    /\ getitem fade "linear_slope" = Ok slope
    /\ _predict_lifecycle C5_series fade = Ok pred
    /\ getitem pred "predicted_eol_cycle" = Ok v
    /\ v == 6
    /\ spec_predicted_eol_cycle (spec_predict_lifecycle initial slope 2) == 20 # 3
    /\ ~ v == spec_predicted_eol_cycle (spec_predict_lifecycle initial slope 2).
Proof.
  do 5 eexists.
  split; [reflexivity|]. split; [reflexivity|]. split; [reflexivity|].
  split; [reflexivity|]. split; [reflexivity|].
  split; [vm_compute; reflexivity|].
  split; [vm_compute; reflexivity|].
  vm_compute. discriminate.
Qed.

Lemma C5_lifecycle_prediction_witness :
  (2 <= length C5_series)%nat
  /\ exists fade slope,
       _analyze_capacity_fade (fun _ _ => 0) C5_series = Ok fade
       /\ getitem fade "linear_slope" = Ok slope
       /\ slope == -3
       /\ _predict_lifecycle C5_series fade
          = Ok [("eol_capacity", 100 * (4 # 5));
                ("predicted_eol_cycle",
                 inject_Z (py_int ((100 * (4 # 5) - 100) / slope)));
                ("current_cycle", inject_Z 2);
                ("remaining_cycles",
                 inject_Z (Z.max 0 (py_int ((100 * (4 # 5) - 100) / slope) - 2)))]%string.
Proof.
  assert (Hlen : (2 <= length C5_series)%nat) by (simpl; lia).
  split; [exact Hlen|].
  destruct (_analyze_capacity_fade (fun _ _ => 0) C5_series) as [fade|e] eqn:Hfade;
    [|discriminate].
  destruct (C5_lifecycle_prediction (fun _ _ => 0) C5_series fade Hlen Hfade)
    as (first & final & slope & Hfirst & Hlast & Hinit & Hs & Hslope & _ & _ & Hreg).
  injection Hfirst as <-. injection Hlast as <-.
  assert (Hslope' : slope == -3).
  { rewrite Hslope. vm_compute. reflexivity. }
  exists fade, slope.
  split; [reflexivity|]. split; [exact Hs|]. split; [exact Hslope'|].
  apply Hreg.
  - vm_compute. reflexivity.
  - rewrite Hslope'. vm_compute. reflexivity.
Defined.






(** On a flat series the whole analysis succeeds and the report then
    fails on the missing key. *)
Example flat_series_report_raises :
  exists results,
    analyze_capacity_data (fun _ _ => 1) C10_metrics C10_flat_series = Ok results
    /\ get_summary_report results
       = Raise (Exn KeyError (Key_not_in_dict "current_cycle")).
Proof. eexists. split; reflexivity. Qed.

(** ** C6: pulse-based internal resistance *)

(** The loader drops the row without voltage and keeps the labels of
    the others: label 12 is gone.  The pulse starts at label 2, and the
    code asks for label 2 + 10. *)
Theorem C6_calculate_ir_label_gap :
  exists df,
    PNE_load_cycle C6_files "/data/cell" 1 = Ok df
    /\ labels df = seqZ 0 12 ++ seqZ 13 12
    /\ calculate_ir df = Raise (Exn KeyError (Label_not_in_index 12))
    /\ spec_calculate_ir (rows df) == 100.
Proof.
  eexists. split; [vm_compute; reflexivity|].
  split; [vm_compute; reflexivity|].
  split; vm_compute; reflexivity.
Qed.

(** On a frame with the default index the code agrees with the
    specification. *)

Lemma pulse_points_range_index (P : option Q -> bool) j (rs : list Row)
  (cd : list (option Q)) :
  map fst (filter (fun lc : Z * option Q => P (snd lc))
             (combine (labels (relabel_from (Z.of_nat j) rs)) cd))
  = map Z.of_nat
      (map fst (filter (fun ic : nat * option Q => P (snd ic))
                  (combine (seq j (length rs)) cd))).
Proof.
  revert j cd. induction rs as [|r rs IH]; intros j cd; [reflexivity|].
  destruct cd as [|c cd]; [reflexivity|].
  cbn [relabel_from labels map fst combine length seq].
  rewrite !filter_cons. cbn [snd].
  replace (Z.of_nat j + 1)%Z with (Z.of_nat (S j)) by lia.
  specialize (IH (S j) cd). unfold labels in IH.
  destruct (decide (P c)); cbn [map fst]; rewrite IH; reflexivity.
Qed.

Lemma candidates_in_range (P : option Q -> bool) (l : list nat)
  (cd : list (option Q)) i :
  In i (map fst (filter (fun ic : nat * option Q => P (snd ic)) (combine l cd))) ->
  In i l.
Proof.
  revert cd. induction l as [|a l IH]; intros [|c cd]; simpl; try tauto.
  rewrite filter_cons. destruct (decide (P (a, c).2)); simpl.
  - intros [->|H]; [tauto|]. right. eapply IH, H.
  - intros H. right. eapply IH, H.
Qed.

Lemma loc_row_below k (rs : list Row) z :
  (z < k)%Z ->
  filter (fun lr : Z * Row => Z.eqb (fst lr) z) (relabel_from k rs) = [].
Proof.
  revert k. induction rs as [|r rs IH]; intros k Hz; [reflexivity|].
  cbn [relabel_from]. rewrite filter_cons. cbn [fst].
  destruct (decide (k =? z)%Z) as [E|_].
  - apply Is_true_true, Z.eqb_eq in E. lia.
  - apply IH. lia.
Qed.

Lemma loc_row_range_index j (rs : list Row) i r :
  rs !! i = Some r ->
  loc_row (relabel_from (Z.of_nat j) rs) (Z.of_nat (j + i)) = Ok r.
Proof.
  revert j i. induction rs as [|r0 rs IH]; intros j i Hi; [discriminate|].
  unfold loc_row. cbn [relabel_from]. rewrite filter_cons. cbn [fst].
  replace (Z.of_nat j + 1)%Z with (Z.of_nat (S j)) by lia.
  destruct i as [|i].
  - injection Hi as ->. rewrite Nat.add_0_r.
    destruct (decide (Z.of_nat j =? Z.of_nat j)%Z) as [_|E].
    + rewrite loc_row_below by lia. reflexivity.
    + exfalso. apply E, Is_true_true, Z.eqb_refl.
  - destruct (decide (Z.of_nat j =? Z.of_nat (j + S i))%Z) as [E|_].
    + apply Is_true_true, Z.eqb_eq in E. lia.
    + replace (j + S i)%nat with (S j + i)%nat by lia.
      apply (IH (S j) i), Hi.
Qed.

Lemma loc_row_default_index (rs : list Row) i r :
  rs !! i = Some r -> loc_row (range_index rs) (Z.of_nat i) = Ok r.
Proof. intros Hi. apply (loc_row_range_index 0 rs i r Hi). Qed.

Lemma Qabs_Qdiv (a b : Q) : Qabs (a / b) == Qabs a / Qabs b.
Proof.
  unfold Qdiv. rewrite Qabs_Qmult.
  assert (E : Qabs (/ b) == / Qabs b).
  { destruct b as [[|n|n] d]; reflexivity. }
  rewrite E. reflexivity.
Qed.

(** X1: on a table with the default index 0 .. n-1, [calculate_ir]
    raises nothing, and what it returns is the resistance computed by
    position: 0 when fewer than two rows change the current by more
    than the 95th percentile or when the current step is below 0.01,
    and otherwise 1000 |dV| / |dI| between the first such row and the
    row ten places later (the last row when the table is shorter). *)
Lemma calculate_ir_range_index (table : list Row) :
  exists ir, calculate_ir (range_index table) = Ok ir
             /\ ir == spec_calculate_ir table.
Proof.
  unfold calculate_ir, spec_calculate_ir, range_index.
  assert (Hrows : rows (relabel_from 0 table) = table).
  { unfold rows. generalize 0%Z. induction table as [|r rs IH]; intros k;
      [reflexivity|]. cbn [relabel_from map snd]. rewrite IH. reflexivity. }
  assert (Hlen : length (relabel_from 0 table) = length table).
  { rewrite <- Hrows at 2. unfold rows. rewrite List.length_map. reflexivity. }
  rewrite Hrows, Hlen.
  set (change := map (option_map Qabs) (diff (map Crate table))).
  set (threshold := quantile (19 # 20) change).
  pose proof (pulse_points_range_index (fun c => gt_nan c threshold) 0 table change)
    as Hpp.
  change (Z.of_nat 0) with 0%Z in Hpp.
  set (pulse_points := filter (fun lc : Z * option Q => gt_nan (snd lc) threshold)
                         (combine (labels (relabel_from 0 table)) change)) in *.
  pose proof (candidates_in_range (fun c => gt_nan c threshold)
                (seq 0 (length table)) change) as Hin.
  set (candidates := map fst
         (filter (fun ic : nat * option Q => gt_nan (snd ic) threshold)
            (combine (seq 0 (length table)) change))) in *.
  assert (Hlenpp : length pulse_points = length candidates).
  { rewrite <- (List.length_map fst pulse_points), Hpp, List.length_map. reflexivity. }
  rewrite Hlenpp.
  destruct candidates as [|start [|second rest]].
  - exists 0. split; reflexivity.
  - exists 0. split; reflexivity.
  - change (length (start :: second :: rest) <? 2)%nat with false. cbv iota.
    destruct pulse_points as [|[pulse_start c] pps]; [discriminate|].
    injection Hpp as Hstart _. subst pulse_start.
    assert (Hs : (start < length table)%nat).
    { specialize (Hin start (or_introl eq_refl)). apply in_seq in Hin. lia. }
    destruct (lookup_lt_is_Some_2 table start Hs) as [r_start Hr_start].
    assert (He : (Nat.min (start + 10) (length table - 1) < length table)%nat) by lia.
    destruct (lookup_lt_is_Some_2 table _ He) as [r_end Hr_end].
    rewrite Hr_start, Hr_end.
    replace (Z.min (Z.of_nat start + 10) (Z.of_nat (length table) - 1))
      with (Z.of_nat (Nat.min (start + 10) (length table - 1))) by lia.
    fold (range_index table).
    rewrite (loc_row_default_index table _ r_end Hr_end).
    cbn [mbind result_bind rbind].
    rewrite (loc_row_default_index table _ r_start Hr_start).
    cbn [mbind result_bind rbind].
    destruct (Qltb (Qabs (Crate r_end - Crate r_start)) (1 # 100)).
    + exists 0. split; reflexivity.
    + eexists. split; [reflexivity|]. rewrite Qabs_Qdiv. reflexivity.
Qed.

(** ** C2: bulk load and missing cycles *)

(** A Toyo export without rows for cycle 2, loaded over the range
    (1, 3): [load_cycle] raises ValueError for cycle 2, the loop only
    catches FileNotFoundError, and the bulk load aborts: cycle 3, which
    the export has, is never loaded and no metadata is recorded.  The
    same gap in a PNE folder is skipped. *)
Theorem C2_toyo_gap_aborts_bulk_load :
  let self := mkContainer 0 1 in
  let h0 := [OCycles []; OMeta []] in
  __init__ [] = (Ok self, h0)
  /\ (exists df, fst (Toyo_load_cycle C2_toyo_files "/data/toyo" 3 (mkToyo None)) = Ok df)
  /\ (exists loader h,
        load_all_cycles C2_toyo_files self "/data/toyo" (mkToyo None) (Some (1, 3)%Z) h0
        = (Raise (Exn ValueError (No_data_found_for_Cycle 2)), loader, h)
        /\ is_Some (stored_table h self 1)
        /\ stored_table h self 3 = None
        /\ stored_metadata h self = Some [])
  /\ (exists h,
        load_all_cycles C2_pne_files self "/data/pne" PNE (Some (1, 3)%Z) h0
        = (Ok tt, PNE, h)
        /\ is_Some (stored_table h self 1)
        /\ stored_table h self 2 = None
        /\ is_Some (stored_table h self 3)).
Proof.
  cbv zeta. split; [reflexivity|]. split; [|split].
  - eexists. vm_compute. reflexivity.
  - do 2 eexists. split; [vm_compute; reflexivity|].
    split; [vm_compute; eauto|]. split; vm_compute; reflexivity.
  - eexists. split; [vm_compute; reflexivity|].
    split; [vm_compute; eauto|]. split; [vm_compute; reflexivity|].
    vm_compute; eauto.
Qed.

(** ** C3: merged cycle ranges *)

(** Cycle 2 is stored as an empty table.  Its maximum elapsed time is
    NaN, the comparison [cumulative_time > 0] is then false, and cycle 3
    is appended unshifted: elapsed time falls from 10 back to 0. *)
Theorem C3_empty_table_breaks_continuity :
  exists self h merged,
    new_container C3_files "/data/pne" PNE (Some (1, 3)%Z) [] = (Ok self, h)
    /\ option_map (map TimeMin ∘ rows) (stored_table h self 1) = Some [0; 10]
    /\ option_map (map TimeMin ∘ rows) (stored_table h self 2) = Some []
    /\ option_map (map TimeMin ∘ rows) (stored_table h self 3) = Some [0; 5]
    /\ outcome (r ← get_cycle_range self 1 3; read_frame r) h = Ok merged
    /\ map TimeMin (rows merged) = [0; 10; 0; 5]
    /\ ~ nondecreasing (map TimeMin (rows merged)).
Proof.
  do 3 eexists. split; [vm_compute; reflexivity|].
  split; [vm_compute; reflexivity|]. split; [vm_compute; reflexivity|].
  split; [vm_compute; reflexivity|]. split; [vm_compute; reflexivity|].
  split; [vm_compute; reflexivity|].
  vm_compute. intros (_ & H & _). apply H. reflexivity.
Qed.

(** ** C4: global cycle numbers of the linked analyzer *)

(** Three paths with local cycles 1 to 3 each: the offset after the
    second path is max(3, 3) = 3, not 6, and the third path reuses the
    global numbers 4 to 6. *)
Theorem C4_third_path_reuses_global_numbers :
  exists results,
    outcome C4_run [] = Ok results
    /\ map Linked.Local_Cycle (Linked.summary results)
       = [1; 2; 3; 1; 2; 3; 1; 2; 3]%Z
    /\ map Linked.Global_Cycle (Linked.summary results)
       = [1; 2; 3; 4; 5; 6; 4; 5; 6]%Z
    /\ (Linked.next_offset (Linked.next_offset 0 [1; 2; 3]) [1; 2; 3] = 3)%Z.
Proof.
  eexists. split; [vm_compute; reflexivity|].
  split; [vm_compute; reflexivity|]. split; vm_compute; reflexivity.
Qed.

(** ** C9: what a caller can reach through a returned object *)

(** [get_metadata] copies the dict and not the list it holds: appending
    to the list of the returned dict changes the container's
    metadata. *)
Theorem C9_metadata_copy_shares_loaded_cycles :
  exists self h md h',
    new_container C3_files "/data/pne" PNE (Some (1, 3)%Z) [] = (Ok self, h)
    /\ get_metadata self h = (Ok md, h')
    /\ stored_metadata h' self = stored_metadata h self
    /\ stored_metadata h self
       = Some [("data_path", MStr "/data/pne"); ("cycle_range", MRange 1 3);
               ("loaded_cycles", MList [1; 2; 3]%Z)]%string
    /\ stored_metadata (run (append_to_entry md "loaded_cycles" 99) h') self
       = Some [("data_path", MStr "/data/pne"); ("cycle_range", MRange 1 3);
               ("loaded_cycles", MList [1; 2; 3; 99]%Z)]%string
    /\ stored_metadata (run (setitem_entry md "data_path" (VStr "elsewhere")) h') self
       = stored_metadata h self.
Proof.
  do 4 eexists. split; [vm_compute; reflexivity|].
  split; [vm_compute; reflexivity|]. split; [vm_compute; reflexivity|].
  split; [vm_compute; reflexivity|]. split; vm_compute; reflexivity.
Qed.

(** ** Heap and dict lemmas *)

Section Dict.
Context {K V : Type} (eqb : K -> K -> bool).
Hypothesis eqb_eq : forall a b, eqb a b = true <-> a = b.

Lemma dict_get_set_eq (k : K) (v : V) (d : list (K * V)) :
  dict_get eqb k (dict_set eqb k v d) = Some v.
Proof using eqb_eq.
  induction d as [|[k' v'] d IH]; simpl.
  - rewrite (proj2 (eqb_eq k k) eq_refl). reflexivity.
  - destruct (eqb k' k) eqn:E; simpl; rewrite E; [reflexivity|exact IH].
Qed.

Lemma dict_get_set_ne (k k' : K) (v : V) (d : list (K * V)) :
  k <> k' -> dict_get eqb k' (dict_set eqb k v d) = dict_get eqb k' d.
Proof using eqb_eq.
  intros Hne. induction d as [|[k0 v0] d IH]; simpl.
  - destruct (eqb k k') eqn:E; [|reflexivity].
    apply eqb_eq in E. contradiction.
  - destruct (eqb k0 k) eqn:E; simpl.
    + apply eqb_eq in E. subst k0.
      destruct (eqb k k') eqn:E'; [|reflexivity].
      apply eqb_eq in E'. contradiction.
    + rewrite IH. reflexivity.
Qed.

Lemma dict_get_In (k : K) (v : V) (d : list (K * V)) :
  dict_get eqb k d = Some v -> In (k, v) d.
Proof using eqb_eq.
  induction d as [|[k0 v0] d IH]; simpl; [discriminate|].
  destruct (eqb k0 k) eqn:E.
  - apply eqb_eq in E. intros [= ->]. left. congruence.
  - intros H. right. apply IH, H.
Qed.

Lemma dict_get_keys (k : K) (d : list (K * V)) :
  is_Some (dict_get eqb k d) <-> In k (dict_keys d).
Proof using eqb_eq.
  induction d as [|[k0 v0] d IH]; simpl.
  - split; [intros [x Hx]; discriminate|tauto].
  - destruct (eqb k0 k) eqn:E.
    + apply eqb_eq in E. split; eauto.
    + rewrite IH. split; [tauto|]. intros [->|H]; [|exact H].
      rewrite (proj2 (eqb_eq k k) eq_refl) in E. discriminate.
Qed.

End Dict.

Lemma lookup_alloc_old (h : heap) (o : obj) l :
  (l < length h)%nat -> (h ++ [o]) !! l = h !! l.
Proof. intros Hl. apply lookup_app_l, Hl. Qed.

Lemma lookup_alloc_new (h : heap) (o : obj) :
  (h ++ [o]) !! length h = Some o.
Proof. rewrite lookup_app_r by lia. rewrite Nat.sub_diag. reflexivity. Qed.

Lemma frame_at_lt (h : heap) l : is_Some (frame_at h l) -> (l < length h)%nat.
Proof.
  unfold frame_at. intros [df H].
  destruct (h !! l) eqn:E; [|discriminate].
  eapply lookup_lt_Some, E.
Qed.

Lemma M_bind_unfold {A B} (m : M A) (k : A -> M B) (h : heap) :
  (m ≫= k) h
  = match m h with
    | (Ok a, h') => k a h'
    | (Raise e, h') => (Raise e, h')
    end.
Proof. reflexivity. Qed.

Lemma read_frame_ok (h : heap) l df :
  frame_at h l = Some df -> read_frame l h = (Ok df, h).
Proof.
  unfold frame_at, read_frame. intros H.
  destruct (h !! l) as [[]|]; try discriminate.
  injection H as ->. reflexivity.
Qed.

Lemma copy_frame_ok (h : heap) l df :
  frame_at h l = Some df ->
  copy_frame l h = (Ok (length h), h ++ [OFrame df]).
Proof.
  intros H. unfold copy_frame.
  rewrite M_bind_unfold, (read_frame_ok h l df H). reflexivity.
Qed.

Lemma read_cycles_ok (h : heap) l d :
  h !! l = Some (OCycles d) -> read_cycles l h = (Ok d, h).
Proof. unfold read_cycles. intros ->. reflexivity. Qed.

(** ** C8: lookups of cycles that were never loaded *)

Lemma Zeqb_eq (a b : Z) : Z.eqb a b = true <-> a = b.
Proof. apply Z.eqb_eq. Qed.

Lemma frame_at_preserved (h h' : heap) l :
  h' !! l = h !! l -> frame_at h' l = frame_at h l.
Proof. unfold frame_at. intros ->. reflexivity. Qed.

Lemma get_cycles_loop_spec (d : list (Z * loc)) (result : loc) :
  forall (cycle_list missing : list Z) (h : heap) (res : list (Z * loc)),
  h !! result = Some (OCycles res) ->
  (forall n l, dict_get Z.eqb n d = Some l -> l <> result /\ is_Some (frame_at h l)) ->
  exists h' res',
    get_cycles_loop d cycle_list result missing h
    = (Ok (missing ++ filter (fun n => dict_get Z.eqb n d = None) cycle_list), h')
    /\ h' !! result = Some (OCycles res')
    /\ (forall l, l <> result -> (l < length h)%nat -> h' !! l = h !! l)
    /\ (forall n l, In n cycle_list -> dict_get Z.eqb n d = Some l ->
          exists l', dict_get Z.eqb n res' = Some l'
                     /\ frame_at h' l' = frame_at h l)
    /\ (forall n, ~ In n cycle_list \/ dict_get Z.eqb n d = None ->
          dict_get Z.eqb n res' = dict_get Z.eqb n res).
Proof.
  induction cycle_list as [|n0 rest IH]; intros missing h res Hres Hd.
  - exists h, res. cbn [get_cycles_loop]. rewrite filter_nil, app_nil_r.
    split; [reflexivity|]. split; [exact Hres|]. split; [reflexivity|].
    split; [intros n l []|reflexivity].
  - cbn [get_cycles_loop]. rewrite filter_cons.
    destruct (dict_get Z.eqb n0 d) as [l0|] eqn:Hn0.
    + destruct (decide (Some l0 = None)) as [E|_]; [discriminate|].
      destruct (Hd n0 l0 Hn0) as [Hl0 [df Hdf]].
      assert (Hres_lt : (result < length h)%nat) by (eapply lookup_lt_Some, Hres).
      assert (Hl0_lt : (l0 < length h)%nat) by (apply frame_at_lt; eauto).
      rewrite M_bind_unfold, (copy_frame_ok h l0 df Hdf).
      rewrite M_bind_unfold, (read_cycles_ok _ result res)
        by (rewrite lookup_alloc_old by exact Hres_lt; exact Hres).
      rewrite M_bind_unfold. unfold store at 1.
      set (h2 := <[result := OCycles (dict_set Z.eqb n0 (length h) res)]>
                   (h ++ [OFrame df])).
      assert (Hlen2 : length h2 = S (length h)).
      { unfold h2. rewrite length_insert, length_app. simpl. lia. }
      assert (Hres2 : h2 !! result
                      = Some (OCycles (dict_set Z.eqb n0 (length h) res))).
      { unfold h2. apply list_lookup_insert_eq. rewrite length_app. simpl. lia. }
      assert (Hold : forall l, l <> result -> (l < length h)%nat -> h2 !! l = h !! l).
      { intros l Hl Hlt. unfold h2.
        rewrite list_lookup_insert_ne by congruence.
        apply lookup_alloc_old, Hlt. }
      assert (Hnew : frame_at h2 (length h) = Some df).
      { unfold frame_at, h2. rewrite list_lookup_insert_ne by lia.
        rewrite lookup_alloc_new. reflexivity. }
      destruct (IH missing h2 _ Hres2) as (h' & res' & Hrun & Hres' & Hpres & Ha & Hb).
      { intros n l Hnl. destruct (Hd n l Hnl) as [Hne Hsome]. split; [exact Hne|].
        rewrite (frame_at_preserved h h2 l); [exact Hsome|].
        apply Hold; [exact Hne|]. apply frame_at_lt, Hsome. }
      exists h', res'. split; [exact Hrun|]. split; [exact Hres'|].
      split; [|split].
      * intros l Hl Hlt. rewrite Hpres by (try exact Hl; lia). apply Hold; assumption.
      * intros n l Hin Hnl.
        destruct (in_dec Z.eq_dec n rest) as [Hrest|Hrest].
        -- destruct (Ha n l Hrest Hnl) as (l' & Hl' & Hfr).
           exists l'. split; [exact Hl'|]. rewrite Hfr.
           destruct (Hd n l Hnl) as [Hne Hsome].
           apply frame_at_preserved, Hold; [exact Hne|]. apply frame_at_lt, Hsome.
        -- destruct Hin as [<-|Hin]; [|contradiction].
           rewrite Hn0 in Hnl. injection Hnl as <-.
           exists (length h). split.
           ++ rewrite (Hb n0 (or_introl Hrest)).
              apply (dict_get_set_eq Z.eqb Zeqb_eq).
           ++ rewrite (frame_at_preserved h2 h' (length h)).
              ** rewrite Hnew, Hdf. reflexivity.
              ** apply Hpres; lia.
      * intros n Hn.
        assert (Hne : n0 <> n).
        { intros <-. destruct Hn as [Hn|Hn]; [apply Hn; left; reflexivity|].
          rewrite Hn0 in Hn. discriminate. }
        rewrite Hb.
        -- apply (dict_get_set_ne Z.eqb Zeqb_eq). exact Hne.
        -- destruct Hn as [Hn|Hn]; [left|right; exact Hn].
           intros Hin. apply Hn. right. exact Hin.
    + destruct (decide (None = None)) as [_|E]; [|contradiction].
      destruct (IH (missing ++ [n0]) h res Hres Hd)
        as (h' & res' & Hrun & Hres' & Hpres & Ha & Hb).
      exists h', res'. rewrite <- app_assoc in Hrun.
      split; [exact Hrun|]. split; [exact Hres'|]. split; [exact Hpres|].
      split.
      * intros n l [<-|Hin] Hnl; [rewrite Hn0 in Hnl; discriminate|].
        apply (Ha n l Hin Hnl).
      * intros n Hn. apply Hb. destruct Hn as [Hn|Hn]; [left|right; exact Hn].
        intros Hin. apply Hn. right. exact Hin.
Qed.

Lemma stored_table_dict (h : heap) (self : CycleDataContainer) d n :
  stored_cycles h self = Some d ->
  stored_table h self n = match dict_get Z.eqb n d with
                          | Some l => frame_at h l
                          | None => None
                          end.
Proof. unfold stored_table. intros ->. reflexivity. Qed.

Lemma stored_table_None (h : heap) (self : CycleDataContainer) d n :
  stored_cycles h self = Some d ->
  (forall n l, dict_get Z.eqb n d = Some l -> is_Some (frame_at h l)) ->
  stored_table h self n = None <-> dict_get Z.eqb n d = None.
Proof.
  intros Hd Hok. rewrite (stored_table_dict h self d n Hd).
  destruct (dict_get Z.eqb n d) as [l|] eqn:E; [|tauto].
  destruct (Hok n l E) as [df Hdf]. rewrite Hdf. split; discriminate.
Qed.

Lemma filter_missing (h : heap) (self : CycleDataContainer) d (l : list Z) :
  stored_cycles h self = Some d ->
  (forall n l, dict_get Z.eqb n d = Some l -> is_Some (frame_at h l)) ->
  filter (fun n => stored_table h self n = None) l
  = filter (fun n => dict_get Z.eqb n d = None) l.
Proof.
  intros Hd Hok. induction l as [|n l IH]; [reflexivity|].
  rewrite !filter_cons, IH.
  pose proof (stored_table_None h self d n Hd Hok) as Hiff.
  destruct (decide (stored_table h self n = None)) as [E|E],
           (decide (dict_get Z.eqb n d = None)) as [E'|E']; tauto.
Qed.

Lemma stored_cycles_lookup (h : heap) (self : CycleDataContainer) d :
  stored_cycles h self = Some d -> h !! _cycles self = Some (OCycles d).
Proof.
  unfold stored_cycles. destruct (h !! _cycles self) as [[]|]; try discriminate.
  intros [= ->]. reflexivity.
Qed.

(** C8: [get_cycle(n)] for a number that was never loaded raises
    KeyError naming n; [get_cycles] raises KeyError naming every
    requested number that was never loaded, and when none is missing it
    returns a dict with one table per requested number, each with the
    content of the stored table. *)
Theorem C8_missing_cycles_are_named (h : heap) (self : CycleDataContainer) :
  container_ok h self ->
  (forall n, stored_table h self n = None ->
     get_cycle self n h
     = (Raise (Exn KeyError (Cycle_not_found_in_container n)), h))
  /\ (forall cycle_list,
        let missing := filter (fun n => stored_table h self n = None) cycle_list in
        (missing <> [] ->
         outcome (get_cycles self cycle_list) h
         = Raise (Exn KeyError (Cycles_not_found missing)))
        /\ (missing = [] ->
            exists result tables,
              outcome (get_cycles self cycle_list) h = Ok result
              /\ run (get_cycles self cycle_list) h !! result = Some (OCycles tables)
              /\ (forall n, In n cycle_list <-> In n (dict_keys tables))
              /\ (forall n, In n cycle_list ->
                    exists l, dict_get Z.eqb n tables = Some l
                              /\ is_Some (stored_table h self n)
                              /\ frame_at (run (get_cycles self cycle_list) h) l
                                 = stored_table h self n))).
Proof.
  intros (Hne & (d & Hd & Hmem) & _).
  assert (Hok : forall n l, dict_get Z.eqb n d = Some l -> is_Some (frame_at h l)).
  { intros n l Hnl. apply (Hmem n l), (dict_get_In Z.eqb Zeqb_eq), Hnl. }
  clear Hmem.
  pose proof (stored_cycles_lookup h self d Hd) as Hlk.
  split.
  - intros n Hn. apply (stored_table_None h self d n Hd Hok) in Hn.
    unfold get_cycle. rewrite M_bind_unfold, (read_cycles_ok h _ d Hlk), Hn.
    reflexivity.
  - intros cycle_list. cbv zeta.
    rewrite (filter_missing h self d cycle_list Hd Hok).
    assert (Hlt : (_cycles self < length h)%nat) by (eapply lookup_lt_Some, Hlk).
    destruct (get_cycles_loop_spec d (length h) cycle_list [] (h ++ [OCycles []]) [])
      as (h' & res' & Hrun & Hres' & Hpres & Ha & Hb).
    { apply lookup_alloc_new. }
    { intros n l Hnl. destruct (Hok n l Hnl) as [df Hdf].
      assert (Hl : (l < length h)%nat) by (apply frame_at_lt; eauto).
      split; [lia|]. exists df.
      rewrite (frame_at_preserved h (h ++ [OCycles []]) l); [exact Hdf|].
      apply lookup_alloc_old, Hl. }
    cbn [app] in Hrun.
    assert (Hget : get_cycles self cycle_list h
                   = match filter (fun n => dict_get Z.eqb n d = None) cycle_list with
                     | [] => (Ok (length h), h')
                     | m :: ms => (Raise (Exn KeyError (Cycles_not_found (m :: ms))), h')
                     end).
    { unfold get_cycles. rewrite M_bind_unfold. unfold alloc at 1.
      rewrite M_bind_unfold, (read_cycles_ok _ _ d)
        by (rewrite lookup_alloc_old by exact Hlt; exact Hlk).
      rewrite M_bind_unfold, Hrun.
      destruct (filter (fun n => dict_get Z.eqb n d = None) cycle_list); reflexivity. }
    unfold outcome, run. rewrite Hget.
    destruct (filter (fun n => dict_get Z.eqb n d = None) cycle_list) as [|m ms] eqn:Hf.
    + split; [intros H; contradiction|]. intros _.
      assert (Hall : forall n, In n cycle_list -> exists l, dict_get Z.eqb n d = Some l).
      { intros n Hin. destruct (dict_get Z.eqb n d) as [l|] eqn:E; [eauto|].
        assert (Hin' : n ∈ filter (fun n => dict_get Z.eqb n d = None) cycle_list).
        { apply list_elem_of_filter. split; [exact E|]. apply list_elem_of_In, Hin. }
        rewrite Hf in Hin'. inversion Hin'. }
      exists (length h), res'. cbn [fst snd].
      split; [reflexivity|]. split; [exact Hres'|]. split.
      * intros n. rewrite <- (dict_get_keys Z.eqb Zeqb_eq). split.
        -- intros Hin. destruct (Hall n Hin) as [l Hl].
           destruct (Ha n l Hin Hl) as (l' & Hl' & _). eauto.
        -- intros [l' Hl']. destruct (in_dec Z.eq_dec n cycle_list) as [Hin|Hin];
             [exact Hin|].
           rewrite (Hb n (or_introl Hin)) in Hl'. discriminate.
      * intros n Hin. destruct (Hall n Hin) as [l Hl].
        destruct (Ha n l Hin Hl) as (l' & Hl' & Hfr).
        exists l'. split; [exact Hl'|].
        rewrite (stored_table_dict h self d n Hd), Hl.
        destruct (Hok n l Hl) as [df Hdf].
        assert (Hl_lt : (l < length h)%nat) by (apply frame_at_lt; eauto).
        rewrite Hfr, (frame_at_preserved h (h ++ [OCycles []]) l)
          by (apply lookup_alloc_old, Hl_lt).
        split; [eauto|reflexivity].
    + split; [intros _; reflexivity|discriminate].
Qed.

Lemma C8_missing_cycles_are_named_witness :
  exists self h,
    new_container C2_pne_files "/data/pne" PNE (Some (1, 3)%Z) [] = (Ok self, h)
    /\ container_ok h self
    /\ get_cycle self 2 h
       = (Raise (Exn KeyError (Cycle_not_found_in_container 2)), h)
    /\ outcome (get_cycles self [1; 2; 3; 7]%Z) h
       = Raise (Exn KeyError (Cycles_not_found [2; 7]%Z)).
Proof.
  eexists. eexists. split; [vm_compute; reflexivity|].
  match goal with |- container_ok ?h ?self /\ _ =>
    assert (Hok : container_ok h self) end.
  { split; [discriminate|]. split.
    - eexists. split; [reflexivity|].
      intros n l [[= <- <-]|[[= <- <-]|[]]]; vm_compute; eauto.
    - eexists. split; [reflexivity|].
      intros k l [[=]|[[=]|[[= <- <-]|[]]]]. vm_compute. eauto. }
  split; [exact Hok|].
  match type of Hok with container_ok ?h ?self =>
    destruct (C8_missing_cycles_are_named h self Hok) as [Hone Hmany] end.
  split.
  - apply Hone. vm_compute. reflexivity.
  - destruct (Hmany [1; 2; 3; 7]%Z) as [Hmissing _]. cbv zeta in Hmissing.
    rewrite Hmissing.
    + vm_compute. reflexivity.
    + vm_compute. discriminate.
Defined.

(** ** Read access allocates and never overwrites *)

Lemma extends_refl (h : heap) : extends h h.
Proof. exists []. rewrite app_nil_r. reflexivity. Qed.

Lemma extends_trans (h1 h2 h3 : heap) :
  extends h1 h2 -> extends h2 h3 -> extends h1 h3.
Proof.
  intros [e1 ->] [e2 ->]. exists (e1 ++ e2). rewrite app_assoc. reflexivity.
Qed.

Lemma extends_alloc (h0 h : heap) (o : obj) :
  extends h0 h -> extends h0 (h ++ [o]).
Proof. intros H. eapply extends_trans; [exact H|]. exists [o]. reflexivity. Qed.

Lemma extends_length (h h' : heap) : extends h h' -> (length h <= length h')%nat.
Proof. intros [e ->]. rewrite length_app. lia. Qed.

Lemma extends_lookup (h h' : heap) l :
  extends h h' -> (l < length h)%nat -> h' !! l = h !! l.
Proof. intros [e ->] Hl. apply lookup_app_l, Hl. Qed.

Lemma extends_store_fresh (h0 h : heap) l (o : obj) :
  extends h0 h -> (length h0 <= l)%nat -> extends h0 (<[l := o]> h).
Proof.
  intros [e ->] Hl. exists (<[(l - length h0)%nat := o]> e).
  apply insert_app_r_alt, Hl.
Qed.

Lemma copy_frame_run (l : loc) (h : heap) :
  (exists df, frame_at h l = Some df
              /\ copy_frame l h = (Ok (length h), h ++ [OFrame df]))
  \/ (exists e, copy_frame l h = (Raise e, h)).
Proof.
  unfold copy_frame, frame_at. rewrite M_bind_unfold. unfold read_frame.
  destruct (h !! l) as [[df| | |]|]; eauto.
Qed.

Lemma read_cycles_run (l : loc) (h : heap) :
  (exists d, h !! l = Some (OCycles d) /\ read_cycles l h = (Ok d, h))
  \/ (exists e, read_cycles l h = (Raise e, h)).
Proof. unfold read_cycles. destruct (h !! l) as [[| |d|]|]; eauto. Qed.

Lemma read_frame_run (l : loc) (h : heap) :
  (exists df, frame_at h l = Some df /\ read_frame l h = (Ok df, h))
  \/ (exists e, read_frame l h = (Raise e, h)).
Proof. unfold read_frame, frame_at. destruct (h !! l) as [[df| | |]|]; eauto. Qed.

Lemma get_cycle_run (self : CycleDataContainer) (n : Z) (h : heap) :
  (exists df, stored_table h self n = Some df
              /\ get_cycle self n h = (Ok (length h), h ++ [OFrame df]))
  \/ (exists e, get_cycle self n h = (Raise e, h)).
Proof.
  unfold get_cycle, stored_table, stored_cycles. rewrite M_bind_unfold.
  destruct (read_cycles_run (_cycles self) h) as [(d & Hd & ->)|(e & ->)];
    [|eauto].
  rewrite Hd. cbn [mbind option_bind].
  destruct (dict_get Z.eqb n d) as [l|]; [|right; eexists; reflexivity].
  destruct (copy_frame_run l h) as [(df & Hdf & ->)|(e & ->)]; eauto.
Qed.

Lemma get_metadata_run (self : CycleDataContainer) (h : heap) :
  (exists md, h !! _metadata self = Some (OMeta md)
              /\ get_metadata self h = (Ok (length h), h ++ [OMeta md]))
  \/ (exists e, get_metadata self h = (Raise e, h)).
Proof.
  unfold get_metadata. rewrite M_bind_unfold. unfold read_meta.
  destruct (h !! _metadata self) as [[| | |md]|]; eauto.
Qed.

Lemma get_cycles_loop_extends (d : list (Z * loc)) (result : loc) (h0 : heap) :
  (length h0 <= result)%nat ->
  forall (cycle_list missing : list Z) (h : heap),
  extends h0 h ->
  extends h0 (snd (get_cycles_loop d cycle_list result missing h)).
Proof.
  intros Hfresh.
  induction cycle_list as [|n rest IH]; intros missing h Hext; [exact Hext|].
  cbn [get_cycles_loop].
  destruct (dict_get Z.eqb n d) as [l|]; [|apply IH, Hext].
  rewrite M_bind_unfold.
  destruct (copy_frame_run l h) as [(df & _ & ->)|(e & ->)]; [|exact Hext].
  rewrite M_bind_unfold.
  destruct (read_cycles_run result (h ++ [OFrame df])) as [(r & _ & ->)|(e & ->)];
    [|apply extends_alloc, Hext].
  rewrite M_bind_unfold. unfold store at 1.
  apply IH, extends_store_fresh; [apply extends_alloc, Hext|exact Hfresh].
Qed.

Lemma get_cycles_extends (self : CycleDataContainer) (cycle_list : list Z) (h : heap) :
  extends h (run (get_cycles self cycle_list) h).
Proof.
  unfold run, get_cycles. rewrite M_bind_unfold. unfold alloc at 1.
  rewrite M_bind_unfold.
  destruct (read_cycles_run (_cycles self) (h ++ [OCycles []]))
    as [(d & _ & ->)|(e & ->)]; [|apply extends_alloc, extends_refl].
  rewrite M_bind_unfold.
  pose proof (get_cycles_loop_extends d (length h) h (le_n _) cycle_list []
                (h ++ [OCycles []]) (extends_alloc h h _ (extends_refl h))) as Hext.
  destruct (get_cycles_loop d cycle_list (length h) [] (h ++ [OCycles []]))
    as [[ms|e] h'].
  - destruct ms; exact Hext.
  - exact Hext.
Qed.

Lemma get_cycle_range_loop_extends (d : list (Z * loc)) (h0 : heap) :
  forall (cycle_nos : list Z) (dfs : list loc) (cumulative_time : option Q) (h : heap),
  extends h0 h ->
  extends h0 (snd (get_cycle_range_loop d cycle_nos dfs cumulative_time h)).
Proof.
  induction cycle_nos as [|n rest IH]; intros dfs ct h Hext; [exact Hext|].
  cbn [get_cycle_range_loop].
  destruct (dict_get Z.eqb n d) as [l|]; [|apply IH, Hext].
  rewrite M_bind_unfold.
  destruct (copy_frame_run l h) as [(df & _ & ->)|(e & ->)]; [|exact Hext].
  assert (Hext1 : extends h0 (h ++ [OFrame df])) by (apply extends_alloc, Hext).
  assert (Hlen : (length h0 <= length h)%nat) by (apply extends_length, Hext).
  rewrite M_bind_unfold.
  destruct (gt_nan ct (Some 0)).
  - rewrite M_bind_unfold.
    destruct (read_frame_run (length h) (h ++ [OFrame df]))
      as [(c & _ & ->)|(e & ->)]; [|exact Hext1].
    unfold store at 1.
    set (h2 := <[length h := _]> (h ++ [OFrame df])).
    assert (Hext2 : extends h0 h2) by (apply extends_store_fresh; assumption).
    rewrite M_bind_unfold.
    destruct (read_frame_run (length h) h2) as [(c2 & _ & ->)|(e & ->)];
      [|exact Hext2].
    apply IH, Hext2.
  - cbn [mret M_ret]. rewrite M_bind_unfold.
    destruct (read_frame_run (length h) (h ++ [OFrame df]))
      as [(c & _ & ->)|(e & ->)]; [|exact Hext1].
    apply IH, Hext1.
Qed.

Lemma read_frames_run (ls : list loc) (h : heap) : snd (read_frames ls h) = h.
Proof.
  induction ls as [|l ls IH]; [reflexivity|].
  cbn [read_frames]. rewrite M_bind_unfold.
  destruct (read_frame_run l h) as [(df & _ & ->)|(e & ->)]; [|reflexivity].
  rewrite M_bind_unfold.
  destruct (read_frames ls h) as [[dfs|e] h'] eqn:E; simpl in IH; subst h';
    reflexivity.
Qed.

Lemma get_cycle_range_extends (self : CycleDataContainer) (start stop : Z) (h : heap) :
  extends h (run (get_cycle_range self start stop) h).
Proof.
  unfold run, get_cycle_range. rewrite M_bind_unfold.
  destruct (read_cycles_run (_cycles self) h) as [(d & _ & ->)|(e & ->)];
    [|apply extends_refl].
  rewrite M_bind_unfold.
  pose proof (get_cycle_range_loop_extends d h (inclusive_range start stop) []
                (Some 0) h (extends_refl h)) as Hext.
  destruct (get_cycle_range_loop d (inclusive_range start stop) [] (Some 0) h)
    as [[dfs|e] h'].
  - destruct dfs as [|l dfs]; [exact Hext|].
    rewrite M_bind_unfold.
    pose proof (read_frames_run (l :: dfs) h') as Hrf.
    destruct (read_frames (l :: dfs) h') as [[contents|e] h'']; simpl in Hrf; subst h''.
    + apply extends_alloc, Hext.
    + exact Hext.
  - exact Hext.
Qed.

Lemma dict_get_set_cases (k k' : Z) (v v' : loc) (d : list (Z * loc)) :
  dict_get Z.eqb k' (dict_set Z.eqb k v d) = Some v' ->
  v' = v \/ dict_get Z.eqb k' d = Some v'.
Proof.
  destruct (Z.eq_dec k k') as [<-|Hne].
  - rewrite (dict_get_set_eq Z.eqb Zeqb_eq). intros [= <-]. left. reflexivity.
  - rewrite (dict_get_set_ne Z.eqb Zeqb_eq) by exact Hne. tauto.
Qed.

Lemma get_cycles_loop_fresh (d : list (Z * loc)) (result : loc) (h0 : heap) :
  forall (cycle_list missing : list Z) (h : heap) (res : list (Z * loc)),
  h !! result = Some (OCycles res) ->
  (length h0 <= length h)%nat ->
  (forall n l, dict_get Z.eqb n res = Some l -> (length h0 <= l)%nat) ->
  exists res',
    snd (get_cycles_loop d cycle_list result missing h) !! result = Some (OCycles res')
    /\ forall n l, dict_get Z.eqb n res' = Some l -> (length h0 <= l)%nat.
Proof.
  induction cycle_list as [|n rest IH]; intros missing h res Hres Hlen Hfresh.
  - exists res. split; [exact Hres|exact Hfresh].
  - cbn [get_cycles_loop].
    destruct (dict_get Z.eqb n d) as [l|]; [|apply (IH _ h res); assumption].
    assert (Hlt : (result < length h)%nat) by (eapply lookup_lt_Some, Hres).
    rewrite M_bind_unfold.
    destruct (copy_frame_run l h) as [(df & _ & ->)|(e & ->)];
      [|exists res; split; assumption].
    rewrite M_bind_unfold, (read_cycles_ok _ result res)
      by (rewrite lookup_alloc_old by exact Hlt; exact Hres).
    rewrite M_bind_unfold. unfold store at 1.
    apply (IH _ _ (dict_set Z.eqb n (length h) res)).
    + apply list_lookup_insert_eq. rewrite length_app. simpl. lia.
    + rewrite length_insert, length_app. simpl. lia.
    + intros n' l' Hl'. apply dict_get_set_cases in Hl'.
      destruct Hl' as [->|Hl']; [exact Hlen|]. eapply Hfresh, Hl'.
Qed.

Lemma stored_views_extend (h h' : heap) (self : CycleDataContainer) :
  container_ok h self -> extends h h' ->
  (forall n, stored_table h' self n = stored_table h self n)
  /\ stored_metadata h' self = stored_metadata h self
  /\ container_ok h' self.
Proof.
  intros (Hne & (d & Hd & Hok) & (md & Hmd & Hlists)) Hext.
  pose proof (stored_cycles_lookup h self d Hd) as Hlk.
  assert (Hlk' : h' !! _cycles self = Some (OCycles d)).
  { rewrite (extends_lookup h h') by (try exact Hext; eapply lookup_lt_Some, Hlk).
    exact Hlk. }
  assert (Hmd' : h' !! _metadata self = Some (OMeta md)).
  { rewrite (extends_lookup h h') by (try exact Hext; eapply lookup_lt_Some, Hmd).
    exact Hmd. }
  assert (Hd' : stored_cycles h' self = Some d).
  { unfold stored_cycles. rewrite Hlk'. reflexivity. }
  assert (Hframes : forall n l, In (n, l) d -> frame_at h' l = frame_at h l).
  { intros n l Hnl. apply frame_at_preserved, extends_lookup; [exact Hext|].
    apply frame_at_lt, (Hok n l Hnl). }
  assert (Hvals : forall k l, In (k, VListRef l) md -> h' !! l = h !! l).
  { intros k l Hin. destruct (Hlists k l Hin) as [xs Hxs].
    apply extends_lookup; [exact Hext|]. eapply lookup_lt_Some, Hxs. }
  split; [|split].
  - intros n. rewrite (stored_table_dict h' self d n Hd'),
      (stored_table_dict h self d n Hd).
    destruct (dict_get Z.eqb n d) as [l|] eqn:E; [|reflexivity].
    apply (Hframes n l), (dict_get_In Z.eqb Zeqb_eq), E.
  - unfold stored_metadata. rewrite Hmd', Hmd. f_equal.
    apply map_ext_in. intros [k v] Hin. f_equal.
    destruct v as [s|a b|l]; try reflexivity.
    cbn [snd metadata_value_at]. rewrite (Hvals k l Hin). reflexivity.
  - split; [exact Hne|]. split.
    + exists d. split; [exact Hd'|]. intros n l Hnl.
      rewrite (Hframes n l Hnl). apply (Hok n l Hnl).
    + exists md. split; [exact Hmd'|]. intros k l Hin.
      destruct (Hlists k l Hin) as [xs Hxs]. exists xs.
      rewrite (Hvals k l Hin). exact Hxs.
Qed.

(** X2: every read operation leaves the stored tables and metadata as they
    were. *)
Theorem read_access_changes_nothing (h : heap) (self : CycleDataContainer) :
  container_ok h self ->
  forall h',
    (exists n, h' = run (get_cycle self n) h)
    \/ (exists start stop, h' = run (get_cycle_range self start stop) h)
    \/ (exists cycle_list, h' = run (get_cycles self cycle_list) h)
    \/ h' = run (get_metadata self) h ->
    extends h h'
    /\ (forall n, stored_table h' self n = stored_table h self n)
    /\ stored_metadata h' self = stored_metadata h self.
Proof.
  intros Hok h' Hop.
  assert (Hext : extends h h').
  { destruct Hop as [[n ->]|[(a & b & ->)|[[l ->]| ->]]].
    - unfold run. destruct (get_cycle_run self n h) as [(df & _ & ->)|(e & ->)];
        [exists [OFrame df]; reflexivity|apply extends_refl].
    - apply get_cycle_range_extends.
    - apply get_cycles_extends.
    - unfold run. destruct (get_metadata_run self h) as [(md & _ & ->)|(e & ->)];
        [exists [OMeta md]; reflexivity|apply extends_refl]. }
  split; [exact Hext|].
  destruct (stored_views_extend h h' self Hok Hext) as (Ht & Hm & _).
  split; assumption.
Qed.

Lemma get_cycles_result_fresh (self : CycleDataContainer) (cycle_list : list Z)
  (h : heap) (r : loc) :
  outcome (get_cycles self cycle_list) h = Ok r ->
  r = length h
  /\ exists tables,
       run (get_cycles self cycle_list) h !! r = Some (OCycles tables)
       /\ forall n l, dict_get Z.eqb n tables = Some l -> (length h <= l)%nat.
Proof.
  unfold outcome, run.
  destruct (get_cycles self cycle_list h) as [res hf] eqn:E.
  cbn [fst snd]. intros ->.
  unfold get_cycles in E. rewrite M_bind_unfold in E. unfold alloc at 1 in E.
  rewrite M_bind_unfold in E.
  destruct (read_cycles_run (_cycles self) (h ++ [OCycles []]))
    as [(d & _ & Hd)|(e & Hd)]; rewrite Hd in E; [|discriminate].
  rewrite M_bind_unfold in E.
  destruct (get_cycles_loop_fresh d (length h) h cycle_list [] (h ++ [OCycles []]) [])
    as (res' & Hres' & Hfresh).
  { apply lookup_alloc_new. }
  { rewrite length_app. lia. }
  { intros n l [=]. }
  destruct (get_cycles_loop d cycle_list (length h) [] (h ++ [OCycles []]))
    as [[ms|e] h']; [|discriminate].
  destruct ms; [|discriminate].
  cbn [fst snd mret M_ret] in *. injection E as <- <-.
  split; [reflexivity|]. exists res'. split; [exact Hres'|exact Hfresh].
Qed.

Lemma get_cycle_range_result_fresh (self : CycleDataContainer) (start stop : Z)
  (h : heap) (r : loc) :
  outcome (get_cycle_range self start stop) h = Ok r -> (length h <= r)%nat.
Proof.
  unfold outcome, get_cycle_range. rewrite M_bind_unfold.
  destruct (read_cycles_run (_cycles self) h) as [(d & _ & ->)|(e & ->)];
    [|discriminate].
  rewrite M_bind_unfold.
  pose proof (get_cycle_range_loop_extends d h (inclusive_range start stop) []
                (Some 0) h (extends_refl h)) as Hext.
  destruct (get_cycle_range_loop d (inclusive_range start stop) [] (Some 0) h)
    as [[dfs|e] h']; [|discriminate].
  destruct dfs as [|l dfs]; [discriminate|].
  rewrite M_bind_unfold.
  pose proof (read_frames_run (l :: dfs) h') as Hrf.
  destruct (read_frames (l :: dfs) h') as [[contents|e] h'']; simpl in Hrf; subst h'';
    [|discriminate].
  unfold alloc. cbn [fst snd] in *. intros [= <-].
  apply extends_length, Hext.
Qed.

(** X3: overwriting an object that a read operation returned (a table, or
    the dict and the tables of [get_cycles], or the dict of
    [get_metadata]) changes no stored table and no stored metadata. *)
Theorem returned_objects_are_new (h : heap) (self : CycleDataContainer) :
  container_ok h self ->
  forall (h' : heap) (target : loc),
    (exists n, h' = run (get_cycle self n) h
               /\ outcome (get_cycle self n) h = Ok target)
    \/ (exists start stop,
          h' = run (get_cycle_range self start stop) h
          /\ outcome (get_cycle_range self start stop) h = Ok target)
    \/ (exists cycle_list r tables,
          h' = run (get_cycles self cycle_list) h
          /\ outcome (get_cycles self cycle_list) h = Ok r
          /\ h' !! r = Some (OCycles tables)
          /\ (target = r \/ exists n, dict_get Z.eqb n tables = Some target))
    \/ (h' = run (get_metadata self) h
        /\ outcome (get_metadata self) h = Ok target) ->
    forall o : obj,
      (forall n, stored_table (<[target := o]> h') self n = stored_table h self n)
      /\ stored_metadata (<[target := o]> h') self = stored_metadata h self.
Proof.
  intros Hok h' target Hop o.
  assert (H : extends h h' /\ (length h <= target)%nat).
  { destruct Hop as [(n & -> & Hr)|[(a & b & -> & Hr)|
                     [(cl & r & tables & -> & Hr & Htab & Ht)|[-> Hr]]]].
    - unfold run, outcome in *.
      destruct (get_cycle_run self n h) as [(df & _ & E)|(e & E)]; rewrite E in *.
      + injection Hr as <-. split; [exists [OFrame df]; reflexivity|lia].
      + discriminate.
    - split; [apply get_cycle_range_extends|].
      eapply get_cycle_range_result_fresh, Hr.
    - split; [apply get_cycles_extends|].
      destruct (get_cycles_result_fresh self cl h r Hr) as (-> & tables' & Htab' & Hfresh).
      rewrite Htab in Htab'. injection Htab' as <-.
      destruct Ht as [->|[n Hn]]; [lia|]. eapply Hfresh, Hn.
    - unfold run, outcome in *.
      destruct (get_metadata_run self h) as [(md & _ & E)|(e & E)]; rewrite E in *.
      + injection Hr as <-. split; [exists [OMeta md]; reflexivity|lia].
      + discriminate. }
  destruct H as [Hext Hfresh].
  destruct (stored_views_extend h (<[target := o]> h') self Hok
              (extends_store_fresh h h' target o Hext Hfresh)) as (Ht & Hm & _).
  split; assumption.
Qed.

(** ** C3: the merged range, when no stored table is empty *)

Lemma store_last (h : heap) (o o' : obj) :
  <[length h := o']> (h ++ [o]) = h ++ [o'].
Proof.
  rewrite insert_app_r_alt by lia. rewrite Nat.sub_diag. reflexivity.
Qed.

Lemma read_frame_new (h : heap) (df : DataFrame) :
  read_frame (length h) (h ++ [OFrame df]) = (Ok df, h ++ [OFrame df]).
Proof. apply read_frame_ok. unfold frame_at. rewrite lookup_alloc_new. reflexivity. Qed.

Lemma stored_frames_alloc (d : list (Z * loc)) (h : heap) (o : obj) (ns : list Z) :
  (forall n l, dict_get Z.eqb n d = Some l -> is_Some (frame_at h l)) ->
  (forall n l, dict_get Z.eqb n d = Some l -> is_Some (frame_at (h ++ [o]) l))
  /\ omap (fun n => l ← dict_get Z.eqb n d; frame_at (h ++ [o]) l) ns
     = omap (fun n => l ← dict_get Z.eqb n d; frame_at h l) ns.
Proof.
  intros Hok.
  assert (Hsame : forall n l, dict_get Z.eqb n d = Some l ->
                              frame_at (h ++ [o]) l = frame_at h l).
  { intros n l Hnl. apply frame_at_preserved, lookup_alloc_old, frame_at_lt.
    apply (Hok n l Hnl). }
  split.
  - intros n l Hnl. rewrite (Hsame n l Hnl). apply (Hok n l Hnl).
  - induction ns as [|n ns IH]; [reflexivity|].
    cbn [omap list_omap]. rewrite IH.
    destruct (dict_get Z.eqb n d) as [l|] eqn:E; [|reflexivity].
    cbn [mbind option_bind]. rewrite (Hsame n l E). reflexivity.
Qed.

Lemma get_cycle_range_loop_run (d : list (Z * loc)) :
  forall (cycle_nos : list Z) (dfs : list loc) (cumulative_time : option Q) (h : heap),
  (forall n l, dict_get Z.eqb n d = Some l -> is_Some (frame_at h l)) ->
  get_cycle_range_loop d cycle_nos dfs cumulative_time h
  = (Ok (dfs ++ seq (length h)
                  (length (merge_loop
                             (omap (fun n => l ← dict_get Z.eqb n d; frame_at h l)
                                cycle_nos)
                             cumulative_time))),
     h ++ map OFrame
            (merge_loop (omap (fun n => l ← dict_get Z.eqb n d; frame_at h l) cycle_nos)
               cumulative_time)).
Proof.
  induction cycle_nos as [|n rest IH]; intros dfs ct h Hok.
  - cbn. rewrite !app_nil_r. reflexivity.
  - cbn [get_cycle_range_loop omap list_omap].
    destruct (dict_get Z.eqb n d) as [l|] eqn:Hn; cbn [mbind option_bind];
      [|apply IH, Hok].
    destruct (Hok n l Hn) as [df Hdf]. rewrite Hdf.
    cbn [merge_loop length map].
    rewrite M_bind_unfold, (copy_frame_ok h l df Hdf), M_bind_unfold.
    set (df' := if gt_nan ct (Some 0) then shift_TimeMin (default 0 ct) df else df).
    assert (Hstep :
      (if gt_nan ct (Some 0)
       then content ← read_frame (length h);
            store (length h) (OFrame (shift_TimeMin (default 0 ct) content))
       else mret tt) (h ++ [OFrame df])
      = (Ok tt, h ++ [OFrame df'])).
    { unfold df'. destruct (gt_nan ct (Some 0)); [|reflexivity].
      rewrite M_bind_unfold, read_frame_new. unfold store.
      rewrite store_last. reflexivity. }
    rewrite Hstep, M_bind_unfold, read_frame_new.
    destruct (stored_frames_alloc d h (OFrame df') rest Hok) as [Hok' Htab].
    rewrite (IH _ _ (h ++ [OFrame df']) Hok'), Htab.
    rewrite length_app. cbn [length].
    rewrite <- !app_assoc. cbn [app].
    replace (length h + 1)%nat with (S (length h)) by lia.
    reflexivity.
Qed.

Lemma read_frames_new :
  forall (ms : list DataFrame) (h : heap),
  read_frames (seq (length h) (length ms)) (h ++ map OFrame ms)
  = (Ok ms, h ++ map OFrame ms).
Proof.
  induction ms as [|m ms IH]; intros h; [reflexivity|].
  cbn [length seq map read_frames].
  rewrite M_bind_unfold.
  assert (Hm : read_frame (length h) (h ++ OFrame m :: map OFrame ms)
               = (Ok m, h ++ OFrame m :: map OFrame ms)).
  { apply read_frame_ok. unfold frame_at.
    rewrite lookup_app_r by lia. rewrite Nat.sub_diag. reflexivity. }
  rewrite Hm, M_bind_unfold.
  specialize (IH (h ++ [OFrame m])).
  rewrite length_app in IH. cbn [length] in IH.
  replace (length h + 1)%nat with (S (length h)) in IH by lia.
  rewrite <- app_assoc in IH. cbn [app] in IH.
  rewrite IH. reflexivity.
Qed.

Lemma length_merge_loop (tables : list DataFrame) (ct : option Q) :
  length (merge_loop tables ct) = length tables.
Proof.
  revert ct. induction tables as [|df rest IH]; intros ct; [reflexivity|].
  cbn [merge_loop length]. rewrite IH. reflexivity.
Qed.

Lemma tables_in_range_dict (h : heap) (self : CycleDataContainer) d (a b : Z) :
  stored_cycles h self = Some d ->
  tables_in_range h self a b
  = omap (fun n => l ← dict_get Z.eqb n d; frame_at h l) (inclusive_range a b).
Proof.
  intros Hd. unfold tables_in_range.
  induction (inclusive_range a b) as [|n ns IH]; [reflexivity|].
  cbn [omap list_omap]. rewrite IH, (stored_table_dict h self d n Hd).
  destruct (dict_get Z.eqb n d); reflexivity.
Qed.

(** What [get_cycle_range] does on a well-formed container: it fails
    when no cycle of the range is stored, and otherwise allocates the
    shifted copies and then the merged frame. *)
Lemma get_cycle_range_run (h : heap) (self : CycleDataContainer) (start stop : Z) :
  container_ok h self ->
  get_cycle_range self start stop h
  = match tables_in_range h self start stop with
    | [] => (Raise (Exn ValueError (No_cycles_found_in_range start stop)), h)
    | tables =>
        let merged := merge_loop tables (Some 0) in
        (Ok (length h + length tables)%nat,
         (h ++ map OFrame merged) ++ [OFrame (concat_ignore_index merged)])
    end.
Proof.
  intros (_ & (d & Hd & Hmem) & _).
  assert (Hok : forall n l, dict_get Z.eqb n d = Some l -> is_Some (frame_at h l)).
  { intros n l Hnl. apply (Hmem n l), (dict_get_In Z.eqb Zeqb_eq), Hnl. }
  rewrite (tables_in_range_dict h self d start stop Hd).
  unfold get_cycle_range.
  rewrite M_bind_unfold, (read_cycles_ok h _ d (stored_cycles_lookup h self d Hd)).
  rewrite M_bind_unfold, (get_cycle_range_loop_run d _ [] (Some 0) h Hok).
  set (tables := omap (fun n => l ← dict_get Z.eqb n d; frame_at h l)
                   (inclusive_range start stop)).
  destruct tables as [|t ts] eqn:Htables.
  - cbn. rewrite app_nil_r. reflexivity.
  - rewrite <- Htables. cbn [app].
    assert (Hlen : length (merge_loop tables (Some 0)) = S (length ts)).
    { rewrite length_merge_loop, Htables. reflexivity. }
    destruct (seq (length h) (length (merge_loop tables (Some 0)))) as [|l ls] eqn:Hseq.
    { rewrite Hlen in Hseq. discriminate. }
    rewrite <- Hseq, M_bind_unfold, read_frames_new.
    unfold alloc. rewrite length_app, List.length_map, length_merge_loop.
    reflexivity.
Qed.

Lemma rows_range_index (rs : list Row) : rows (range_index rs) = rs.
Proof.
  unfold rows, range_index. generalize 0%Z.
  induction rs as [|r rs IH]; intros k; [reflexivity|].
  cbn [relabel_from map snd]. rewrite IH. reflexivity.
Qed.

Lemma rows_shift (dt : Q) (df : DataFrame) :
  rows (shift_TimeMin dt df) = map (shift_row dt) (rows df).
Proof.
  unfold rows, shift_TimeMin. rewrite !map_map. reflexivity.
Qed.

Lemma rows_merge_loop_length (tables : list DataFrame) (ct : option Q) :
  length (concat (map rows (merge_loop tables ct)))
  = list_sum (map (fun df : DataFrame => length df) tables).
Proof.
  revert ct. induction tables as [|df rest IH]; intros ct; [reflexivity|].
  cbn [merge_loop map concat list_sum fold_right].
  rewrite length_app, IH. f_equal.
  destruct (gt_nan ct (Some 0)).
  - rewrite rows_shift. unfold rows. rewrite !List.length_map. reflexivity.
  - unfold rows. rewrite List.length_map. reflexivity.
Qed.

Lemma nondecreasing_from_app p l1 l2 :
  nondecreasing_from p l1 ->
  nondecreasing_from (default p (last l1)) l2 ->
  nondecreasing_from p (l1 ++ l2).
Proof.
  revert p. induction l1 as [|x l1 IH]; intros p; [simpl; tauto|].
  cbn [nondecreasing_from app]. intros [Hp Hl1] Hl2.
  split; [exact Hp|]. apply IH; [exact Hl1|].
  rewrite last_cons in Hl2. destruct (last l1); exact Hl2.
Qed.

Lemma nondecreasing_from_last p l x :
  nondecreasing_from p l -> last l = Some x -> p <= x.
Proof.
  revert p. induction l as [|y l IH]; intros p; [discriminate|].
  cbn [nondecreasing_from]. intros [Hp Hl]. rewrite last_cons.
  destruct (last l) as [z|] eqn:E.
  - intros [= <-]. specialize (IH y Hl eq_refl). lra.
  - intros [= <-]. exact Hp.
Qed.

Lemma nondecreasing_from_shift p dt l :
  nondecreasing_from p l ->
  nondecreasing_from (p + dt) (map (fun t => t + dt) l).
Proof.
  revert p. induction l as [|x l IH]; intros p; [simpl; tauto|].
  cbn [nondecreasing_from map]. intros [Hp Hl]. split; [lra|]. apply IH, Hl.
Qed.

Lemma nondecreasing_from_nonneg (l : list Q) :
  nondecreasing l -> Forall (Qle 0) l -> nondecreasing_from 0 l.
Proof.
  destruct l as [|x l]; [simpl; tauto|].
  cbn [nondecreasing nondecreasing_from]. intros Hl Hpos.
  split; [|exact Hl]. inversion Hpos; assumption.
Qed.

Lemma times_shift (dt : Q) (rs : list Row) :
  map TimeMin (map (shift_row dt) rs) = map (fun t => t + dt) (map TimeMin rs).
Proof. rewrite !map_map. reflexivity. Qed.

Lemma mergeable_times (df : DataFrame) :
  mergeable df ->
  nondecreasing_from 0 (map TimeMin (rows df))
  /\ exists t, last (map TimeMin (rows df)) = Some t.
Proof.
  intros (Hne & Hsorted & Hpos). split.
  - apply nondecreasing_from_nonneg; [exact Hsorted|].
    apply Forall_map. exact Hpos.
  - destruct df as [|lr df]; [contradiction|].
    cbn [rows map]. rewrite last_cons.
    destruct (last (map TimeMin (map snd df))); eauto.
Qed.

Lemma rows_equiv_refl (rs : list Row) : Forall2 row_equiv rs rs.
Proof.
  induction rs as [|r rs IH]; constructor; [repeat split; reflexivity|exact IH].
Qed.

(** One step of the loop on a mergeable table, with a carried maximum
    [m >= 0]: the block is the table moved by [m] (up to rational
    equality), it starts at or after [m], and the new carried value is
    its last elapsed time. *)
Lemma merge_step (m : Q) (df : DataFrame) :
  0 <= m -> mergeable df ->
  let df' := if gt_nan (Some m) (Some 0) then shift_TimeMin (default 0 (Some m)) df
             else df in
  Forall2 row_equiv (rows df') (map (shift_row m) (rows df))
  /\ nondecreasing_from m (map TimeMin (rows df'))
  /\ exists m' t, series_max (map TimeMin (rows df')) = Some m'
                  /\ last (map TimeMin (rows df)) = Some t
                  /\ m' == t + m
                  /\ m <= m'.
Proof.
  intros Hm Hdf. destruct (mergeable_times df Hdf) as [Hnd [t Ht]].
  cbn [gt_nan]. change (default 0 (Some m)) with m. cbv zeta.
  assert (Hblock : forall df' : DataFrame,
            Forall2 row_equiv (rows df') (map (shift_row m) (rows df)) ->
            nondecreasing_from m (map TimeMin (rows df')) ->
            (exists t', last (map TimeMin (rows df')) = Some t' /\ t' == t + m) ->
            Forall2 row_equiv (rows df') (map (shift_row m) (rows df))
            /\ nondecreasing_from m (map TimeMin (rows df'))
            /\ exists m' t, series_max (map TimeMin (rows df')) = Some m'
                            /\ last (map TimeMin (rows df)) = Some t
                            /\ m' == t + m /\ m <= m').
  { intros df' Heq Hs (t' & Ht' & Htm). split; [exact Heq|]. split; [exact Hs|].
    exists t', t. split; [|split; [exact Ht|split; [exact Htm|]]].
    - rewrite series_max_nondecreasing; [exact Ht'|].
      eapply nondecreasing_from_nondecreasing, Hs.
    - eapply nondecreasing_from_last; eassumption. }
  destruct (Qltb 0 m) eqn:Hpos.
  - apply Hblock.
    + rewrite rows_shift. apply rows_equiv_refl.
    + rewrite rows_shift, times_shift.
      apply (nondecreasing_from_weaken _ (0 + m)); [lra|].
      apply nondecreasing_from_shift, Hnd.
    + rewrite rows_shift, times_shift, last_map, Ht. eexists. split; reflexivity.
  - apply Qltb_ge in Hpos. assert (Hm0 : m == 0) by lra.
    apply Hblock.
    + clear -Hm0. induction (rows df) as [|r rs IH]; constructor; [|exact IH].
      unfold row_equiv, shift_row. cbn [TimeMin Vol Crate]. rewrite Hm0.
      repeat split; try reflexivity. lra.
    + eapply nondecreasing_from_weaken; [|exact Hnd]. lra.
    + exists t. split; [exact Ht|]. lra.
Qed.

Lemma merge_loop_sorted (tables : list DataFrame) :
  forall m, 0 <= m -> Forall mergeable tables ->
  nondecreasing_from m
    (map TimeMin (concat (map rows (merge_loop tables (Some m))))).
Proof.
  induction tables as [|df rest IH]; intros m Hm Hall; [exact I|].
  inversion Hall as [|? ? Hdf Hrest]; subst.
  destruct (merge_step m df Hm Hdf) as (_ & Hblock & m' & t & Hmax & Ht & Hmt & Hmm').
  cbv zeta in Hblock, Hmax.
  cbn [merge_loop map concat]. rewrite Hmax, map_app.
  apply nondecreasing_from_app; [exact Hblock|].
  assert (Hlast : last (map TimeMin
                          (rows (if gt_nan (Some m) (Some 0)
                                 then shift_TimeMin (default 0 (Some m)) df else df)))
                  = Some m').
  { rewrite <- Hmax. symmetry. apply series_max_nondecreasing.
    eapply nondecreasing_from_nondecreasing, Hblock. }
  rewrite Hlast. cbn [default]. apply IH; [lra|exact Hrest].
Qed.

Lemma rows_equiv_trans (l1 l2 l3 : list Row) :
  Forall2 row_equiv l1 l2 -> Forall2 row_equiv l2 l3 -> Forall2 row_equiv l1 l3.
Proof.
  intros H12. revert l3. induction H12 as [|a b l1 l2 Hab _ IH]; intros l3 H23.
  - inversion H23. constructor.
  - inversion H23 as [|? c ? l3' Hbc Hrest]; subst. constructor; [|apply IH, Hrest].
    destruct Hab as (H1 & H2 & H3), Hbc as (H4 & H5 & H6).
    repeat split; etransitivity; eassumption.
Qed.

Lemma shift_rows_equiv (a b : Q) (rs : list Row) :
  a == b -> Forall2 row_equiv (map (shift_row a) rs) (map (shift_row b) rs).
Proof.
  intros Hab. induction rs as [|r rs IH]; constructor; [|exact IH].
  unfold row_equiv, shift_row. cbn [TimeMin Vol Crate]. rewrite Hab.
  repeat split; reflexivity.
Qed.

Lemma running_max_app (appended : list Row) (t : Q) (block : list Row) :
  0 <= running_max appended ->
  nondecreasing_from 0 (map TimeMin block) ->
  last (map TimeMin block) = Some t ->
  running_max (appended ++ map (shift_row (running_max appended)) block)
  = t + running_max appended.
Proof.
  intros Hrm Hnd Hlast. unfold running_max at 1.
  rewrite map_app, fold_left_app. fold (running_max appended).
  rewrite times_shift, fold_max_nondecreasing.
  - rewrite last_map, Hlast. reflexivity.
  - apply (nondecreasing_from_weaken _ (0 + running_max appended)); [lra|].
    apply nondecreasing_from_shift, Hnd.
Qed.

Lemma merge_loop_spec (tables : list DataFrame) :
  forall (appended : list Row) (m : Q),
  0 <= m -> m == running_max appended -> Forall mergeable tables ->
  exists suffix,
    spec_merge_from appended (map rows tables) = appended ++ suffix
    /\ Forall2 row_equiv (concat (map rows (merge_loop tables (Some m)))) suffix.
Proof.
  induction tables as [|df rest IH]; intros appended m Hm Hrm Hall.
  - exists []. cbn. rewrite app_nil_r. split; [reflexivity|constructor].
  - inversion Hall as [|? ? Hdf Hrest]; subst.
    destruct (merge_step m df Hm Hdf) as (Heq & _ & m' & t & Hmax & Ht & Hmt & Hmm').
    cbv zeta in Heq, Hmax.
    destruct (mergeable_times df Hdf) as [Hnd _].
    cbn [merge_loop map concat spec_merge_from]. rewrite Hmax.
    destruct (IH (appended ++ map (shift_row (running_max appended)) (rows df)) m')
      as (suffix & Hspec & Hrows).
    + lra.
    + rewrite (running_max_app appended t (rows df)); [|lra|exact Hnd|exact Ht].
      rewrite Hmt, Hrm. reflexivity.
    + exact Hrest.
    + exists (map (shift_row (running_max appended)) (rows df) ++ suffix).
      split; [rewrite Hspec, <- app_assoc; reflexivity|].
      apply Forall2_app; [|exact Hrows].
      eapply rows_equiv_trans; [exact Heq|]. apply shift_rows_equiv, Hrm.
Qed.

Lemma length_range_index (rs : list Row) : length (range_index rs) = length rs.
Proof.
  rewrite <- (rows_range_index rs) at 2. unfold rows.
  rewrite List.length_map. reflexivity.
Qed.

(** X4: the part of C3 that the code keeps: on a well-formed container,
    [get_cycle_range] fails with the empty-range error exactly when no
    cycle of the range is stored; otherwise it returns a new frame whose
    row count is the sum of the row counts of the stored tables of the
    range; and when none of those tables is empty (each sorted, with
    non-negative times) the frame is their concatenation, each table
    after the first shifted by the running maximum, and its elapsed-time
    column never decreases. *)
Theorem get_cycle_range_merges (h : heap) (self : CycleDataContainer) (start stop : Z) :
  container_ok h self ->
  let tables := tables_in_range h self start stop in
  (tables = [] ->
   get_cycle_range self start stop h
   = (Raise (Exn ValueError (No_cycles_found_in_range start stop)), h))
  /\ (tables <> [] ->
      exists r merged,
        outcome (get_cycle_range self start stop) h = Ok r
        /\ frame_at (run (get_cycle_range self start stop) h) r = Some merged
        /\ length merged = list_sum (map (fun df : DataFrame => length df) tables)
        /\ (Forall mergeable tables ->
            Forall2 row_equiv (rows merged) (spec_merge (map rows tables))
            /\ nondecreasing (map TimeMin (rows merged)))).
Proof.
  intros Hok. cbv zeta. pose proof (get_cycle_range_run h self start stop Hok) as Hrun.
  destruct (tables_in_range h self start stop) as [|t ts] eqn:Htables.
  - split; [intros _; exact Hrun|intros H; contradiction].
  - split; [discriminate|]. intros _.
    cbv zeta in Hrun. unfold outcome, run. rewrite Hrun. cbn [fst snd].
    set (tables := t :: ts) in *.
    set (merged := merge_loop tables (Some 0)).
    exists (length h + length tables)%nat, (concat_ignore_index merged).
    split; [reflexivity|]. split; [|split].
    + unfold frame_at.
      replace (length h + length tables)%nat with (length (h ++ map OFrame merged)).
      * rewrite lookup_alloc_new. reflexivity.
      * rewrite length_app, List.length_map. unfold merged.
        rewrite length_merge_loop. reflexivity.
    + unfold concat_ignore_index. rewrite length_range_index.
      apply rows_merge_loop_length.
    + intros Hall. unfold concat_ignore_index. rewrite rows_range_index. split.
      * destruct (merge_loop_spec tables [] 0) as (suffix & Hspec & Hrows);
          [lra|reflexivity|exact Hall|].
        unfold spec_merge. rewrite Hspec. exact Hrows.
      * eapply nondecreasing_from_nondecreasing.
        apply (merge_loop_sorted tables 0); [lra|exact Hall].
Qed.

(** ** C4: what the offsets of the linked analyzer do guarantee *)

Lemma Zmax_list_ge (x : Z) (l : list Z) : (x <= Zmax_list x l)%Z.
Proof.
  unfold Zmax_list. revert x. induction l as [|y l IH]; intros x; simpl; [lia|].
  specialize (IH (Z.max x y)). lia.
Qed.

Lemma Zmax_list_upper (x : Z) (l : list Z) a :
  In a (x :: l) -> (a <= Zmax_list x l)%Z.
Proof.
  unfold Zmax_list. revert x. induction l as [|y l IH]; intros x.
  - intros [->|[]]. simpl. lia.
  - intros [->|[->|Hin]]; simpl.
    + pose proof (Zmax_list_ge (Z.max a y) l). unfold Zmax_list in *. lia.
    + pose proof (Zmax_list_ge (Z.max x a) l). unfold Zmax_list in *. lia.
    + apply IH. right. exact Hin.
Qed.

Lemma next_offset_ge (offset : Z) (loaded_cycles : list Z) :
  (offset <= Linked.next_offset offset loaded_cycles)%Z.
Proof. destruct loaded_cycles; simpl; lia. Qed.

Lemma next_offset_upper (offset : Z) (loaded_cycles : list Z) a :
  In a loaded_cycles -> (a <= Linked.next_offset offset loaded_cycles)%Z.
Proof.
  destruct loaded_cycles as [|c cs]; [intros []|].
  intros Hin. cbn [Linked.next_offset].
  pose proof (Zmax_list_upper c cs a Hin). lia.
Qed.

Lemma offsets_nondecreasing (paths : list (list Z)) :
  forall offset, Z_nondecreasing (offsets offset paths).
Proof.
  induction paths as [|p rest IH]; intros offset i a b; [discriminate|].
  destruct i as [|i].
  - cbn [offsets]. intros [= <-]. destruct rest as [|q rest]; [discriminate|].
    cbn [offsets]. intros [= <-]. apply next_offset_ge.
  - cbn [offsets]. apply (IH (Linked.next_offset offset p) i a b).
Qed.

Lemma analyze_cycles_numbers (cfg : CapacityConfig) (container : CycleDataContainer)
  (cyclepath cyclename : string) (offset : Z) :
  forall (loaded_cycles : list Z) (h : heap) r h',
  Linked.analyze_cycles cfg container cyclepath cyclename offset loaded_cycles h
  = (r, h') ->
  extends h h'
  /\ forall path_summary,
       r = Ok path_summary ->
       map Linked.Local_Cycle path_summary = loaded_cycles
       /\ map Linked.Global_Cycle path_summary = map (Z.add offset) loaded_cycles.
Proof.
  induction loaded_cycles as [|n rest IH]; intros h r h' E.
  - injection E as <- <-. split; [apply extends_refl|].
    intros ps [= <-]. split; reflexivity.
  - cbn [Linked.analyze_cycles] in E. rewrite M_bind_unfold in E.
    destruct (get_cycle_run container n h) as [(df & _ & Hg)|(e & Hg)];
      rewrite Hg in E;
      [|injection E as <- <-; split; [apply extends_refl|discriminate]].
    assert (Hext : extends h (h ++ [OFrame df])) by (exists [OFrame df]; reflexivity).
    rewrite M_bind_unfold, read_frame_new, M_bind_unfold in E. unfold lift at 1 in E.
    destruct (calculate_ir df) as [dcir|e];
      [|injection E as <- <-; split; [exact Hext|discriminate]].
    rewrite M_bind_unfold in E.
    destruct (Linked.analyze_cycles cfg container cyclepath cyclename offset rest
                (h ++ [OFrame df])) as [r1 h1] eqn:E1.
    destruct (IH _ _ _ E1) as [Hext' Hnum].
    destruct r1 as [ps|e]; injection E as <- <-.
    + split; [eapply extends_trans; eassumption|].
      intros path_summary [= <-]. destruct (Hnum ps eq_refl) as [Hl Hg'].
      cbn [map Linked.Local_Cycle Linked.Global_Cycle]. rewrite Hl, Hg'.
      split; reflexivity.
    + split; [eapply extends_trans; eassumption|discriminate].
Qed.

Lemma stored_cycles_extends (h h' : heap) (self : CycleDataContainer) d :
  extends h h' -> stored_cycles h self = Some d -> stored_cycles h' self = Some d.
Proof.
  intros Hext Hd. pose proof (stored_cycles_lookup h self d Hd) as Hlk.
  unfold stored_cycles.
  rewrite (extends_lookup h h') by (try exact Hext; eapply lookup_lt_Some, Hlk).
  rewrite Hlk. reflexivity.
Qed.

Lemma manifest_paths_extends (h h' : heap) (containers : pydict CycleDataContainer)
  (tsv_data : list (string * string)) :
  extends h h' ->
  (forall path c, In (path, c) containers -> is_Some (stored_cycles h c)) ->
  manifest_paths h' containers tsv_data = manifest_paths h containers tsv_data.
Proof.
  intros Hext Hok. unfold manifest_paths.
  induction tsv_data as [|[path name] rest IH]; [reflexivity|].
  cbn [omap list_omap fst]. rewrite IH.
  destruct (dict_get String.eqb path containers) as [c|] eqn:E; [|reflexivity].
  cbn [mbind option_bind].
  destruct (Hok path c) as [d Hd].
  { apply (dict_get_In String.eqb String.eqb_eq), E. }
  rewrite (stored_cycles_extends h h' c d Hext Hd), Hd. reflexivity.
Qed.

Lemma analyze_paths_numbers (cfg : CapacityConfig)
  (containers : pydict CycleDataContainer) :
  forall (tsv_data : list (string * string)) (offset : Z) (acc : Linked.Results)
         (h : heap) (results : Linked.Results),
  (forall path c, In (path, c) containers -> is_Some (stored_cycles h c)) ->
  fst (Linked.analyze_paths cfg containers tsv_data offset acc h) = Ok results ->
  map Linked.Global_Cycle (Linked.summary results)
  = map Linked.Global_Cycle (Linked.summary acc)
    ++ global_numbers offset (manifest_paths h containers tsv_data).
Proof.
  induction tsv_data as [|[cyclepath cyclename] rest IH];
    intros offset acc h results Hok.
  - cbn. intros [= <-]. rewrite app_nil_r. reflexivity.
  - cbn [Linked.analyze_paths]. unfold manifest_paths. cbn [omap list_omap fst].
    fold (manifest_paths h containers rest).
    destruct (dict_get String.eqb cyclepath containers) as [c|] eqn:Hc;
      cbn [mbind option_bind]; [|apply IH, Hok].
    destruct (Hok cyclepath c) as [d Hd].
    { apply (dict_get_In String.eqb String.eqb_eq), Hc. }
    rewrite Hd. rewrite M_bind_unfold. unfold get_loaded_cycle_numbers.
    rewrite M_bind_unfold, (read_cycles_ok h _ d (stored_cycles_lookup h c d Hd)).
    cbn [mret M_ret]. rewrite M_bind_unfold.
    set (loaded := merge_sort Z.le (dict_keys d)).
    destruct (Linked.analyze_cycles cfg c cyclepath cyclename offset loaded h)
      as [r1 h1] eqn:E1.
    destruct (analyze_cycles_numbers cfg c cyclepath cyclename offset loaded h
                r1 h1 E1) as [Hext Hnum].
    destruct r1 as [ps|e]; [|discriminate].
    destruct (Hnum ps eq_refl) as [_ Hg].
    intros Hres. apply IH in Hres.
    + rewrite Hres. cbn [Linked.summary global_numbers].
      rewrite map_app, Hg, <- app_assoc.
      rewrite (manifest_paths_extends h h1 containers rest Hext Hok). reflexivity.
    + intros path c' Hin. destruct (Hok path c' Hin) as [d' Hd'].
      exists d'. eapply stored_cycles_extends; eassumption.
Qed.

(** X5: the part of C4 that the code keeps: the global numbers are the
    local numbers of each path moved by the offset in force for that
    path; the first offset is 0, every later offset is the maximum of
    the offset before it and the largest local number of the path just
    numbered, so the offsets never decrease. *)
Theorem linked_global_numbers (cfg : CapacityConfig)
  (containers : pydict CycleDataContainer) (tsv_data : list (string * string))
  (h : heap) (results : Linked.Results) :
  (forall path c, In (path, c) containers -> is_Some (stored_cycles h c)) ->
  outcome (Linked.analyze cfg containers tsv_data) h = Ok results ->
  let paths := manifest_paths h containers tsv_data in
  map Linked.Global_Cycle (Linked.summary results) = global_numbers 0 paths
  /\ Z_nondecreasing (offsets 0 paths)
  /\ (forall offset loaded_cycles a,
        In a loaded_cycles ->
        (offset <= Linked.next_offset offset loaded_cycles
         /\ a <= Linked.next_offset offset loaded_cycles)%Z).
Proof.
  intros Hok Hres. cbv zeta. split; [|split].
  - apply (analyze_paths_numbers cfg containers tsv_data 0 _ h results Hok Hres).
  - apply offsets_nondecreasing.
  - intros offset loaded a Hin. split;
      [apply next_offset_ge|apply next_offset_upper, Hin].
Qed.

(** ** C2: what the bulk load guarantees for the PNE loader *)

Lemma container_ok_cycles (h : heap) (self : CycleDataContainer) :
  container_ok h self ->
  exists d, h !! _cycles self = Some (OCycles d)
            /\ forall n l, In (n, l) d ->
                 l <> _cycles self /\ l <> _metadata self
                 /\ (l < length h)%nat /\ is_Some (frame_at h l).
Proof.
  intros (_ & (d & Hd & Hmem) & (md & Hmd & _)).
  pose proof (stored_cycles_lookup h self d Hd) as Hlk.
  exists d. split; [exact Hlk|]. intros n l Hin.
  destruct (Hmem n l Hin) as [df Hdf].
  assert (Hl : h !! l = Some (OFrame df)).
  { unfold frame_at in Hdf. destruct (h !! l) as [[]|]; try discriminate.
    injection Hdf as ->. reflexivity. }
  repeat split.
  - intros ->. rewrite Hlk in Hl. discriminate.
  - intros ->. rewrite Hmd in Hl. discriminate.
  - eapply lookup_lt_Some, Hl.
  - eauto.
Qed.

Lemma dict_set_In (n : Z) (l : loc) (d : list (Z * loc)) n' l' :
  In (n', l') (dict_set Z.eqb n l d) -> (n' = n /\ l' = l) \/ In (n', l') d.
Proof.
  induction d as [|[k v] d IH]; simpl.
  - intros [[= <- <-]|[]]. left. split; reflexivity.
  - destruct (k =? n)%Z eqn:E.
    + apply Z.eqb_eq in E. subst k. intros [[= <- <-]|Hin]; [left; split; reflexivity|].
      right. right. exact Hin.
    + intros [Heq|Hin]; [right; left; exact Heq|].
      destruct (IH Hin) as [H|H]; [left; exact H|right; right; exact H].
Qed.

Lemma store_cycle_run (h : heap) (self : CycleDataContainer) (n : Z) (df : DataFrame) :
  container_ok h self ->
  exists h',
    store_cycle self n df h = (Ok tt, h')
    /\ container_ok h' self
    /\ stored_metadata h' self = stored_metadata h self
    /\ forall m, stored_table h' self m
                 = if decide (m = n) then Some df else stored_table h self m.
Proof.
  intros Hok. destruct (container_ok_cycles h self Hok) as (d & Hlk & Hd).
  destruct Hok as (Hne & (d0 & Hd0 & _) & (md & Hmd & Hlists)).
  assert (Hc_lt : (_cycles self < length h)%nat) by (eapply lookup_lt_Some, Hlk).
  assert (Hm_lt : (_metadata self < length h)%nat) by (eapply lookup_lt_Some, Hmd).
  set (d' := dict_set Z.eqb n (length h) d).
  set (h' := <[_cycles self := OCycles d']> (h ++ [OFrame df])).
  assert (Hrun : store_cycle self n df h = (Ok tt, h')).
  { unfold store_cycle. rewrite M_bind_unfold. unfold alloc at 1.
    rewrite M_bind_unfold, (read_cycles_ok _ _ d)
      by (rewrite lookup_alloc_old by exact Hc_lt; exact Hlk).
    reflexivity. }
  assert (Hlk' : h' !! _cycles self = Some (OCycles d')).
  { unfold h'. apply list_lookup_insert_eq. rewrite length_app. simpl. lia. }
  assert (Hother : forall l, l <> _cycles self -> (l < length h)%nat ->
                             h' !! l = h !! l).
  { intros l Hl Hlt. unfold h'. rewrite list_lookup_insert_ne by congruence.
    apply lookup_alloc_old, Hlt. }
  assert (Hnew : frame_at h' (length h) = Some df).
  { unfold frame_at, h'. rewrite list_lookup_insert_ne by lia.
    rewrite lookup_alloc_new. reflexivity. }
  assert (Hd' : stored_cycles h' self = Some d').
  { unfold stored_cycles. rewrite Hlk'. reflexivity. }
  assert (Hframes : forall k l, In (k, l) d' -> is_Some (frame_at h' l)).
  { intros k l Hin. apply dict_set_In in Hin. destruct Hin as [[_ ->]|Hin]; [eauto|].
    destruct (Hd k l Hin) as (H1 & _ & H3 & H4).
    rewrite (frame_at_preserved h h' l); [exact H4|]. apply Hother; assumption. }
  assert (Hmd' : h' !! _metadata self = Some (OMeta md)).
  { rewrite Hother by (try lia; congruence). exact Hmd. }
  assert (Hvals : forall k l, In (k, VListRef l) md -> h' !! l = h !! l).
  { intros k l Hin. destruct (Hlists k l Hin) as [xs Hxs].
    apply Hother; [|eapply lookup_lt_Some, Hxs].
    intros ->. rewrite Hlk in Hxs. discriminate. }
  exists h'. split; [exact Hrun|]. split; [|split].
  - split; [exact Hne|]. split.
    + exists d'. split; [exact Hd'|exact Hframes].
    + exists md. split; [exact Hmd'|]. intros k l Hin.
      destruct (Hlists k l Hin) as [xs Hxs]. exists xs.
      rewrite (Hvals k l Hin). exact Hxs.
  - unfold stored_metadata. rewrite Hmd', Hmd. f_equal.
    apply map_ext_in. intros [k v] Hin. f_equal.
    destruct v as [s|a b|l]; try reflexivity.
    cbn [snd metadata_value_at]. rewrite (Hvals k l Hin). reflexivity.
  - intros m. rewrite (stored_table_dict h' self d' m Hd').
    assert (Hd_eq : stored_cycles h self = Some d).
    { unfold stored_cycles. rewrite Hlk. reflexivity. }
    rewrite (stored_table_dict h self d m Hd_eq). unfold d'.
    destruct (decide (m = n)) as [->|Hmn].
    + rewrite (dict_get_set_eq Z.eqb Zeqb_eq). exact Hnew.
    + rewrite (dict_get_set_ne Z.eqb Zeqb_eq) by congruence.
      destruct (dict_get Z.eqb m d) as [l|] eqn:E; [|reflexivity].
      destruct (Hd m l (dict_get_In Z.eqb Zeqb_eq m l d E)) as (H1 & _ & H3 & _).
      apply frame_at_preserved, Hother; assumption.
Qed.

Lemma dict_get_map {K V W} (eqb : K -> K -> bool) (f : V -> W) (k : K)
  (d : list (K * V)) :
  dict_get eqb k (map (fun kv => (fst kv, f (snd kv))) d)
  = option_map f (dict_get eqb k d).
Proof.
  induction d as [|[k0 v0] d IH]; [reflexivity|].
  cbn [map dict_get fst snd]. destruct (eqb k0 k); [reflexivity|exact IH].
Qed.

Lemma dict_set_In_str {V} (k : string) (v : V) (d : pydict V) k' v' :
  In (k', v') (dict_set String.eqb k v d) -> (k' = k /\ v' = v) \/ In (k', v') d.
Proof.
  induction d as [|[k0 v0] d IH]; simpl.
  - intros [[= <- <-]|[]]. left. split; reflexivity.
  - destruct (String.eqb k0 k) eqn:E.
    + apply String.eqb_eq in E. subst k0.
      intros [[= <- <-]|Hin]; [left; split; reflexivity|]. right. right. exact Hin.
    + intros [Heq|Hin]; [right; left; exact Heq|].
      destruct (IH Hin) as [H|H]; [left; exact H|right; right; exact H].
Qed.

(** [self._metadata[key] = v] keeps the container well formed and its
    tables in place. *)
Lemma setitem_metadata_run (h : heap) (self : CycleDataContainer) (key : string)
  (v : pyval) :
  container_ok h self ->
  (forall l, v = VListRef l -> exists xs, h !! l = Some (OList xs)) ->
  exists h' md,
    setitem_metadata self key v h = (Ok tt, h')
    /\ container_ok h' self
    /\ length h' = length h
    /\ h' !! _cycles self = h !! _cycles self
    /\ (forall m, stored_table h' self m = stored_table h self m)
    /\ stored_metadata h self = Some md
    /\ exists md', stored_metadata h' self = Some md'
                   /\ dict_get String.eqb key md' = Some (metadata_value_at h v)
                   /\ forall k, k <> key ->
                        dict_get String.eqb k md' = dict_get String.eqb k md.
Proof.
  intros Hok Hv. destruct (container_ok_cycles h self Hok) as (d & Hlk & Hd).
  destruct Hok as (Hne & _ & (md & Hmd & Hlists)).
  set (md' := dict_set String.eqb key v md).
  set (h' := <[_metadata self := OMeta md']> h).
  assert (Hm_lt : (_metadata self < length h)%nat) by (eapply lookup_lt_Some, Hmd).
  assert (Hrun : setitem_metadata self key v h = (Ok tt, h')).
  { unfold setitem_metadata, read_meta. rewrite M_bind_unfold, Hmd. reflexivity. }
  assert (Hother : forall l, l <> _metadata self -> h' !! l = h !! l).
  { intros l Hl. unfold h'. apply list_lookup_insert_ne. congruence. }
  assert (Hmd' : h' !! _metadata self = Some (OMeta md')).
  { unfold h'. apply list_lookup_insert_eq, Hm_lt. }
  assert (Hlk' : h' !! _cycles self = h !! _cycles self) by (apply Hother, Hne).
  assert (Hd_eq : stored_cycles h self = Some d).
  { unfold stored_cycles. rewrite Hlk. reflexivity. }
  assert (Hd' : stored_cycles h' self = Some d).
  { unfold stored_cycles. rewrite Hlk', Hlk. reflexivity. }
  assert (Hframes : forall n l, In (n, l) d -> frame_at h' l = frame_at h l).
  { intros n l Hin. destruct (Hd n l Hin) as (_ & H2 & _).
    apply frame_at_preserved, Hother, H2. }
  assert (Hlist_ok : forall k l, In (k, VListRef l) md' ->
                       h' !! l = h !! l /\ exists xs, h !! l = Some (OList xs)).
  { intros k l Hin. apply dict_set_In_str in Hin.
    assert (Hxs : exists xs, h !! l = Some (OList xs)).
    { destruct Hin as [[_ <-]|Hin]; [apply Hv; reflexivity|apply (Hlists k l Hin)]. }
    split; [|exact Hxs]. destruct Hxs as [xs Hxs].
    apply Hother. intros ->. rewrite Hmd in Hxs. discriminate. }
  assert (Hval : forall w, (forall l, w = VListRef l ->
                              exists xs, h !! l = Some (OList xs)) ->
                           metadata_value_at h' w = metadata_value_at h w).
  { intros w Hw. destruct w as [s|a b|l]; try reflexivity.
    cbn [metadata_value_at]. destruct (Hw l eq_refl) as [xs Hxs].
    rewrite Hother; [reflexivity|]. intros ->. rewrite Hmd in Hxs. discriminate. }
  exists h', (map (fun kv => (fst kv, metadata_value_at h (snd kv))) md).
  split; [exact Hrun|]. split; [|split; [|split; [|split; [|split]]]].
  - split; [exact Hne|]. split.
    + exists d. split; [exact Hd'|]. intros n l Hin.
      rewrite (Hframes n l Hin). apply (Hd n l Hin).
    + exists md'. split; [exact Hmd'|]. intros k l Hin.
      destruct (Hlist_ok k l Hin) as [Heq [xs Hxs]]. exists xs.
      rewrite Heq. exact Hxs.
  - unfold h'. apply length_insert.
  - exact Hlk'.
  - intros m. rewrite (stored_table_dict h' self d m Hd'),
      (stored_table_dict h self d m Hd_eq).
    destruct (dict_get Z.eqb m d) as [l|] eqn:E; [|reflexivity].
    apply (Hframes m l), (dict_get_In Z.eqb Zeqb_eq), E.
  - unfold stored_metadata. rewrite Hmd. reflexivity.
  - exists (map (fun kv => (fst kv, metadata_value_at h' (snd kv))) md').
    split; [unfold stored_metadata; rewrite Hmd'; reflexivity|]. split.
    + rewrite dict_get_map. unfold md'.
      rewrite (dict_get_set_eq String.eqb String.eqb_eq). cbn [option_map].
      f_equal. apply Hval, Hv.
    + intros k Hk. rewrite !dict_get_map. unfold md'.
      rewrite (dict_get_set_ne String.eqb String.eqb_eq) by congruence.
      destruct (dict_get String.eqb k md) as [w|] eqn:E; [|reflexivity].
      cbn [option_map]. f_equal. apply Hval. intros l ->.
      apply (Hlists k l), (dict_get_In String.eqb String.eqb_eq), E.
Qed.

Lemma save_metadata_run (h : heap) (self : CycleDataContainer) (data_path : string)
  (start stop : Z) :
  container_ok h self ->
  exists h' d md,
    save_metadata self data_path start stop h = (Ok tt, h')
    /\ container_ok h' self
    /\ (forall m, stored_table h' self m = stored_table h self m)
    /\ stored_cycles h self = Some d
    /\ stored_metadata h' self = Some md
    /\ dict_get String.eqb "data_path" md = Some (MStr data_path)
    /\ dict_get String.eqb "cycle_range" md = Some (MRange start stop)
    /\ dict_get String.eqb "loaded_cycles" md = Some (MList (dict_keys d)).
Proof.
  intros Hok. unfold save_metadata.
  destruct (setitem_metadata_run h self "data_path" (VStr data_path) Hok)
    as (h1 & md0 & Hrun1 & Hok1 & Hlen1 & Hc1 & Ht1 & _ & md1 & Hmd1 & Hk1 & _).
  { intros l [=]. }
  destruct (setitem_metadata_run h1 self "cycle_range" (VRange start stop) Hok1)
    as (h2 & md1' & Hrun2 & Hok2 & Hlen2 & Hc2 & Ht2 & Hmd1' & md2 & Hmd2 & Hk2 & Hk2').
  { intros l [=]. }
  rewrite Hmd1 in Hmd1'. injection Hmd1' as <-.
  destruct (container_ok_cycles h self Hok) as (d & Hlk & _).
  assert (Hlk2 : h2 !! _cycles self = Some (OCycles d)) by (rewrite Hc2, Hc1; exact Hlk).
  assert (Hext : extends h2 (h2 ++ [OList (dict_keys d)])).
  { exists [OList (dict_keys d)]. reflexivity. }
  destruct (stored_views_extend h2 _ self Hok2 Hext) as (Ht3 & Hm3 & Hok3).
  destruct (setitem_metadata_run (h2 ++ [OList (dict_keys d)]) self "loaded_cycles"
              (VListRef (length h2)) Hok3)
    as (h4 & md3 & Hrun4 & Hok4 & _ & _ & Ht4 & Hmd3 & md4 & Hmd4 & Hk4 & Hk4').
  { intros l [= <-]. exists (dict_keys d). apply lookup_alloc_new. }
  rewrite Hm3, Hmd2 in Hmd3. injection Hmd3 as <-.
  exists h4, d, md4.
  split.
  { rewrite M_bind_unfold, Hrun1, M_bind_unfold, Hrun2.
    rewrite M_bind_unfold, (read_cycles_ok h2 _ d Hlk2).
    rewrite M_bind_unfold. unfold alloc at 1. exact Hrun4. }
  split; [exact Hok4|]. split.
  { intros m. rewrite Ht4, Ht3, Ht2, Ht1. reflexivity. }
  split; [unfold stored_cycles; rewrite Hlk; reflexivity|].
  split; [exact Hmd4|]. split; [|split].
  - rewrite Hk4' by discriminate. rewrite Hk2' by discriminate. exact Hk1.
  - rewrite Hk4' by discriminate. exact Hk2.
  - rewrite Hk4. cbn [metadata_value_at]. rewrite lookup_alloc_new. reflexivity.
Qed.

Lemma load_loop_PNE (fs : FileSystem) (self : CycleDataContainer) (data_path : string) :
  forall (cycle_nos : list Z) (h : heap),
  container_ok h self ->
  (forall n e, In n cycle_nos -> PNE_load_cycle fs data_path n = Raise e ->
               exn_cls e = FileNotFoundError) ->
  exists h',
    load_loop fs self data_path cycle_nos PNE h = (Ok tt, PNE, h')
    /\ container_ok h' self
    /\ stored_metadata h' self = stored_metadata h self
    /\ forall m, stored_table h' self m
                 = match PNE_load_cycle fs data_path m with
                   | Ok df => if in_dec Z.eq_dec m cycle_nos then Some df
                              else stored_table h self m
                   | Raise _ => stored_table h self m
                   end.
Proof.
  induction cycle_nos as [|n rest IH]; intros h Hok Hfnf.
  - exists h. split; [reflexivity|]. split; [exact Hok|]. split; [reflexivity|].
    intros m. destruct (PNE_load_cycle fs data_path m); [|reflexivity].
    destruct (in_dec Z.eq_dec m []) as [[]|_]. reflexivity.
  - cbn [load_loop load_cycle PNE_loader].
    destruct (PNE_load_cycle fs data_path n) as [df|e] eqn:Hload.
    + destruct (store_cycle_run h self n df Hok) as (h1 & Hrun & Hok1 & Hm1 & Ht1).
      rewrite Hrun.
      destruct (IH h1 Hok1) as (h' & Hloop & Hok' & Hm' & Ht').
      { intros k e Hin. apply Hfnf. right. exact Hin. }
      exists h'. split; [exact Hloop|]. split; [exact Hok'|].
      split; [rewrite Hm'; exact Hm1|].
      intros m. rewrite Ht', Ht1.
      destruct (PNE_load_cycle fs data_path m) as [df'|e'] eqn:Hm.
      * destruct (in_dec Z.eq_dec m rest) as [Hin|Hnin].
        -- destruct (in_dec Z.eq_dec m (n :: rest)) as [_|Hc]; [reflexivity|].
           exfalso. apply Hc. right. exact Hin.
        -- destruct (decide (m = n)) as [->|Hmn].
           ++ rewrite Hload in Hm. injection Hm as <-.
              destruct (in_dec Z.eq_dec n (n :: rest)) as [_|Hc]; [reflexivity|].
              exfalso. apply Hc. left. reflexivity.
           ++ destruct (in_dec Z.eq_dec m (n :: rest)) as [[Hc|Hc]|_];
                [congruence|contradiction|reflexivity].
      * destruct (decide (m = n)) as [->|Hmn]; [|reflexivity].
        rewrite Hload in Hm. discriminate.
    + rewrite (Hfnf n e (or_introl eq_refl) Hload). cbn [exn_class_eqb].
      destruct (IH h Hok) as (h' & Hloop & Hok' & Hm' & Ht').
      { intros k e' Hin. apply Hfnf. right. exact Hin. }
      exists h'. split; [exact Hloop|]. split; [exact Hok'|].
      split; [exact Hm'|].
      intros m. rewrite Ht'.
      destruct (PNE_load_cycle fs data_path m) as [df'|e'] eqn:Hm; [|reflexivity].
      destruct (in_dec Z.eq_dec m rest) as [Hin|Hnin].
      * destruct (in_dec Z.eq_dec m (n :: rest)) as [_|Hc]; [reflexivity|].
        exfalso. apply Hc. right. exact Hin.
      * destruct (in_dec Z.eq_dec m (n :: rest)) as [[Hc|Hc]|_];
          [|contradiction|reflexivity].
        subst m. rewrite Hload in Hm. discriminate.
Qed.

(** X6: the part of C2 that the code keeps.  With the PNE loader, and
    cycle files that have the required columns, the bulk load over an
    explicit range never aborts: every cycle of the range whose file
    loads is stored, every cycle whose file is missing is skipped, and
    the metadata is recorded. *)
Theorem PNE_bulk_load_skips_missing (fs : FileSystem) (self : CycleDataContainer)
  (data_path : string) (start stop : Z) (h : heap) :
  container_ok h self ->
  (forall n e, In n (inclusive_range start stop) ->
               PNE_load_cycle fs data_path n = Raise e ->
               exn_cls e = FileNotFoundError) ->
  exists h' md,
    load_all_cycles fs self data_path PNE (Some (start, stop)) h = (Ok tt, PNE, h')
    /\ (forall m, stored_table h' self m
                  = match PNE_load_cycle fs data_path m with
                    | Ok df => if in_dec Z.eq_dec m (inclusive_range start stop)
                               then Some df else stored_table h self m
                    | Raise _ => stored_table h self m
                    end)
    /\ stored_metadata h' self = Some md
    /\ dict_get String.eqb "data_path" md = Some (MStr data_path)
    /\ dict_get String.eqb "cycle_range" md = Some (MRange start stop).
Proof.
  intros Hok Hfnf. unfold load_all_cycles.
  destruct (load_loop_PNE fs self data_path (inclusive_range start stop) h Hok Hfnf)
    as (h1 & Hloop & Hok1 & _ & Ht1).
  rewrite Hloop.
  destruct (save_metadata_run h1 self data_path start stop Hok1)
    as (h2 & d & md & Hsave & _ & Ht2 & _ & Hmd & Hk1 & Hk2 & _).
  rewrite Hsave. exists h2, md. split; [reflexivity|].
  split; [intros m; rewrite Ht2; apply Ht1|].
  split; [exact Hmd|]. split; assumption.
Qed.

(** ** Sign of the capacities *)

Lemma table_integral_from_abs_nonneg (sel : Row -> bool) prev (table : list Row) :
  0 <= table_integral_from sel Qabs prev table.
Proof.
  revert prev. induction table as [|r rest IH]; intros prev; cbn [table_integral_from].
  - lra.
  - specialize (IH (TimeMin r)).
    destruct (sel r); [|lra].
    pose proof (Qabs_nonneg (Crate r * (TimeMin r - prev))). lra.
Qed.

Lemma table_integral_from_charge_nonneg prev (table : list Row) :
  nondecreasing_from prev (map TimeMin table) ->
  0 <= table_integral_from is_charge (fun x => x) prev table.
Proof.
  revert prev. induction table as [|r rest IH]; intros prev; simpl.
  - intros _. lra.
  - intros [Hp Hs]. specialize (IH _ Hs).
    destruct (is_charge r) eqn:Hc; [|lra].
    unfold is_charge in Hc. apply Qltb_lt in Hc.
    assert (0 <= Crate r * (TimeMin r - prev)) by (apply Qmult_le_0_compat; lra).
    lra.
Qed.

(** X7: on a table sorted by elapsed time, and with a non-negative capacity
    basis, both capacities returned by the code are non-negative. *)
Lemma capacities_nonneg (cfg : CapacityConfig) (df : DataFrame) :
  time_sorted (rows df) -> 0 <= capacity_base cfg ->
  let res := _calculate_cycle_capacity cfg df in
  0 <= discharge_capacity res /\ 0 <= charge_capacity res.
Proof.
  intros Hsorted Hbase. cbn zeta. unfold _calculate_cycle_capacity.
  cbn [discharge_capacity charge_capacity].
  rewrite (capacity_sum is_discharge Qabs df).
  rewrite (capacity_sum is_charge (fun x => x) df).
  unfold time_sorted in Hsorted.
  destruct (rows df) as [|r rest]; cbn [table_integral map nondecreasing] in *.
  - split; lra.
  - split; apply Qmult_le_0_compat; try exact Hbase.
    + pose proof (table_integral_from_abs_nonneg is_discharge (TimeMin r) rest).
      destruct (is_discharge r); [|lra].
      pose proof (Qabs_nonneg (Crate r * 0)). lra.
    + pose proof (table_integral_from_charge_nonneg (TimeMin r) rest Hsorted).
      destruct (is_charge r); [|lra].
      assert (Crate r * 0 == 0) by ring. lra.
Qed.

(** ** Decimal text *)

Lemma fold_digits_uint (u : Decimal.uint) (acc : Z) :
  fold_left (fun acc c => acc * 10 + (Z.of_nat (nat_of_ascii c) - 48))%Z
    (list_ascii_of_string (NilEmpty.string_of_uint u)) acc
  = uint_value acc u.
Proof.
  revert acc. induction u; intros acc; cbn [NilEmpty.string_of_uint list_ascii_of_string
    fold_left uint_value]; try reflexivity; rewrite <- IHu; reflexivity.
Qed.

Lemma uint_value_pos (u : Decimal.uint) (p : positive) :
  uint_value (Zpos p) u = Zpos (Pos.of_uint_acc u p).
Proof.
  revert p. induction u; intros p; cbn [uint_value Pos.of_uint_acc]; try reflexivity;
    rewrite <- IHu; f_equal; lia.
Qed.

Lemma uint_value_0 (u : Decimal.uint) : uint_value 0 u = Z.of_N (Pos.of_uint u).
Proof.
  induction u; cbn [uint_value Pos.of_uint]; try reflexivity;
    try (exact IHu); cbn [Z.mul Z.add Z.of_N]; apply uint_value_pos.
Qed.

Lemma int_of_digits_fold (ds : list ascii) (acc : Z) :
  fold_left (fun acc c => acc * 10 + (Z.of_nat (nat_of_ascii c) - 48))%Z ds acc
  = fold_left (fun acc c => acc * 10 + digit_value c)%Z ds acc.
Proof. reflexivity. Qed.

Lemma uint_digits (u : Decimal.uint) :
  Forall (fun c => is_digit c = true) (list_ascii_of_string (NilEmpty.string_of_uint u)).
Proof.
  induction u; cbn [NilEmpty.string_of_uint list_ascii_of_string]; constructor;
    solve [reflexivity | exact IHu].
Qed.

Lemma uint_text_nonempty (u : Decimal.uint) :
  u <> Decimal.Nil -> list_ascii_of_string (NilEmpty.string_of_uint u) <> [].
Proof.
  destruct u; cbn [NilEmpty.string_of_uint list_ascii_of_string]; congruence.
Qed.

(** [str(n)] of a non-negative int: a non-empty run of digits that
    reads back as [n]. *)
Lemma str_of_int_digits (n : Z) :
  (0 <= n)%Z ->
  let text := list_ascii_of_string (str_of_int n) in
  text <> []
  /\ Forall (fun c => is_digit c = true) text
  /\ int_of_digits text = n.
Proof.
  intros Hn. cbn zeta. unfold str_of_int, int_of_digits.
  destruct n as [|p|p]; [| |lia].
  - cbn. repeat split; try congruence. repeat constructor.
  - cbn [Z.to_int NilZero.string_of_int].
    pose proof (DecimalPos.Unsigned.to_uint_nonnil p) as Hnil.
    assert (Htext : NilZero.string_of_uint (Pos.to_uint p)
                    = NilEmpty.string_of_uint (Pos.to_uint p)).
    { unfold NilZero.string_of_uint. destruct (Pos.to_uint p); congruence. }
    rewrite Htext. split; [apply uint_text_nonempty, Hnil|].
    split; [apply uint_digits|].
    rewrite fold_digits_uint, uint_value_0, DecimalPos.Unsigned.of_to. reflexivity.
Qed.

(** ** Reading numbers *)

Lemma list_ascii_of_string_app (s1 s2 : string) :
  list_ascii_of_string (s1 ++ s2) = list_ascii_of_string s1 ++ list_ascii_of_string s2.
Proof.
  induction s1 as [|c s1 IH]; cbn; [reflexivity|]. rewrite <- IH. reflexivity.
Qed.

Lemma length_list_ascii_of_string (s : string) :
  length (list_ascii_of_string s) = String.length s.
Proof. induction s as [|c s IH]; cbn; congruence. Qed.

Lemma int_literal_digits_run (ds : list ascii) :
  Forall (fun c => is_digit c = true) ds ->
  forall acc after_digit,
    int_literal_digits acc after_digit ds
    = if after_digit || negb (length ds =? 0)%nat
      then Some (fold_left (fun acc c => acc * 10 + digit_value c)%Z ds acc)
      else None.
Proof.
  induction 1 as [|c ds Hc _ IH]; intros acc after_digit; cbn [int_literal_digits].
  - destruct after_digit; reflexivity.
  - rewrite Hc, IH. cbn. rewrite orb_true_r. reflexivity.
Qed.

Lemma drop_while_head (f : ascii -> bool) (s : list ascii) :
  head s = None \/ (exists c, head s = Some c /\ f c = false) -> drop_while f s = s.
Proof.
  destruct s as [|c s]; cbn; [reflexivity|].
  intros [H|(c' & [= <-] & Hc)]; [discriminate|]. rewrite Hc. reflexivity.
Qed.

Lemma strip_with_clean (blank : ascii -> bool) (s : list ascii) :
  Forall (fun c => blank c = false) s -> strip_with blank s = s.
Proof.
  intros Hs. unfold strip_with.
  rewrite (drop_while_head blank s).
  - rewrite drop_while_head; [apply rev_involutive|].
    assert (Hr : Forall (fun c => blank c = false) (rev s)).
    { apply List.Forall_rev, Hs. }
    destruct Hr as [|c r Hc _]; [left; reflexivity|right; exists c; split; auto].
  - destruct Hs as [|c r Hc _]; [left; reflexivity|right; exists c; split; auto].
Qed.

Lemma digit_not_blank (c : ascii) :
  is_digit c = true -> is_space c = false /\ is_int_space c = false
                       /\ Ascii.eqb c "+" = false /\ Ascii.eqb c "-" = false.
Proof.
  destruct c as [[] [] [] [] [] [] [] []]; vm_compute; intros H;
    solve [discriminate H | repeat split].
Qed.

(** [int] reads a run of digits as the number it denotes. *)
Lemma int_of_str_digits (ds : list ascii) :
  ds <> [] -> Forall (fun c => is_digit c = true) ds ->
  (length ds <= int_max_str_digits)%nat ->
  int_of_str ds = Valid (int_of_digits ds).
Proof.
  intros Hne Hds Hlen. unfold int_of_str.
  rewrite strip_with_clean.
  2:{ eapply Forall_impl; [exact Hds|]. intros c Hc. apply digit_not_blank, Hc. }
  destruct ds as [|c ds]; [congruence|].
  pose proof (Forall_inv Hds) as Hc.
  destruct (digit_not_blank c Hc) as (_ & _ & Hplus & Hminus).
  rewrite Hplus, Hminus. cbn [fst snd].
  rewrite (int_literal_digits_run _ Hds). cbn [length Nat.eqb negb orb].
  assert (Hfilter : filter (fun c => is_digit c) (c :: ds) = c :: ds).
  { clear -Hds. induction Hds as [|d l Hd _ IH]; [reflexivity|].
    rewrite filter_cons. destruct (decide (is_digit d)) as [_|Hn].
    - rewrite IH. reflexivity.
    - rewrite Hd in Hn. exfalso. apply Hn. exact I. }
  rewrite Hfilter.
  destruct (int_max_str_digits <? length (c :: ds))%nat eqn:E.
  - apply Nat.ltb_lt in E. lia.
  - reflexivity.
Qed.

Lemma int_of_str_writable (n : Z) :
  writable n -> int_of_str (list_ascii_of_string (str_of_int n)) = Valid n.
Proof.
  intros [Hn Hlen].
  destruct (str_of_int_digits n Hn) as (Hne & Hds & Hval).
  rewrite int_of_str_digits; auto.
  - rewrite Hval. reflexivity.
  - rewrite length_list_ascii_of_string. exact Hlen.
Qed.

(** ** Splitting text *)

Lemma split_from_word (t : list ascii) :
  Forall (fun c => is_space c = false) t ->
  forall word rest, split_from word (t ++ rest) = split_from (rev t ++ word) rest.
Proof.
  induction 1 as [|c t Hc _ IH]; intros word rest; cbn [app split_from rev].
  - reflexivity.
  - rewrite Hc, IH, <- app_assoc. reflexivity.
Qed.

Lemma split_from_last (t : list ascii) :
  t <> [] -> Forall (fun c => is_space c = false) t -> split_from [] t = [t].
Proof.
  intros Hne Ht. rewrite <- (app_nil_r t) at 1.
  rewrite (split_from_word t Ht), app_nil_r. cbn [split_from].
  destruct (rev t) eqn:E.
  - apply (f_equal (@rev _)) in E. rewrite rev_involutive in E. contradiction.
  - rewrite <- E, rev_involutive. reflexivity.
Qed.

Lemma split_from_next (t rest : list ascii) :
  t <> [] -> Forall (fun c => is_space c = false) t ->
  split_from [] (t ++ " "%char :: rest) = t :: split_from [] rest.
Proof.
  intros Hne Ht. rewrite (split_from_word t Ht), app_nil_r. cbn [split_from].
  change (is_space " ") with true. cbv iota.
  destruct (rev t) eqn:E.
  - apply (f_equal (@rev _)) in E. rewrite rev_involutive in E. contradiction.
  - rewrite <- E, rev_involutive. reflexivity.
Qed.

(** Words written with one blank between them are split into those
    words. *)
Lemma split_concat (words : list string) :
  Forall (fun w => list_ascii_of_string w <> []
                   /\ Forall (fun c => is_space c = false) (list_ascii_of_string w)) words ->
  split (list_ascii_of_string (String.concat " " words)) = map list_ascii_of_string words.
Proof.
  unfold split. induction 1 as [|w words [Hne Hw] Hrest IH]; [reflexivity|].
  destruct words as [|w' words].
  - cbn [String.concat map]. apply split_from_last; assumption.
  - change (String.concat " " (w :: w' :: words))
      with (w ++ " " ++ String.concat " " (w' :: words))%string.
    rewrite !list_ascii_of_string_app. cbn [list_ascii_of_string app].
    rewrite split_from_next by assumption. rewrite IH. reflexivity.
Qed.

Lemma split_on_piece (sep : ascii) (piece rest : list ascii) :
  Forall (fun c => Ascii.eqb c sep = false) piece ->
  split_on sep (piece ++ sep :: rest) = piece :: split_on sep rest.
Proof.
  induction 1 as [|c piece Hc _ IH]; cbn [app split_on].
  - rewrite Ascii.eqb_refl. reflexivity.
  - rewrite Hc, IH. reflexivity.
Qed.

Lemma split_on_last (sep : ascii) (piece : list ascii) :
  Forall (fun c => Ascii.eqb c sep = false) piece -> split_on sep piece = [piece].
Proof.
  induction 1 as [|c piece Hc _ IH]; cbn [split_on]; [reflexivity|].
  rewrite Hc, IH. reflexivity.
Qed.

Lemma contains_char_clean (c : ascii) (s : list ascii) :
  Forall (fun x => Ascii.eqb x c = false) s -> contains_char c s = false.
Proof.
  unfold contains_char. induction 1 as [|x s Hx _ IH]; cbn [existsb]; [reflexivity|].
  rewrite Ascii.eqb_sym, Hx, IH. reflexivity.
Qed.

Lemma contains_char_middle (c : ascii) (s1 s2 : list ascii) :
  contains_char c (s1 ++ c :: s2) = true.
Proof.
  unfold contains_char. rewrite existsb_app. cbn [existsb].
  rewrite Ascii.eqb_refl, orb_true_r. reflexivity.
Qed.

Lemma writable_text (n : Z) :
  writable n ->
  let text := list_ascii_of_string (str_of_int n) in
  text <> []
  /\ Forall (fun c => is_space c = false) text
  /\ Forall (fun c => Ascii.eqb c "-" = false) text.
Proof.
  intros [Hn _]. destruct (str_of_int_digits n Hn) as (Hne & Hds & _).
  cbn zeta. split; [exact Hne|].
  split; (eapply Forall_impl; [exact Hds|]); intros c Hc; apply digit_not_blank, Hc.
Qed.

(** ** Cycle lists and ranges typed by the user *)

Lemma span_pair (a b : Z) :
  writable a -> writable b ->
  unpack_int_pair
    (split_on "-" (list_ascii_of_string (str_of_int a) ++ "-"%char
                   :: list_ascii_of_string (str_of_int b)))
  = Valid (a, b).
Proof.
  intros Ha Hb.
  destruct (writable_text a Ha) as (_ & _ & Hda).
  destruct (writable_text b Hb) as (_ & _ & Hdb).
  rewrite (split_on_piece _ _ _ Hda), (split_on_last _ _ Hdb).
  cbn [unpack_int_pair].
  rewrite (int_of_str_writable a Ha). cbn [mbind checked_bind].
  rewrite (int_of_str_writable b Hb). reflexivity.
Qed.

Lemma step_text_chars (s : step) :
  step_writable s ->
  list_ascii_of_string (step_text s) <> []
  /\ Forall (fun c => is_space c = false) (list_ascii_of_string (step_text s)).
Proof.
  destruct s as [n|a b]; cbn [step_writable step_text].
  - intros Hn. destruct (writable_text n Hn) as (? & ? & _). split; assumption.
  - intros [Ha Hb].
    destruct (writable_text a Ha) as (Hne & Hsa & _).
    destruct (writable_text b Hb) as (_ & Hsb & _).
    rewrite !list_ascii_of_string_app. cbn [list_ascii_of_string app]. split.
    + destruct (list_ascii_of_string (str_of_int a)); [congruence|discriminate].
    + apply Forall_app. split; [exact Hsa|]. constructor; [reflexivity|exact Hsb].
Qed.

Lemma convert_steps_written (steps : list step) :
  Forall step_writable steps ->
  forall steplist,
    convert_steps (map list_ascii_of_string (map step_text steps)) steplist
    = Valid (steplist ++ concat (map step_cycles steps)).
Proof.
  induction 1 as [|s steps Hs _ IH]; intros steplist; cbn [map convert_steps concat].
  - rewrite app_nil_r. reflexivity.
  - destruct s as [n|a b]; cbn [step_writable step_text step_cycles] in *.
    + destruct (writable_text n Hs) as (_ & _ & Hd).
      rewrite (contains_char_clean _ _ Hd).
      rewrite (int_of_str_writable n Hs). cbn [mbind checked_bind].
      rewrite IH, <- app_assoc. reflexivity.
    + destruct Hs as [Ha Hb].
      rewrite !list_ascii_of_string_app. cbn [list_ascii_of_string app].
      rewrite contains_char_middle, (span_pair a b Ha Hb).
      cbn [mbind checked_bind fst snd].
      rewrite IH, <- app_assoc. reflexivity.
Qed.

(** X8: [convert_steplist] reads back what was written: for numbers and
    spans of non-negative numbers separated by one blank, the result is
    the numbers, each span expanded to all its cycles in order (to
    nothing when the span runs backwards). *)
Theorem convert_steplist_reads_steps (steps : list step) :
  Forall step_writable steps ->
  convert_steplist (String.concat " " (map step_text steps))
  = Valid (concat (map step_cycles steps)).
Proof.
  intros Hsteps. unfold convert_steplist.
  rewrite split_concat.
  - apply (convert_steps_written steps Hsteps []).
  - apply Forall_map. eapply Forall_impl; [exact Hsteps|].
    intros s Hs. apply step_text_chars, Hs.
Qed.

Lemma convert_steplist_reads_steps_witness :
  Forall step_writable [Single 3; Single 4; Single 5; Span 8 9; Span 7 6]
  /\ convert_steplist "3 4 5 8-9 7-6" = Valid [3; 4; 5; 8; 9]%Z.
Proof.
  assert (H : Forall step_writable [Single 3; Single 4; Single 5; Span 8 9; Span 7 6]).
  { repeat constructor; solve [lia | apply Nat.leb_le; vm_compute; reflexivity]. }
  split; [exact H|].
  exact (convert_steplist_reads_steps _ H).
Defined.

(** X9: [parse_cycle_range] reads back a written range, whatever the
    order of its ends. *)
Theorem parse_cycle_range_reads_range (a b : Z) :
  writable a -> writable b ->
  parse_cycle_range (str_of_int a ++ "-" ++ str_of_int b) = Valid (a, b).
Proof.
  intros Ha Hb. unfold parse_cycle_range.
  rewrite !list_ascii_of_string_app. cbn [list_ascii_of_string app].
  rewrite contains_char_middle. cbn [negb].
  destruct (writable_text a Ha) as (_ & Hsa & _).
  destruct (writable_text b Hb) as (_ & Hsb & _).
  unfold strip. rewrite strip_with_clean.
  - apply span_pair; assumption.
  - apply Forall_app. split; [exact Hsa|]. constructor; [reflexivity|exact Hsb].
Qed.

Lemma parse_cycle_range_reads_range_witness :
  parse_cycle_range "5-3" = Valid (5, 3)%Z.
Proof.
  apply (parse_cycle_range_reads_range 5 3);
    (split; [lia | apply Nat.leb_le; vm_compute; reflexivity]).
Defined.

Lemma digit_value_nonneg (c : ascii) : is_digit c = true -> (0 <= digit_value c)%Z.
Proof.
  unfold is_digit, digit_value. intros H. apply andb_true_iff in H.
  destruct H as [H _]. apply Nat.leb_le in H. lia.
Qed.

Lemma int_literal_digits_nonneg (s : list ascii) :
  forall acc after_digit n,
    int_literal_digits acc after_digit s = Some n -> (0 <= acc)%Z -> (0 <= n)%Z.
Proof.
  induction s as [|c s IH]; intros acc after_digit n; cbn [int_literal_digits].
  - destruct after_digit; [|discriminate]. intros [= <-]. auto.
  - destruct (is_digit c) eqn:Hc.
    + intros H Hacc. apply (IH _ _ _ H).
      pose proof (digit_value_nonneg c Hc). lia.
    + destruct (Ascii.eqb c "_" && after_digit); [|discriminate].
      intros H Hacc. apply (IH _ _ _ H Hacc).
Qed.

Lemma drop_while_Forall (P : ascii -> Prop) (f : ascii -> bool) (s : list ascii) :
  Forall P s -> Forall P (drop_while f s).
Proof.
  induction 1 as [|c s Hc Hs IH]; cbn [drop_while]; [constructor|].
  destruct (f c); [exact IH|constructor; assumption].
Qed.

Lemma strip_with_Forall (P : ascii -> Prop) (blank : ascii -> bool) (s : list ascii) :
  Forall P s -> Forall P (strip_with blank s).
Proof.
  intros Hs. unfold strip_with.
  apply List.Forall_rev, drop_while_Forall, List.Forall_rev, drop_while_Forall, Hs.
Qed.

(** [int] gives a negative number only for a text with a minus sign. *)
Lemma int_of_str_nonneg (text : list ascii) (n : Z) :
  Forall (fun c => Ascii.eqb c "-" = false) text ->
  int_of_str text = Valid n -> (0 <= n)%Z.
Proof.
  intros Hclean. unfold int_of_str.
  pose proof (strip_with_Forall _ is_int_space text Hclean) as Hbody.
  destruct (strip_with is_int_space text) as [|c body].
  - cbn. discriminate.
  - pose proof (Forall_inv Hbody) as Hc. cbn beta in Hc. rewrite Hc.
    destruct (Ascii.eqb c "+"); cbn [fst snd];
      (destruct (int_literal_digits 0 false _) as [m|] eqn:E; [|discriminate]);
      (destruct (_ <? _)%nat; [discriminate|]);
      intros [= <-]; apply (int_literal_digits_nonneg _ _ _ _ E); lia.
Qed.

Lemma split_on_pieces (sep : ascii) (s : list ascii) :
  Forall (Forall (fun c => Ascii.eqb c sep = false)) (split_on sep s).
Proof.
  induction s as [|c s IH]; cbn [split_on].
  - repeat constructor.
  - destruct (Ascii.eqb c sep) eqn:E.
    + constructor; [constructor|exact IH].
    + destruct (split_on sep s) as [|piece pieces].
      * repeat constructor. exact E.
      * inversion IH; subst. constructor; [constructor; assumption|assumption].
Qed.

Lemma unpack_int_pair_nonneg (pieces : list (list ascii)) (a b : Z) :
  Forall (Forall (fun c => Ascii.eqb c "-" = false)) pieces ->
  unpack_int_pair pieces = Valid (a, b) -> (0 <= a /\ 0 <= b)%Z.
Proof.
  intros Hp. unfold unpack_int_pair.
  destruct pieces as [|p1 [|p2 rest]]; try discriminate.
  - destruct (int_of_str p1); discriminate.
  - inversion Hp as [|? ? H1 Hp']; subst. inversion Hp' as [|? ? H2 _]; subst.
    destruct (int_of_str p1) as [x|] eqn:E1; cbn [mbind checked_bind]; [|discriminate].
    destruct (int_of_str p2) as [y|] eqn:E2; cbn [mbind checked_bind]; [|discriminate].
    destruct rest as [|p3 rest].
    + intros [= <- <-]. split.
      * exact (int_of_str_nonneg p1 x H1 E1).
      * exact (int_of_str_nonneg p2 y H2 E2).
    + destruct (int_of_str p3); discriminate.
Qed.

Lemma inclusive_range_lower (a b n : Z) :
  In n (inclusive_range a b) -> (a <= n <= b)%Z.
Proof.
  unfold inclusive_range. rewrite <- list_elem_of_In, elem_of_seqZ. lia.
Qed.

Lemma convert_steps_nonneg (steps : list (list ascii)) :
  forall steplist result,
    Forall (fun n => 0 <= n)%Z steplist ->
    convert_steps steps steplist = Valid result ->
    Forall (fun n => 0 <= n)%Z result.
Proof.
  induction steps as [|step steps IH]; intros steplist result Hacc; cbn [convert_steps].
  - intros [= <-]. exact Hacc.
  - destruct (contains_char "-" step) eqn:Hdash.
    + destruct (unpack_int_pair (split_on "-" step)) as [[a b]|] eqn:E;
        cbn [mbind checked_bind]; [|discriminate].
      apply unpack_int_pair_nonneg in E; [|apply split_on_pieces].
      apply IH. apply Forall_app. split; [exact Hacc|].
      apply List.Forall_forall. intros n Hn. cbn [fst snd] in Hn.
      apply inclusive_range_lower in Hn. lia.
    + destruct (int_of_str step) as [n|] eqn:E; cbn [mbind checked_bind]; [|discriminate].
      apply IH. apply Forall_app. split; [exact Hacc|].
      constructor; [|constructor].
      apply (int_of_str_nonneg step n); [|exact E].
      clear -Hdash. unfold contains_char in Hdash.
      induction step as [|c step IH]; [constructor|].
      cbn [existsb] in Hdash. apply orb_false_iff in Hdash. destruct Hdash as [Hc Hs].
      constructor; [rewrite Ascii.eqb_sym; exact Hc|apply IH, Hs].
Qed.

(** X10: no text makes the two parsers return a negative cycle number: a
    dash is always taken as the separator of a span, never as a sign. *)
Theorem parsed_cycles_never_negative (text : string) :
  (forall steplist, convert_steplist text = Valid steplist ->
                    Forall (fun n => 0 <= n)%Z steplist)
  /\ (forall a b, parse_cycle_range text = Valid (a, b) -> (0 <= a /\ 0 <= b)%Z).
Proof.
  split.
  - intros steplist. unfold convert_steplist. apply convert_steps_nonneg. constructor.
  - intros a b. unfold parse_cycle_range.
    destruct (negb _); [discriminate|].
    apply unpack_int_pair_nonneg, split_on_pieces.
Qed.

(** ** Capacity named in a path *)

Lemma take_while_run (f : ascii -> bool) (run rest : list ascii) :
  Forall (fun c => f c = true) run ->
  head rest = None \/ (exists c, head rest = Some c /\ f c = false) ->
  take_while f (run ++ rest) = run /\ drop_while f (run ++ rest) = rest.
Proof.
  intros Hrun Hrest. induction Hrun as [|c run Hc _ IH]; cbn [app].
  - destruct rest as [|c rest]; [split; reflexivity|].
    destruct Hrest as [H|(c' & [= <-] & Hc)]; [discriminate|].
    cbn [take_while drop_while]. rewrite Hc. split; reflexivity.
  - cbn [take_while drop_while]. rewrite Hc. destruct IH as [-> ->]. split; reflexivity.
Qed.

Lemma search_skip {A} (match_here : list ascii -> option A) (pre s : list ascii) :
  (forall c rest, In c pre -> match_here (c :: rest) = None) ->
  search match_here (pre ++ s) = search match_here s.
Proof.
  induction pre as [|c pre IH]; intros Hpre; cbn [app]; [reflexivity|].
  cbn [search]. rewrite (Hpre c (pre ++ s)) by (left; reflexivity).
  apply IH. intros c' rest Hc'. apply Hpre. right. exact Hc'.
Qed.

Lemma search_here {A} (match_here : list ascii -> option A) (s : list ascii) (a : A) :
  match_here s = Some a -> search match_here s = Some a.
Proof. intros H. destruct s; cbn [search]; rewrite H; reflexivity. Qed.

Lemma match_mAh_no_digit (c : ascii) (rest : list ascii) :
  is_digit c = false -> match_mAh (c :: rest) = None.
Proof. intros Hc. unfold match_mAh. cbn [take_while]. rewrite Hc. reflexivity. Qed.

Lemma match_mAh_whole (whole post : list ascii) :
  whole <> [] -> Forall (fun c => is_digit c = true) whole ->
  match_mAh (whole ++ list_ascii_of_string "mAh" ++ post) = Some (whole, []).
Proof.
  intros Hne Hw. unfold match_mAh.
  destruct (take_while_run is_digit whole (list_ascii_of_string "mAh" ++ post) Hw)
    as [-> ->].
  { right. exists "m"%char. split; reflexivity. }
  destruct whole as [|c whole]; [congruence|]. reflexivity.
Qed.

Lemma match_mAh_fraction (whole fraction post : list ascii) (sep : ascii) :
  whole <> [] -> Forall (fun c => is_digit c = true) whole ->
  fraction <> [] -> Forall (fun c => is_digit c = true) fraction ->
  sep = "-"%char \/ sep = "."%char ->
  match_mAh (whole ++ sep :: fraction ++ list_ascii_of_string "mAh" ++ post)
  = Some (whole, fraction).
Proof.
  intros Hne Hw Hnf Hf Hsep. unfold match_mAh.
  destruct (take_while_run is_digit whole
              (sep :: fraction ++ list_ascii_of_string "mAh" ++ post) Hw) as [-> ->].
  { right. exists sep. split; [reflexivity|]. destruct Hsep; subst; reflexivity. }
  destruct (take_while_run is_digit fraction (list_ascii_of_string "mAh" ++ post) Hf)
    as [-> ->].
  { right. exists "m"%char. split; reflexivity. }
  destruct whole as [|c whole]; [congruence|].
  destruct fraction as [|d fraction]; [congruence|].
  assert (Hs : Ascii.eqb sep "-" || Ascii.eqb sep "." = true)
    by (destruct Hsep; subst; reflexivity).
  rewrite Hs. reflexivity.
Qed.

(** X11: a capacity written in a path is read back.  When no digit comes
    before it, the number in front of [mAh] is the capacity; a dash or
    a point followed by a second number makes that number the decimal
    fraction. *)
Theorem name_capacity_reads_name (pre post : string) (a b : Z) (sep : string) :
  Forall (fun c => is_digit c = false) (list_ascii_of_string pre) ->
  (0 <= a)%Z -> (0 <= b)%Z -> sep = "-"%string \/ sep = "."%string ->
  (exists capacity,
      name_capacity (pre ++ str_of_int a ++ "mAh" ++ post) = Some capacity
      /\ capacity == inject_Z a)
  /\ (exists capacity,
        name_capacity (pre ++ str_of_int a ++ sep ++ str_of_int b ++ "mAh" ++ post)
        = Some capacity
        /\ capacity == inject_Z a
                        + inject_Z b
                          / inject_Z (10 ^ Z.of_nat (String.length (str_of_int b)))).
Proof.
  intros Hpre Ha Hb Hsep.
  destruct (str_of_int_digits a Ha) as (Hna & Hda & Hva).
  destruct (str_of_int_digits b Hb) as (Hnb & Hdb & Hvb).
  assert (Hskip : forall c rest, In c (list_ascii_of_string pre) ->
                                 match_mAh (c :: rest) = None).
  { intros c rest Hc. apply match_mAh_no_digit.
    rewrite List.Forall_forall in Hpre. exact (Hpre c Hc). }
  unfold name_capacity. split.
  - rewrite !list_ascii_of_string_app, (search_skip _ _ _ Hskip).
    rewrite (search_here _ _ _ (match_mAh_whole _ _ Hna Hda)).
    cbn [mbind option_bind fst snd]. eexists. split; [reflexivity|].
    unfold float_of_decimal. rewrite Hva. cbn [length int_of_digits fold_left].
    change (inject_Z 0 / inject_Z (10 ^ Z.of_nat 0)) with (0 * 1). ring.
  - rewrite !list_ascii_of_string_app, (search_skip _ _ _ Hskip).
    assert (Hs : exists c, list_ascii_of_string sep = [c] /\ (c = "-"%char \/ c = "."%char)).
    { destruct Hsep; subst; eexists; split; eauto. }
    destruct Hs as (c & -> & Hc). cbn [app].
    rewrite (search_here _ _ _ (match_mAh_fraction _ _ _ _ Hna Hda Hnb Hdb Hc)).
    cbn [mbind option_bind fst snd]. eexists. split; [reflexivity|].
    unfold float_of_decimal.
    rewrite Hva, Hvb, length_list_ascii_of_string. reflexivity.
Qed.

Lemma name_capacity_reads_name_witness :
  (exists capacity, name_capacity "Battery_58mAh.csv" = Some capacity /\ capacity == 58)
  /\ (exists capacity, name_capacity "Test_4-5mAh.csv" = Some capacity
                       /\ capacity == 4 + 5 / 10).
Proof.
  destruct (name_capacity_reads_name "Battery_" ".csv" 58 5 "-") as [H1 _];
    [repeat constructor|lia|lia|left; reflexivity|].
  destruct (name_capacity_reads_name "Test_" ".csv" 4 5 "-") as [_ H2];
    [repeat constructor|lia|lia|left; reflexivity|].
  split; [exact H1|exact H2].
Defined.

(** ** Tables delivered by the loaders *)

Lemma Qle_bool_total (a b : Q) : Qle_bool a b = false -> b <= a.
Proof.
  intros H. destruct (Qlt_le_dec a b) as [Hlt|Hle]; [|exact Hle].
  apply Qlt_le_weak, Qle_bool_iff in Hlt. congruence.
Qed.

Lemma insert_by_Forall {A} (P : A -> Prop) (key : A -> Q) (x : A) (l : list A) :
  P x -> Forall P l -> Forall P (insert_by key x l).
Proof.
  intros Hx. induction 1 as [|y l Hy Hl IH]; cbn [insert_by].
  - repeat constructor. exact Hx.
  - destruct (Qle_bool (key x) (key y)); repeat constructor; assumption.
Qed.

Lemma insert_by_sorted {A} (key : A -> Q) (x : A) (l : list A) :
  StronglySorted (fun a b => key a <= key b) l ->
  StronglySorted (fun a b => key a <= key b) (insert_by key x l).
Proof.
  induction 1 as [|y l Hl IH Hy]; cbn [insert_by].
  - repeat constructor.
  - destruct (Qle_bool (key x) (key y)) eqn:E.
    + apply Qle_bool_iff in E. constructor; [constructor; assumption|].
      constructor; [exact E|].
      eapply Forall_impl; [exact Hy|]. intros z Hz. cbn beta in *.
      eapply Qle_trans; eassumption.
    + apply Qle_bool_total in E. constructor; [exact IH|].
      apply insert_by_Forall; assumption.
Qed.

Lemma sort_by_sorted {A} (key : A -> Q) (l : list A) :
  StronglySorted (fun a b => key a <= key b) (sort_by key l).
Proof.
  unfold sort_by. induction l as [|x l IH]; cbn [fold_right].
  - constructor.
  - apply insert_by_sorted, IH.
Qed.

Lemma sorted_nondecreasing (l : list Q) :
  StronglySorted Qle l -> nondecreasing l.
Proof.
  destruct l as [|x l]; [intros _; exact I|].
  cbn [nondecreasing]. revert x.
  induction l as [|y l IH]; intros x Hs; cbn [nondecreasing_from]; [exact I|].
  inversion Hs as [|? ? Hl Hx]; subst. inversion Hx; subst.
  split; [assumption|]. apply IH, Hl.
Qed.

Lemma nondecreasing_sorted (l : list Q) :
  nondecreasing l -> StronglySorted Qle l.
Proof.
  destruct l as [|x l]; [constructor|].
  cbn [nondecreasing]. revert x.
  induction l as [|y l IH]; intros x H.
  - repeat constructor.
  - cbn [nondecreasing_from] in H. destruct H as [Hxy Hl].
    specialize (IH y Hl). constructor; [exact IH|].
    constructor; [exact Hxy|].
    inversion IH as [|? ? _ Hy]; subst.
    eapply Forall_impl; [exact Hy|]. intros z Hz. eapply Qle_trans; eassumption.
Qed.

(** Dropping the rows with a NaN cell keeps the order of the rest. *)
Lemma kept_rows_sorted (keep : Z * RawRow -> option (Z * Row)) (sorted : list RawRow) :
  (forall ir lr, keep ir = Some lr -> TimeMin (snd lr) = raw_time (snd ir)) ->
  StronglySorted (fun a b => raw_time a <= raw_time b) sorted ->
  forall index : list Z,
    StronglySorted Qle (map TimeMin (rows (omap keep (combine index sorted))))
    /\ Forall (fun t => exists r, In r sorted /\ t = raw_time r)
         (map TimeMin (rows (omap keep (combine index sorted)))).
Proof.
  intros Hkeep. induction 1 as [|r sorted Hs IH Hr]; intros index.
  - destruct index; cbn; split; constructor.
  - destruct index as [|i index]; [cbn; split; constructor|].
    destruct (IH index) as [IH1 IH2].
    assert (IH2' : Forall (fun t => exists r0, In r0 (r :: sorted) /\ t = raw_time r0)
                     (map TimeMin (rows (omap keep (combine index sorted))))).
    { eapply Forall_impl; [exact IH2|]. intros t (r0 & Hin & ->).
      exists r0. split; [right; exact Hin|reflexivity]. }
    cbn [combine omap list_omap].
    destruct (keep (i, r)) as [lr|] eqn:E; [|split; assumption].
    cbn [rows map]. rewrite (Hkeep _ _ E). cbn [snd].
    split.
    + constructor; [exact IH1|].
      eapply Forall_impl; [exact IH2|]. intros t (r0 & Hin & ->).
      rewrite List.Forall_forall in Hr. exact (Hr r0 Hin).
    + constructor; [|exact IH2'].
      exists r. split; [left; reflexivity|reflexivity].
Qed.

Lemma preprocess_data_sorted (raw : list RawRow) :
  time_sorted (rows (preprocess_data raw)).
Proof.
  unfold time_sorted, preprocess_data. apply sorted_nondecreasing.
  apply kept_rows_sorted; [|apply sort_by_sorted].
  intros ir lr. destruct (raw_voltage (snd ir)); [|discriminate].
  destruct (raw_current (snd ir)); [|discriminate].
  intros [= <-]. reflexivity.
Qed.

Lemma rows_shift_TimeMin (dt : Q) (df : DataFrame) :
  map TimeMin (rows (shift_TimeMin dt df)) = map (fun t => t + dt) (map TimeMin (rows df)).
Proof.
  unfold rows, shift_TimeMin. rewrite !map_map. reflexivity.
Qed.

Lemma sorted_shift (dt : Q) (l : list Q) :
  StronglySorted Qle l -> StronglySorted Qle (map (fun t => t + dt) l).
Proof.
  induction 1 as [|x l Hl IH Hx]; cbn [map]; constructor; [exact IH|].
  apply Forall_map. eapply Forall_impl; [exact Hx|]. intros y Hy. cbn. lra.
Qed.

Lemma series_min_head (x : Q) (l : list Q) :
  StronglySorted Qle (x :: l) -> series_min (x :: l) = Some x.
Proof.
  intros Hs. cbn [series_min]. f_equal.
  inversion Hs as [|? ? _ Hx]; subst. clear Hs.
  induction Hx as [|y l Hy _ IH]; cbn [fold_left]; [reflexivity|].
  apply Qle_bool_iff in Hy. rewrite Hy. exact IH.
Qed.

Lemma Toyo_preprocess_data_sorted (raw : list RawRow) :
  let df := Toyo_preprocess_data raw in
  time_sorted (rows df)
  /\ Forall (fun r => 0 <= TimeMin r) (rows df)
  /\ (forall first, head (rows df) = Some first -> TimeMin first == 0).
Proof.
  cbn zeta. unfold Toyo_preprocess_data.
  pose proof (preprocess_data_sorted raw) as Hs.
  unfold time_sorted in Hs. apply nondecreasing_sorted in Hs.
  destruct (map TimeMin (rows (preprocess_data raw))) as [|t0 ts] eqn:E.
  - cbn [series_min]. unfold time_sorted. rewrite E.
    destruct (preprocess_data raw) as [|lr df]; [|discriminate].
    repeat split; [constructor|]. intros first [=].
  - rewrite (series_min_head t0 ts Hs).
    unfold time_sorted. 
    assert (Ht : map TimeMin (rows (shift_TimeMin (- t0) (preprocess_data raw)))
                 = map (fun t => t + - t0) (t0 :: ts)).
    { rewrite rows_shift_TimeMin, E. reflexivity. }
    split; [rewrite Ht; apply sorted_nondecreasing, sorted_shift, Hs|].
    split.
    + assert (Hall : Forall (fun t => 0 <= t)
                       (map TimeMin (rows (shift_TimeMin (- t0) (preprocess_data raw))))).
      { rewrite Ht. apply Forall_map. inversion Hs as [|? ? _ Hx]; subst.
        constructor; [cbn; lra|].
        eapply Forall_impl; [exact Hx|]. intros y Hy. cbn. lra. }
      rewrite Forall_map in Hall. exact Hall.
    + intros first Hfirst.
      destruct (rows (shift_TimeMin (- t0) (preprocess_data raw))) as [|r rs];
        [discriminate|].
      injection Hfirst as <-. cbn [map] in Ht. injection Ht as Ht _.
      rewrite Ht. lra.
Qed.

(** X12: every table a loader returns is in order of elapsed time; a Toyo
    table moreover starts at time 0 and has no negative time. *)
Theorem loaders_deliver_sorted_tables (fs : FileSystem) (data_path : string)
  (cycle_no : Z) :
  (forall df, PNE_load_cycle fs data_path cycle_no = Ok df -> time_sorted (rows df))
  /\ (forall self df self',
        Toyo_load_cycle fs data_path cycle_no self = (Ok df, self') ->
        time_sorted (rows df)
        /\ Forall (fun r => 0 <= TimeMin r) (rows df)
        /\ (forall first, head (rows df) = Some first -> TimeMin first == 0)).
Proof.
  split.
  - intros df. unfold PNE_load_cycle.
    destruct (match dict_get _ _ _ with Some f => Ok f | None => _ end) as [f|];
      cbn [mbind result_bind rbind]; [|discriminate].
    destruct (validate_data _); cbn [mbind result_bind rbind]; [|discriminate].
    intros [= <-]. apply preprocess_data_sorted.
  - intros self df self'. unfold Toyo_load_cycle.
    destruct (fst _) as [raw|]; cbn [mbind result_bind rbind]; [|discriminate].
    destruct (_ =? 0)%nat; [discriminate|].
    destruct (validate_data _); cbn [mbind result_bind rbind]; [|discriminate].
    intros [= <- _]. apply Toyo_preprocess_data_sorted.
Qed.

(** ** The raw-data cache of the Toyo loader *)

(** X13: once a Toyo loader has read the export of one folder, it keeps
    answering from that export: a later [load_cycle] for any other
    folder returns the cycles of the first one, until [clear_cache]. *)
Theorem Toyo_cache_outlives_data_path (fs : FileSystem) (data_path : string)
  (cycle_no : Z) (loader : ToyoDataLoader) (raw : RawFrame) :
  _raw_data_cache loader = None ->
  _load_raw_data fs data_path = Ok raw ->
  let loader' := snd (Toyo_load_cycle fs data_path cycle_no loader) in
  _raw_data_cache loader' = Some raw
  /\ (forall fs' other_path n,
        Toyo_load_cycle fs' other_path n loader'
        = (fst (Toyo_load_cycle fs data_path n loader), loader'))
  /\ (forall fs' other_path n,
        Toyo_load_cycle fs' other_path n (clear_cache loader')
        = Toyo_load_cycle fs' other_path n loader).
Proof.
  intros Hnone Hraw. destruct loader as [cache]. cbn in Hnone. subst cache.
  cbn zeta. unfold Toyo_load_cycle at 1. cbn [_raw_data_cache snd].
  rewrite Hraw. cbn [snd _raw_data_cache]. split; [reflexivity|]. split.
  - intros fs' other_path n. unfold Toyo_load_cycle.
    cbn [_raw_data_cache fst snd]. rewrite Hraw. reflexivity.
  - intros fs' other_path n. reflexivity.
Qed.

Lemma Toyo_cache_outlives_data_path_witness :
  let loader' := snd (Toyo_load_cycle C2_toyo_files "/data/toyo" 2 (mkToyo None)) in
  fst (Toyo_load_cycle C2_toyo_files "/data/toyo" 2 (mkToyo None))
  = Raise (Exn ValueError (No_data_found_for_Cycle 2))
  /\ Toyo_load_cycle C2_pne_files "/data/pne" 1 loader'
     = (fst (Toyo_load_cycle C2_toyo_files "/data/toyo" 1 (mkToyo None)), loader').
Proof.
  split; [reflexivity|].
  exact (proj1 (proj2 (Toyo_cache_outlives_data_path C2_toyo_files "/data/toyo" 2
                         (mkToyo None) C2_toyo_export eq_refl eq_refl))
           C2_pne_files "/data/pne"%string 1%Z).
Defined.

(** ** Capacity detection *)






(** ** Bulk load over the detected range *)














Lemma init_run (h : heap) :
  let self := mkContainer (length h) (S (length h)) in
  let h' := h ++ [OCycles []; OMeta []] in
  __init__ h = (Ok self, h')
  /\ container_ok h' self
  /\ stored_cycles h' self = Some []
  /\ stored_metadata h' self = Some [].
Proof.
  cbn zeta.
  assert (Hc : (h ++ [OCycles []; OMeta []]) !! length h = Some (OCycles [])).
  { rewrite lookup_app_r by lia. rewrite Nat.sub_diag. reflexivity. }
  assert (Hm : (h ++ [OCycles []; OMeta []]) !! S (length h) = Some (OMeta [])).
  { rewrite lookup_app_r by lia. replace (S (length h) - length h)%nat with 1%nat by lia.
    reflexivity. }
  split.
  - unfold __init__. rewrite M_bind_unfold. unfold alloc at 1.
    rewrite M_bind_unfold. unfold alloc at 1. rewrite length_app. cbn [length].
    rewrite Nat.add_1_r, <- app_assoc. reflexivity.
  - assert (Hcycles : stored_cycles (h ++ [OCycles []; OMeta []])
                        (mkContainer (length h) (S (length h))) = Some []).
    { unfold stored_cycles. cbn [_cycles]. rewrite Hc. reflexivity. }
    split; [|split; [exact Hcycles|]].
    + split; [cbn; lia|]. split.
      * exists []. split; [exact Hcycles|]. intros n l [].
      * exists []. split; [exact Hm|]. intros k l [].
    + unfold stored_metadata. cbn [_metadata]. rewrite Hm. reflexivity.
Qed.

Lemma empty_heap_ok : container_ok empty_heap first_container.
Proof. exact (proj1 (proj2 (init_run []))). Qed.

Lemma loaded_heap_ok : container_ok loaded_heap first_container.
Proof.
  split; [discriminate|]. split.
  - eexists. split; [vm_compute; reflexivity|].
    intros n l [[= <- <-]|[[= <- <-]|[]]]; vm_compute; eauto.
  - eexists. split; [vm_compute; reflexivity|].
    intros k l [[=]|[[=]|[[= <- <-]|[]]]]. vm_compute. eauto.
Qed.

Lemma C2_pne_files_valid (n : Z) (e : exn) :
  PNE_load_cycle C2_pne_files "/data/pne" n = Raise e -> exn_cls e = FileNotFoundError.
Proof.
  unfold PNE_load_cycle.
  change (folder_at C2_pne_files "/data/pne")
    with (mkFolder
            [("SaveData1.csv"%string, csv [sample 0 4 1; sample 1 4 (-1)]);
             ("SaveData3.csv"%string, csv [sample 0 4 1; sample 1 4 (-1)])]
            [] true).
  cbn [folder_files folder_Restore dict_get].
  destruct (String.eqb "SaveData1.csv" (SaveData_name n)); [discriminate|].
  destruct (String.eqb "SaveData3.csv" (SaveData_name n)); [discriminate|].
  cbn [mbind result_bind rbind]. intros [= <-]. reflexivity.
Qed.




(** ** Container queries *)

Lemma loaded_numbers_sorted (d : list (Z * loc)) :
  Sorted Z.le (merge_sort Z.le (dict_keys d))
  /\ Permutation (merge_sort Z.le (dict_keys d)) (dict_keys d).
Proof.
  split; [apply (Sorted_merge_sort Z.le)|apply merge_sort_Permutation].
Qed.

Lemma stored_table_is_Some (h : heap) (self : CycleDataContainer) (d : list (Z * loc))
  (n : Z) :
  container_ok h self -> stored_cycles h self = Some d ->
  is_Some (stored_table h self n) <-> In n (dict_keys d).
Proof.
  intros (_ & (d0 & Hd0 & Hframes) & _) Hd. rewrite Hd in Hd0. injection Hd0 as <-.
  rewrite (stored_table_dict h self d n Hd).
  rewrite <- (dict_get_keys Z.eqb Zeqb_eq).
  destruct (dict_get Z.eqb n d) as [l|] eqn:E.
  - split; [eauto|]. intros _.
    apply (Hframes n l). apply (dict_get_In Z.eqb Zeqb_eq), E.
  - split; intros [x Hx]; discriminate.
Qed.

(** X17: the queries of a well-formed container agree with each other.
    [get_loaded_cycle_numbers] returns the stored numbers in increasing
    order, [__len__] is their count, and for every number [has_cycle]
    is true exactly when the number is in that list, which is exactly
    when [get_cycle] returns a table.  None of the three changes
    anything. *)
Theorem container_queries_agree (h : heap) (self : CycleDataContainer) :
  container_ok h self ->
  exists numbers,
    get_loaded_cycle_numbers self h = (Ok numbers, h)
    /\ Sorted Z.le numbers
    /\ __len__ self h = (Ok (length numbers), h)
    /\ forall n, exists b,
         has_cycle self n h = (Ok b, h)
         /\ (b = true <-> In n numbers)
         /\ (In n numbers <-> exists l, outcome (get_cycle self n) h = Ok l).
Proof.
  intros Hok. destruct (container_ok_cycles h self Hok) as (d & Hlk & _).
  assert (Hd : stored_cycles h self = Some d)
    by (unfold stored_cycles; rewrite Hlk; reflexivity).
  destruct (loaded_numbers_sorted d) as [Hsorted Hperm].
  exists (merge_sort Z.le (dict_keys d)).
  split; [unfold get_loaded_cycle_numbers;
          rewrite M_bind_unfold, (read_cycles_ok _ _ _ Hlk); reflexivity|].
  split; [exact Hsorted|].
  split.
  { unfold __len__. rewrite M_bind_unfold, (read_cycles_ok _ _ _ Hlk).
    rewrite (Permutation_length Hperm). unfold dict_keys. rewrite length_map.
    reflexivity. }
  intros n. exists (bool_decide (is_Some (dict_get Z.eqb n d))).
  assert (Hin : In n (merge_sort Z.le (dict_keys d)) <-> In n (dict_keys d)).
  { rewrite <- !list_elem_of_In. rewrite Hperm. reflexivity. }
  split; [unfold has_cycle; rewrite M_bind_unfold, (read_cycles_ok _ _ _ Hlk);
          reflexivity|].
  split.
  - rewrite bool_decide_eq_true, Hin. apply (dict_get_keys Z.eqb Zeqb_eq).
  - rewrite Hin, <- (stored_table_is_Some h self d n Hok Hd).
    unfold outcome.
    destruct (get_cycle_run self n h) as [(df & Hdf & ->)|(e & He)].
    + rewrite Hdf. split; eauto.
    + rewrite He. cbn [fst]. split.
      * intros [df Hdf]. exfalso.
        destruct (get_cycle_run self n h) as [(df' & _ & Hrun)|_].
        -- rewrite Hrun in He. discriminate.
        -- unfold get_cycle in He. rewrite M_bind_unfold, (read_cycles_ok _ _ _ Hlk) in He.
           rewrite (stored_table_dict h self d n Hd) in Hdf.
           destruct (dict_get Z.eqb n d) as [l|]; [|discriminate].
           rewrite (copy_frame_ok _ _ _ Hdf) in He. discriminate.
      * intros [l [=]].
Qed.

Lemma container_queries_agree_witness :
  get_loaded_cycle_numbers first_container loaded_heap = (Ok [1; 3]%Z, loaded_heap)
  /\ __len__ first_container loaded_heap = (Ok 2%nat, loaded_heap)
  /\ has_cycle first_container 2 loaded_heap = (Ok false, loaded_heap).
Proof.
  destruct (container_queries_agree loaded_heap first_container loaded_heap_ok)
    as (numbers & Hnumbers & _ & Hlen & Hhas).
  assert (Heq : numbers = [1; 3]%Z).
  { vm_compute in Hnumbers. injection Hnumbers as <-. reflexivity. }
  subst numbers. split; [exact Hnumbers|]. split; [exact Hlen|].
  destruct (Hhas 2%Z) as (b & Hb & Hiff & _). rewrite Hb. f_equal. f_equal.
  destruct b; [|reflexivity].
  destruct (proj1 Hiff eq_refl) as [H|[H|[]]]; discriminate.
Defined.

(** ** New and cleared containers *)

Lemma get_cycle_range_loop_empty (cycle_nos : list Z) (dfs : list loc)
  (cumulative_time : option Q) (h : heap) :
  get_cycle_range_loop [] cycle_nos dfs cumulative_time h = (Ok dfs, h).
Proof.
  induction cycle_nos as [|n rest IH]; cbn [get_cycle_range_loop dict_get];
    [reflexivity|exact IH].
Qed.

Lemma empty_container_answers (h : heap) (self : CycleDataContainer) :
  h !! _cycles self = Some (OCycles []) ->
  h !! _metadata self = Some (OMeta []) ->
  answers_as_empty h self.
Proof.
  intros Hc Hm. unfold answers_as_empty.
  split; [unfold __len__; rewrite M_bind_unfold, (read_cycles_ok _ _ _ Hc); reflexivity|].
  split; [unfold get_loaded_cycle_numbers;
          rewrite M_bind_unfold, (read_cycles_ok _ _ _ Hc); reflexivity|].
  split; [intros n; unfold has_cycle;
          rewrite M_bind_unfold, (read_cycles_ok _ _ _ Hc); reflexivity|].
  split; [intros n; unfold get_cycle;
          rewrite M_bind_unfold, (read_cycles_ok _ _ _ Hc); reflexivity|].
  split.
  - intros start stop. unfold get_cycle_range.
    rewrite M_bind_unfold, (read_cycles_ok _ _ _ Hc).
    rewrite M_bind_unfold, get_cycle_range_loop_empty. reflexivity.
  - unfold stored_metadata. rewrite Hm. reflexivity.
Qed.

(** X18: [CycleDataContainer()] allocates two new dicts and touches no
    existing object; the new container is well-formed and answers every
    query as an empty one. *)
Theorem new_container_is_empty (h : heap) :
  exists self h',
    __init__ h = (Ok self, h')
    /\ extends h h'
    /\ (length h <= _cycles self)%nat /\ (length h <= _metadata self)%nat
    /\ container_ok h' self
    /\ answers_as_empty h' self.
Proof.
  destruct (init_run h) as (Hrun & Hok & Hc & Hm). cbv zeta in *.
  eexists. eexists. split; [exact Hrun|].
  split; [eexists; reflexivity|].
  cbn [_cycles _metadata]. split; [lia|]. split; [lia|]. split; [exact Hok|].
  apply empty_container_answers.
  - apply stored_cycles_lookup, Hc.
  - cbn [_metadata]. rewrite lookup_app_r by lia.
    replace (S (length h) - length h)%nat with 1%nat by lia. reflexivity.
Qed.

(** X19: [clear()] on a well-formed container empties its two dicts in
    place.  Afterwards the container is well-formed and answers every
    query as an empty one; every other object, in particular every
    table handed out before, is as it was. *)
Theorem clear_empties_container (h : heap) (self : CycleDataContainer) :
  container_ok h self ->
  exists h',
    clear self h = (Ok tt, h')
    /\ length h' = length h
    /\ (forall l, l <> _cycles self -> l <> _metadata self -> h' !! l = h !! l)
    /\ container_ok h' self
    /\ answers_as_empty h' self.
Proof.
  intros Hok. destruct (container_ok_cycles h self Hok) as (d & Hlk & _).
  destruct Hok as (Hne & _ & (md & Hmd & _)).
  assert (Hc_lt : (_cycles self < length h)%nat) by (eapply lookup_lt_Some, Hlk).
  assert (Hm_lt : (_metadata self < length h)%nat) by (eapply lookup_lt_Some, Hmd).
  set (h' := <[_metadata self := OMeta []]> (<[_cycles self := OCycles []]> h)).
  assert (Hc' : h' !! _cycles self = Some (OCycles [])).
  { unfold h'. rewrite list_lookup_insert_ne by (intros E; apply Hne; symmetry; exact E).
    apply list_lookup_insert_eq. exact Hc_lt. }
  assert (Hm' : h' !! _metadata self = Some (OMeta [])).
  { unfold h'. apply list_lookup_insert_eq. rewrite length_insert. exact Hm_lt. }
  exists h'. split; [reflexivity|].
  split; [unfold h'; rewrite !length_insert; reflexivity|].
  split.
  { intros l Hl1 Hl2. unfold h'.
    rewrite !list_lookup_insert_ne by (intros E; subst; contradiction). reflexivity. }
  split.
  - split; [exact Hne|]. split.
    + exists []. split; [unfold stored_cycles; rewrite Hc'; reflexivity|]. intros n l [].
    + exists []. split; [exact Hm'|]. intros k l [].
  - apply empty_container_answers; assumption.
Qed.

Lemma clear_empties_container_witness :
  exists h',
    clear first_container loaded_heap = (Ok tt, h')
    /\ __len__ first_container h' = (Ok 0%nat, h')
    /\ frame_at h' 2 = frame_at loaded_heap 2
    /\ is_Some (frame_at loaded_heap 2).
Proof.
  destruct (clear_empties_container loaded_heap first_container loaded_heap_ok)
    as (h' & Hclear & _ & Hkept & _ & Hlen & _).
  exists h'. split; [exact Hclear|]. split; [exact Hlen|]. split.
  - unfold frame_at. rewrite (Hkept 2%nat); [reflexivity|discriminate|discriminate].
  - vm_compute. eauto.
Defined.

(** ** Bulk load with any loader *)

Section AnyLoader.
Context {L : Type} `{BaseDataLoader L}.

Lemma load_loop_run (fs : FileSystem) (self : CycleDataContainer) (data_path : string) :
  forall (cycle_nos : list Z) (loader : L) (h : heap),
    container_ok h self ->
    container_ok (snd (load_loop fs self data_path cycle_nos loader h)) self
    /\ stored_metadata (snd (load_loop fs self data_path cycle_nos loader h)) self
       = stored_metadata h self
    /\ (forall n, is_Some (stored_table h self n) ->
                  is_Some (stored_table
                             (snd (load_loop fs self data_path cycle_nos loader h)) self n))
    /\ (forall n, ~ In n cycle_nos ->
                  stored_table (snd (load_loop fs self data_path cycle_nos loader h)) self n
                  = stored_table h self n).
Proof.
  induction cycle_nos as [|c rest IH]; intros loader h Hok; cbn [load_loop].
  - cbn [snd]. split; [exact Hok|]. split; [reflexivity|]. split; [auto|reflexivity].
  - destruct (load_cycle fs data_path c loader) as [[df|e] loader'].
    + destruct (store_cycle_run h self c df Hok) as (h1 & Hrun & Hok1 & Hm1 & Ht1).
      rewrite Hrun. destruct (IH loader' h1 Hok1) as (IHok & IHm & IHkeep & IHout).
      split; [exact IHok|]. split; [rewrite IHm; exact Hm1|]. split.
      * intros n Hn. apply IHkeep. rewrite Ht1.
        destruct (decide (n = c)); [eauto|exact Hn].
      * intros n Hn. rewrite IHout by (intros Hin; apply Hn; right; exact Hin).
        rewrite Ht1. destruct (decide (n = c)) as [->|_]; [|reflexivity].
        exfalso. apply Hn. left. reflexivity.
    + destruct (exn_class_eqb (exn_cls e) FileNotFoundError).
      * destruct (IH loader' h Hok) as (IHok & IHm & IHkeep & IHout).
        split; [exact IHok|]. split; [exact IHm|]. split; [exact IHkeep|].
        intros n Hn. apply IHout. intros Hin. apply Hn. right. exact Hin.
      * cbn [snd]. split; [exact Hok|]. split; [reflexivity|]. split; [auto|reflexivity].
Qed.

Lemma load_loop_outcome (fs : FileSystem) (self : CycleDataContainer) (data_path : string)
  (cycle_nos : list Z) (loader : L) (h : heap) :
  container_ok h self ->
  exists r loader' h',
    load_loop fs self data_path cycle_nos loader h = (r, loader', h')
    /\ container_ok h' self
    /\ stored_metadata h' self = stored_metadata h self
    /\ (forall n, is_Some (stored_table h self n) -> is_Some (stored_table h' self n))
    /\ (forall n, ~ In n cycle_nos -> stored_table h' self n = stored_table h self n).
Proof.
  intros Hok. pose proof (load_loop_run fs self data_path cycle_nos loader h Hok) as Hrun.
  destruct (load_loop fs self data_path cycle_nos loader h) as [[r loader'] h'].
  exists r, loader', h'. split; [reflexivity|exact Hrun].
Qed.

Lemma save_metadata_cycles (h : heap) (self : CycleDataContainer) (data_path : string)
  (start stop : Z) :
  container_ok h self ->
  run (save_metadata self data_path start stop) h !! _cycles self = h !! _cycles self.
Proof.
  intros Hok. unfold run, save_metadata.
  destruct (container_ok_cycles h self Hok) as (d & Hlk & _).
  destruct (setitem_metadata_run h self "data_path" (VStr data_path) Hok)
    as (ha & mda & Hra & Hoka & _ & Hca & _); [intros l [=]|].
  rewrite M_bind_unfold, Hra.
  destruct (setitem_metadata_run ha self "cycle_range" (VRange start stop) Hoka)
    as (hb & mdb & Hrb & Hokb & _ & Hcb & _); [intros l [=]|].
  rewrite M_bind_unfold, Hrb.
  assert (Hlkb : hb !! _cycles self = Some (OCycles d))
    by (rewrite Hcb, Hca; exact Hlk).
  rewrite M_bind_unfold, (read_cycles_ok _ _ _ Hlkb).
  rewrite M_bind_unfold. unfold alloc at 1.
  assert (Hext : extends hb (hb ++ [OList (dict_keys d)])) by (eexists; reflexivity).
  destruct (stored_views_extend hb _ self Hokb Hext) as (_ & _ & Hokc).
  destruct (setitem_metadata_run (hb ++ [OList (dict_keys d)]) self "loaded_cycles"
              (VListRef (length hb)) Hokc)
    as (hc & mdc & Hrc & _ & _ & Hcc & _).
  { intros l [= <-]. exists (dict_keys d). apply lookup_alloc_new. }
  rewrite Hrc. cbn [snd]. rewrite Hcc.
  rewrite lookup_alloc_old by (eapply lookup_lt_Some, Hlkb).
  rewrite Hlkb, Hlk. reflexivity.
Qed.

(** X20: [load_all_cycles] with any loader, whether it returns or raises,
    leaves the container well-formed, removes no cycle, and changes no
    cycle outside the range it was given.  When it returns, the
    metadata name the data path and the range, and [loaded_cycles]
    lists exactly the numbers [get_loaded_cycle_numbers] returns; when
    it raises, the metadata are as they were before the call. *)
Theorem bulk_load_keeps_container_consistent (fs : FileSystem)
  (self : CycleDataContainer) (data_path : string) (loader : L)
  (cycle_range : option (Z * Z)) (h : heap) :
  container_ok h self ->
  exists r loader' h',
    load_all_cycles fs self data_path loader cycle_range h = (r, loader', h')
    /\ container_ok h' self
    /\ (forall n, is_Some (stored_table h self n) -> is_Some (stored_table h' self n))
    /\ (forall start stop n,
          cycle_range = Some (start, stop) -> ~ (start <= n <= stop)%Z ->
          stored_table h' self n = stored_table h self n)
    /\ (r = Ok tt ->
        exists start stop numbers listed md,
          match cycle_range with
          | Some given => Ok given
          | None => get_all_cycles fs data_path
          end = Ok (start, stop)
          /\ get_loaded_cycle_numbers self h' = (Ok numbers, h')
          /\ stored_metadata h' self = Some md
          /\ dict_get String.eqb "data_path" md = Some (MStr data_path)
          /\ dict_get String.eqb "cycle_range" md = Some (MRange start stop)
          /\ dict_get String.eqb "loaded_cycles" md = Some (MList listed)
          /\ Permutation listed numbers)
    /\ (r <> Ok tt -> stored_metadata h' self = stored_metadata h self).
Proof.
  intros Hok. unfold load_all_cycles.
  destruct (match cycle_range with
            | Some r => Ok r
            | None => get_all_cycles fs data_path
            end) as [[start stop]|e] eqn:Hrange.
  2:{ exists (Raise e), loader, h. split; [reflexivity|]. split; [exact Hok|].
      split; [auto|]. split; [reflexivity|]. split; [discriminate|reflexivity]. }
  destruct (load_loop_outcome fs self data_path (inclusive_range start stop) loader h Hok)
    as (r & loader' & h1 & Hloop & Hok1 & Hm1 & Hkeep1 & Hout1).
  rewrite Hloop.
  assert (Hout : forall a b n, cycle_range = Some (a, b) -> ~ (a <= n <= b)%Z ->
                               stored_table h1 self n = stored_table h self n).
  { intros a b n Hgiven Hn. apply Hout1. rewrite Hgiven in Hrange.
    injection Hrange as <- <-. intros Hin. apply Hn.
    apply inclusive_range_lower in Hin. exact Hin. }
  destruct r as [[]|e].
  - destruct (save_metadata_run h1 self data_path start stop Hok1)
      as (h2 & d & md & Hsave & Hok2 & Ht2 & Hd & Hmd & Hk1 & Hk2 & Hk3).
    rewrite Hsave. exists (Ok tt), loader', h2. split; [reflexivity|].
    split; [exact Hok2|].
    split; [intros n Hn; rewrite Ht2; apply Hkeep1, Hn|].
    split; [intros a b n Hgiven Hn; rewrite Ht2; apply (Hout a b n Hgiven Hn)|].
    split; [|intros Hr; contradiction].
    intros _.
    destruct (container_ok_cycles h2 self Hok2) as (d2 & Hlk2 & _).
    assert (Hd2 : d2 = d).
    { pose proof (save_metadata_cycles h1 self data_path start stop Hok1) as Hc.
      unfold run in Hc. rewrite Hsave in Hc. cbn [snd] in Hc.
      apply stored_cycles_lookup in Hd. rewrite Hc, Hd in Hlk2.
      injection Hlk2 as ->. reflexivity. }
    subst d2.
    exists start, stop, (merge_sort Z.le (dict_keys d)), (dict_keys d), md.
    split; [reflexivity|].
    split; [unfold get_loaded_cycle_numbers;
            rewrite M_bind_unfold, (read_cycles_ok _ _ _ Hlk2); reflexivity|].
    split; [exact Hmd|]. split; [exact Hk1|]. split; [exact Hk2|]. split; [exact Hk3|].
    symmetry. apply merge_sort_Permutation.
  - exists (Raise e), loader', h1. split; [reflexivity|]. split; [exact Hok1|].
    split; [exact Hkeep1|]. split; [exact Hout|]. split; [discriminate|].
    intros _. exact Hm1.
Qed.

End AnyLoader.

Lemma bulk_load_keeps_container_consistent_witness :
  exists e loader' h',
    load_all_cycles C2_toyo_files first_container "/data/toyo" (mkToyo None)
      (Some (1, 3)%Z) loaded_heap = (Raise e, loader', h')
    /\ container_ok h' first_container
    /\ stored_metadata h' first_container = stored_metadata loaded_heap first_container
    /\ stored_table h' first_container 5 = stored_table loaded_heap first_container 5.
Proof.
  destruct (bulk_load_keeps_container_consistent C2_toyo_files first_container
              "/data/toyo" (mkToyo None) (Some (1, 3)%Z) loaded_heap loaded_heap_ok)
    as (r & loader' & h' & Hload & Hok & _ & Hout & _ & Hraise).
  assert (Hr : exists e, r = Raise e).
  { vm_compute in Hload. injection Hload as <- _ _. eexists. reflexivity. }
  destruct Hr as [e ->].
  exists e, loader', h'. split; [exact Hload|]. split; [exact Hok|].
  split; [apply Hraise; discriminate|].
  apply (Hout 1%Z 3%Z 5%Z eq_refl). lia.
Defined.

(** ** Configuration *)

Lemma validate_cycles_accepts (cycle_numbers : option (list Z))
  (cycle_range : option (Z * Z)) :
  Config.validate_cycles cycle_numbers cycle_range = Valid tt ->
  (forall l, cycle_numbers = Some l -> Forall (fun c => 0 < c)%Z l)
  /\ (forall start stop, cycle_range = Some (start, stop) -> (0 < start <= stop)%Z).
Proof.
  unfold Config.validate_cycles. intros H. split.
  - intros l ->. destruct l as [|c l]; [constructor|].
    cbn [Config.list_given] in H. unfold default in H. cbn [from_option id] in H.
    destruct (forallb (fun c => (0 <? c)%Z) (c :: l)) eqn:E; [|discriminate].
    apply List.Forall_forall. intros x Hx.
    rewrite forallb_forall in E. specialize (E x Hx). apply Z.ltb_lt in E. exact E.
  - intros start stop ->.
    destruct (if Config.list_given cycle_numbers then _ else _);
      cbn [mbind checked_bind] in H; [|discriminate].
    destruct ((start <=? 0)%Z || (stop <=? 0)%Z || (stop <? start)%Z) eqn:E;
      [discriminate|].
    apply orb_false_iff in E. destruct E as [E E3].
    apply orb_false_iff in E. destruct E as [E1 E2].
    apply Z.leb_gt in E1. apply Z.leb_gt in E2. apply Z.ltb_ge in E3. lia.
Qed.

(** X21: what [validate] guarantees of the settings that are not
    floats.  A configuration it accepts names a manifest file when it
    asks for one, and in its cycle settings and in its profile settings
    it lists only positive cycle numbers and gives only ranges with
    0 < start <= end. *)
Theorem validated_config_guarantees (config : Config.AnalysisConfig) :
  Config.validate config = Valid tt ->
  (Config.use_tsv (Config.path config) = true ->
   exists file, Config.tsv_file (Config.path config) = Some file
                /\ file <> EmptyString)
  /\ (forall cycle,
        Config.cycle config = Some cycle ->
        (forall l, Config.cycle_numbers cycle = Some l -> Forall (fun c => 0 < c)%Z l)
        /\ (forall start stop, Config.cycle_range cycle = Some (start, stop) ->
                               (0 < start <= stop)%Z))
  /\ (forall profile,
        Config.profile config = Some profile ->
        (forall l, Config.Profile.cycle_numbers profile = Some l ->
                   Forall (fun c => 0 < c)%Z l)
        /\ (forall start stop,
              Config.Profile.cycle_range profile = Some (start, stop) ->
              (0 < start <= stop)%Z)).
Proof.
  unfold Config.validate. intros H.
  destruct (Config.use_tsv (Config.path config)
            && negb (Config.text_given (Config.tsv_file (Config.path config)))) eqn:Etsv;
    cbn [mbind checked_bind] in H; [discriminate|].
  assert (H' : (match Config.cycle config with
                | Some cycle => Config.validate_cycles (Config.cycle_numbers cycle)
                                  (Config.cycle_range cycle)
                | None => Valid tt
                end) = Valid tt
               /\ (match Config.profile config with
                   | Some profile =>
                       _ ← (if Qle_bool (Config.Profile.voltage_max profile)
                                  (Config.Profile.voltage_min profile)
                            then Invalid Voltage_range_not_valid else Valid tt);
                       Config.validate_cycles (Config.Profile.cycle_numbers profile)
                         (Config.Profile.cycle_range profile)
                   | None => Valid tt
                   end) = Valid tt).
  { destruct (mode (Config.capacity config));
      destruct (Qle_bool _ 0); cbn [mbind checked_bind] in H; try discriminate;
      destruct (Config.cycle config) as [cycle|];
      try (destruct (Config.validate_cycles (Config.cycle_numbers cycle)
                       (Config.cycle_range cycle)) as [[]|] eqn:Ec;
           cbn [mbind checked_bind] in H; [|discriminate]);
      split; solve [reflexivity | exact H]. }
  destruct H' as [Hcycle Hprofile].
  split.
  { intros Htsv. rewrite Htsv in Etsv. cbn [andb] in Etsv.
    apply negb_false_iff in Etsv. unfold Config.text_given in Etsv.
    destruct (Config.tsv_file (Config.path config)) as [file|]; [|discriminate].
    exists file. split; [reflexivity|]. intros ->. discriminate. }
  split.
  - intros cycle Hc. rewrite Hc in Hcycle. apply validate_cycles_accepts, Hcycle.
  - intros profile Hp. rewrite Hp in Hprofile.
    destruct (Qle_bool (Config.Profile.voltage_max profile)
                (Config.Profile.voltage_min profile)) eqn:E;
      cbn [mbind checked_bind] in Hprofile; [discriminate|].
    apply validate_cycles_accepts, Hprofile.
Qed.

Lemma validated_config_guarantees_witness :
  Forall (fun c => 0 < c)%Z [3; 4]%Z /\ (0 < 3 <= 5)%Z.
Proof.
  destruct (validated_config_guarantees
              (Config.mkAnalysisConfig
                 (Config.mkPathConfig false None None None)
                 (mkCapacityConfig MANUAL 0 3000)
                 (Some (Config.mkCycleConfig (Some [3; 4]%Z) (Some (3, 5)%Z)
                          0 (11 # 10) (65 # 100) Config.RSS 0))
                 None Config.default_ExportConfig)
              eq_refl) as (_ & Hcycle & _).
  destruct (Hcycle _ eq_refl) as [Hnumbers Hrange].
  split; [exact (Hnumbers _ eq_refl)|exact (Hrange _ _ eq_refl)].
Defined.

(** ** Configurations built from the GUI *)

Section GuiConfig.
Variable float_of_str : string -> checked Q.

Lemma builder_steps_keep_path (gui : Config.Gui) (config : Config.AnalysisConfig) :
  Config.path (snd (Config.with_cycle_config float_of_str gui config))
  = Config.path config
  /\ Config.path (snd (Config.with_profile_config float_of_str gui config))
     = Config.path config.
Proof.
  unfold Config.with_cycle_config, Config.with_profile_config. split.
  - destruct (_ ≫= _); reflexivity.
  - destruct (_ ≫= _); reflexivity.
Qed.

(** X22: the builder cannot name a manifest.  Whatever the widgets hold,
    the path settings that [from_gui_widgets] leaves behind either do
    not ask for a manifest or carry the empty file name of the
    placeholder; the later builder steps keep them.  So [build] accepts
    such a configuration only without a manifest, and
    [LinkedCycleAnalyzer] cannot be constructed from it: with no
    container [__init__] raises StopIteration, with any container its
    ValueError. *)
Theorem gui_config_never_links (gui : Config.Gui) (start : Config.AnalysisConfig) :
  let config := snd (Config.from_gui_widgets float_of_str gui start) in
  Config.text_given (Config.tsv_file (Config.path config)) = false
  /\ Config.path (snd (Config.with_cycle_config float_of_str gui config))
     = Config.path config
  /\ Config.path (snd (Config.with_profile_config float_of_str gui config))
     = Config.path config
  /\ forall built final,
       Config.path built = Config.path config ->
       Config.build built = Valid final ->
       Config.use_tsv (Config.path final) = false
       /\ forall containers,
            LinkedCycleAnalyzer_init final containers
            = match containers with
              | [] => Failed StopIteration
              | _ :: _ => Failed (Refused Requires_TSV_file)
              end.
Proof.
  cbn zeta.
  assert (Htext : Config.text_given
                    (Config.tsv_file
                       (Config.path (snd (Config.from_gui_widgets float_of_str gui start))))
                  = false).
  { unfold Config.from_gui_widgets.
    destruct (if Config.inicaprate gui then _ else _); cbn [snd Config.path Config.tsv_file];
      destruct (Config.chk_cyclepath gui); reflexivity. }
  split; [exact Htext|].
  split; [apply builder_steps_keep_path|]. split; [apply builder_steps_keep_path|].
  intros built final Hpath. unfold Config.build.
  destruct (Config.validate built) as [[]|] eqn:Hv; cbn [mbind checked_bind]; [|discriminate].
  intros [= <-].
  assert (Huse : Config.use_tsv (Config.path built) = false).
  { unfold Config.validate in Hv. rewrite Hpath in Hv. rewrite Hpath.
    rewrite Htext in Hv. cbn [negb] in Hv. rewrite andb_true_r in Hv.
    destruct (Config.use_tsv _); [discriminate|reflexivity]. }
  split; [exact Huse|].
  intros containers. unfold LinkedCycleAnalyzer_init.
  destruct containers as [|[name c] rest]; [reflexivity|].
  rewrite Huse. reflexivity.
Qed.

End GuiConfig.

(** ** Analyzers on a container *)

Lemma A_bind_unfold {X Y} (m : A X) (k : X -> A Y) (h : heap) :
  (m ≫= k) h
  = match m h with
    | (Done x, h') => k x h'
    | (Failed why, h') => (Failed why, h')
    end.
Proof. reflexivity. Qed.

Lemma visit_cycle (h : heap) (self : CycleDataContainer) (n : Z) :
  container_ok h self ->
  (stored_table h self n = None /\ has_cycle self n h = (Ok false, h))
  \/ (exists df,
        stored_table h self n = Some df
        /\ has_cycle self n h = (Ok true, h)
        /\ get_cycle self n h = (Ok (length h), h ++ [OFrame df])
        /\ container_ok (h ++ [OFrame df]) self
        /\ forall m, stored_table (h ++ [OFrame df]) self m = stored_table h self m).
Proof.
  intros Hok. destruct (container_ok_cycles h self Hok) as (d & Hlk & Hd).
  assert (Hsc : stored_cycles h self = Some d)
    by (unfold stored_cycles; rewrite Hlk; reflexivity).
  assert (Hhas : has_cycle self n h
                 = (Ok (bool_decide (is_Some (dict_get Z.eqb n d))), h)).
  { unfold has_cycle. rewrite M_bind_unfold, (read_cycles_ok _ _ _ Hlk). reflexivity. }
  rewrite Hhas, (stored_table_dict h self d n Hsc).
  destruct (dict_get Z.eqb n d) as [l|] eqn:E.
  - right. destruct (Hd n l) as (_ & _ & _ & [df Hdf]).
    { apply (dict_get_In Z.eqb Zeqb_eq), E. }
    exists df. split; [exact Hdf|].
    split; [rewrite bool_decide_eq_true_2 by eauto; reflexivity|].
    split.
    + unfold get_cycle. rewrite M_bind_unfold, (read_cycles_ok _ _ _ Hlk), E.
      apply copy_frame_ok, Hdf.
    + assert (Hext : extends h (h ++ [OFrame df])) by (eexists; reflexivity).
      destruct (stored_views_extend h _ self Hok Hext) as (Ht & _ & Hok').
      split; [exact Hok'|exact Ht].
  - left. split; [reflexivity|].
    rewrite bool_decide_eq_false_2; [reflexivity|]. intros [x Hx]. discriminate.
Qed.

Lemma omap_ext_stored {B} (f g : Z -> option B) (l : list Z) :
  (forall n, f n = g n) -> omap f l = omap g l.
Proof. intros Hfg. induction l as [|n l IH]; cbn; [reflexivity|]. rewrite Hfg, IH. reflexivity. Qed.

Lemma collect_run (cfg : CapacityConfig) (self : CycleDataContainer)
  (cycle_numbers : list Z) :
  forall h, container_ok h self ->
  exists h',
    ReliabilityRun.collect cfg self cycle_numbers h
    = (Ok (omap (fun n => capacity_row cfg n <$> stored_table h self n) cycle_numbers), h')
    /\ extends h h'.
Proof.
  induction cycle_numbers as [|n rest IH]; intros h Hok.
  - exists h. split; [reflexivity|apply extends_refl].
  - cbn [ReliabilityRun.collect].
    destruct (visit_cycle h self n Hok)
      as [[Hnone Hhas]|(df & Hsome & Hhas & Hget & Hok1 & Ht1)].
    + rewrite M_bind_unfold, Hhas. cbn [negb].
      destruct (IH h Hok) as (h' & Hrun & Hext).
      exists h'. split; [|exact Hext].
      rewrite Hrun. cbn [omap list_omap]. rewrite Hnone. reflexivity.
    + rewrite M_bind_unfold, Hhas. cbn [negb].
      rewrite M_bind_unfold, Hget, M_bind_unfold, read_frame_new.
      destruct (IH _ Hok1) as (h' & Hrun & Hext).
      exists h'. split; [|eapply extends_trans; [eexists; reflexivity|exact Hext]].
      rewrite M_bind_unfold, Hrun.
      cbn [omap list_omap]. rewrite Hsome. cbn [fmap option_fmap option_map].
      rewrite (omap_ext_stored _ (fun n => capacity_row cfg n <$> stored_table h self n)
                 rest) by (intros m; rewrite Ht1; reflexivity).
      reflexivity.
Qed.

Lemma short_series_raises (p_value_of : list Q -> list Q -> Q)
  (statistical_metrics_of : list CapacityRow -> pydict Q)
  (capacity_df : list CapacityRow) :
  (length capacity_df < 2)%nat ->
  exists key,
    analyze_capacity_data p_value_of statistical_metrics_of capacity_df
    = Raise (Exn KeyError (Key_not_in_dict key)).
Proof.
  destruct capacity_df as [|r [|r' rest]]; cbn [length]; intros Hlen; [| |lia].
  - eexists. reflexivity.
  - eexists. reflexivity.
Qed.

Lemma analyzed_series (p_value_of : list Q -> list Q -> Q)
  (statistical_metrics_of : list CapacityRow -> pydict Q)
  (capacity_df : list CapacityRow) (results : ReliabilityResults) :
  analyze_capacity_data p_value_of statistical_metrics_of capacity_df = Ok results ->
  capacity_data results = capacity_df /\ (2 <= length capacity_df)%nat.
Proof.
  intros H. split.
  - unfold analyze_capacity_data in H.
    destruct (_analyze_capacity_fade p_value_of capacity_df);
      cbn [mbind result_bind rbind] in H; [|discriminate].
    destruct (_calculate_statistical_metrics statistical_metrics_of capacity_df);
      cbn [mbind result_bind rbind] in H; [|discriminate].
    destruct (_predict_lifecycle capacity_df a);
      cbn [mbind result_bind rbind] in H; [|discriminate].
    injection H as <-. reflexivity.
  - destruct (le_lt_dec 2 (length capacity_df)) as [Hle|Hlt]; [exact Hle|].
    destruct (short_series_raises p_value_of statistical_metrics_of capacity_df Hlt)
      as [key Hkey].
    rewrite Hkey in H. discriminate.
Qed.

(** X23: a run of the reliability analyzer on a well-formed container.
    It works on the configured cycle numbers, or on every loaded number
    when none is configured, and keeps those the container has.  The
    run is refused when the configuration does not validate or the
    container is empty; it raises KeyError when fewer than two of the
    selected cycles are in the container; and whenever it returns, the
    capacity table has one row per selected stored cycle, in order,
    with the capacities derived from the stored table, there are at
    least two rows, and a grade is set.  No stored object is
    changed. *)
Theorem reliability_run_outcome (p_value_of : list Q -> list Q -> Q)
  (statistical_metrics_of : list CapacityRow -> pydict Q)
  (config : Config.AnalysisConfig) (container : CycleDataContainer) (h : heap) :
  container_ok h container ->
  exists numbers outcome h',
    ReliabilityRun.selected_cycles config container h = (Ok numbers, h)
    /\ ReliabilityRun.run p_value_of statistical_metrics_of config container h
       = (outcome, h')
    /\ extends h h'
    /\ let capacity_df :=
         omap (fun n => capacity_row (Config.capacity config) n
                          <$> stored_table h container n) numbers in
       (forall what, Config.validate config = Invalid what ->
                     outcome = Failed (Refused what))
       /\ (Config.validate config = Valid tt ->
           stored_cycles h container = Some [] ->
           outcome = Failed (Refused Container_is_empty))
       /\ (Config.validate config = Valid tt ->
           stored_cycles h container <> Some [] ->
           (length capacity_df < 2)%nat ->
           exists key, outcome = Failed (Raised (Exn KeyError (Key_not_in_dict key))))
       /\ (forall results,
             outcome = Done results ->
             Config.validate config = Valid tt
             /\ capacity_data results = capacity_df
             /\ (2 <= length capacity_df)%nat
             /\ exists grade, reliability_grade results = Some grade).
Proof.
  intros Hok. destruct (container_ok_cycles h container Hok) as (d & Hlk & _).
  assert (Hsc : stored_cycles h container = Some d)
    by (unfold stored_cycles; rewrite Hlk; reflexivity).
  assert (Hsel : exists numbers,
             ReliabilityRun.selected_cycles config container h = (Ok numbers, h)).
  { unfold ReliabilityRun.selected_cycles, get_loaded_cycle_numbers.
    destruct (Config.cycle config) as [cycle|].
    - destruct (Config.list_given (Config.cycle_numbers cycle)); [eexists; reflexivity|].
      rewrite M_bind_unfold, (read_cycles_ok _ _ _ Hlk). eexists. reflexivity.
    - rewrite M_bind_unfold, (read_cycles_ok _ _ _ Hlk). eexists. reflexivity. }
  destruct Hsel as [numbers Hsel]. exists numbers.
  destruct (collect_run (Config.capacity config) container numbers h Hok)
    as (h1 & Hcollect & Hext).
  set (capacity_df := omap (fun n => capacity_row (Config.capacity config) n
                                       <$> stored_table h container n) numbers) in *.
  unfold ReliabilityRun.run, prepare.
  destruct (Config.validate config) as [[]|what] eqn:Hv.
  2:{ exists (Failed (Refused what)), h. split; [exact Hsel|].
      split; [reflexivity|]. split; [apply extends_refl|]. cbn zeta.
      split; [intros w [= <-]; reflexivity|].
      split; [discriminate|]. split; [discriminate|]. discriminate. }
  assert (Hlen : __len__ container h = (Ok (length d), h)).
  { unfold __len__. rewrite M_bind_unfold, (read_cycles_ok _ _ _ Hlk). reflexivity. }
  destruct d as [|entry d].
  { exists (Failed (Refused Container_is_empty)), h. split; [exact Hsel|].
    split.
    { rewrite !A_bind_unfold. unfold of_checked at 1. cbn iota.
      rewrite A_bind_unfold. unfold of_M at 1. rewrite Hlen. reflexivity. }
    split; [apply extends_refl|]. cbn zeta.
    split; [discriminate|]. split; [reflexivity|].
    split; [intros _ Hne; contradiction|]. discriminate. }
  assert (Hprep : forall Y (k : unit -> A Y),
             ((_ ← of_checked (Valid tt);
               count ← of_M (__len__ container);
               if (count =? 0)%nat then refuse Container_is_empty else mret tt) ≫= k) h
             = k tt h).
  { intros Y k. rewrite !A_bind_unfold. unfold of_checked at 1. cbn iota.
    rewrite A_bind_unfold. unfold of_M at 1. rewrite Hlen. reflexivity. }
  rewrite Hprep.
  assert (Hanalyze :
            ReliabilityRun.analyze p_value_of statistical_metrics_of config container h
            = (match analyze_capacity_data p_value_of statistical_metrics_of capacity_df with
               | Ok results => Done results
               | Raise e => Failed (Raised e)
               end, h1)).
  { unfold ReliabilityRun.analyze. rewrite A_bind_unfold. unfold of_M at 1.
    rewrite Hsel. rewrite A_bind_unfold. unfold of_M at 1. rewrite Hcollect.
    unfold of_M, lift.
    destruct (analyze_capacity_data p_value_of statistical_metrics_of capacity_df);
      reflexivity. }
  rewrite A_bind_unfold, Hanalyze.
  destruct (analyze_capacity_data p_value_of statistical_metrics_of capacity_df)
    as [results|e] eqn:Hdata.
  - destruct (analyzed_series _ _ _ _ Hdata) as [Hcap Htwo].
    destruct (ReliabilityRun.postprocess results h1) as [outcome h2] eqn:Hpost.
    assert (Hpost' : h2 = h1
                     /\ forall final, outcome = Done final ->
                          capacity_data final = capacity_data results
                          /\ exists grade, reliability_grade final = Some grade).
    { unfold ReliabilityRun.postprocess in Hpost.
      rewrite A_bind_unfold in Hpost. cbn [postprocess mret A_ret] in Hpost.
      rewrite A_bind_unfold in Hpost. unfold of_M at 1, lift in Hpost.
      destruct (getitem (fade_analysis results) "relative_fade");
        [|injection Hpost as <- <-; split; [reflexivity|discriminate]].
      rewrite A_bind_unfold in Hpost. unfold of_M at 1, lift in Hpost.
      destruct (getitem (statistical_metrics results) "capacity_cv");
        [|injection Hpost as <- <-; split; [reflexivity|discriminate]].
      cbn [mret A_ret] in Hpost. injection Hpost as <- <-.
      split; [reflexivity|]. intros final [= <-]. cbn. split; [reflexivity|eauto]. }
    destruct Hpost' as [-> Hfinal].
    exists outcome, h1. split; [exact Hsel|]. split; [reflexivity|].
    split; [exact Hext|]. cbn zeta.
    split; [discriminate|].
    split; [intros _ Hempty; rewrite Hsc in Hempty; discriminate|].
    split; [intros _ _ Hlt; lia|].
    intros final Hdone. destruct (Hfinal final Hdone) as [Hc Hg].
    split; [reflexivity|]. split; [rewrite Hc; exact Hcap|]. split; [exact Htwo|exact Hg].
  - exists (Failed (Raised e)), h1. split; [exact Hsel|]. split; [reflexivity|].
    split; [exact Hext|]. cbn zeta.
    split; [discriminate|].
    split; [intros _ Hempty; rewrite Hsc in Hempty; discriminate|].
    split; [|discriminate].
    intros _ _ Hlt.
    destruct (short_series_raises p_value_of statistical_metrics_of capacity_df Hlt)
      as [key Hkey].
    rewrite Hkey in Hdata. injection Hdata as <-. exists key. reflexivity.
Qed.

Lemma reliability_run_outcome_witness :
  exists h',
    ReliabilityRun.run (fun _ _ => 0) C10_metrics sample_config first_container
      loaded_heap
    = (Failed (Raised (Exn KeyError (Key_not_in_dict "linear_slope"))), h').
Proof.
  destruct (reliability_run_outcome (fun _ _ => 0) C10_metrics sample_config
              first_container loaded_heap loaded_heap_ok)
    as (numbers & outcome & h' & Hsel & Hrun & _ & _ & _ & Hshort & _).
  exists h'. rewrite Hrun. f_equal.
  destruct Hshort as [key Hkey].
  - reflexivity.
  - vm_compute. discriminate.
  - vm_compute in Hsel. injection Hsel as <-. vm_compute. lia.
  - rewrite Hkey in Hrun. vm_compute in Hrun. injection Hrun as <- _.
    rewrite Hkey. reflexivity.
Defined.

(** X24: the reliability grade is monotone: when neither the relative
    fade nor the coefficient of variation gets larger, the grade does
    not get worse. *)
Theorem reliability_grade_monotone (relative_fade capacity_cv relative_fade'
  capacity_cv' : Q) :
  relative_fade' <= relative_fade -> capacity_cv' <= capacity_cv ->
  (grade_rank (ReliabilityRun.grade_of relative_fade' capacity_cv')
   <= grade_rank (ReliabilityRun.grade_of relative_fade capacity_cv))%nat.
Proof.
  intros Hf Hc. unfold ReliabilityRun.grade_of.
  destruct (Qltb relative_fade 5) eqn:F5, (Qltb capacity_cv 2) eqn:C2,
           (Qltb relative_fade 10) eqn:F10, (Qltb capacity_cv 5) eqn:C5,
           (Qltb relative_fade 20) eqn:F20, (Qltb capacity_cv 10) eqn:C10,
           (Qltb relative_fade' 5) eqn:F5', (Qltb capacity_cv' 2) eqn:C2',
           (Qltb relative_fade' 10) eqn:F10', (Qltb capacity_cv' 5) eqn:C5',
           (Qltb relative_fade' 20) eqn:F20', (Qltb capacity_cv' 10) eqn:C10';
    cbn [andb]; try (cbn; lia);
    repeat match goal with
           | H : Qltb _ _ = true |- _ => apply Qltb_lt in H
           | H : Qltb _ _ = false |- _ => apply Qltb_ge in H
           end; exfalso; lra.
Qed.

Lemma reliability_grade_monotone_witness :
  (grade_rank (ReliabilityRun.grade_of 4 1) <= grade_rank (ReliabilityRun.grade_of 12 1))%nat.
Proof.
  apply reliability_grade_monotone; [unfold Qle; cbn; lia|unfold Qle; cbn; lia].
Defined.

(** X25: [BaseAnalyzer.get_capacity] agrees with the per-cycle capacity
    derivation of the analyzers: for a stored cycle it returns the
    discharge capacity that [_calculate_cycle_capacity] computes for
    the stored table; for a cycle that is not stored it raises the
    KeyError of the container.  It only allocates copies. *)
Theorem get_capacity_agrees (cfg : CapacityConfig) (container : CycleDataContainer)
  (cycle_no : Z) (h : heap) :
  container_ok h container ->
  extends h (run (get_capacity cfg container cycle_no) h)
  /\ match stored_table h container cycle_no with
     | Some df =>
         exists capacity_mah,
           outcome (get_capacity cfg container cycle_no) h = Ok capacity_mah
           /\ capacity_mah == discharge_capacity (_calculate_cycle_capacity cfg df)
     | None =>
         outcome (get_capacity cfg container cycle_no) h
         = Raise (Exn KeyError (Cycle_not_found_in_container cycle_no))
     end.
Proof.
  intros Hok. unfold run, outcome, get_capacity.
  destruct (visit_cycle h container cycle_no Hok)
    as [[Hnone _]|(df & Hsome & _ & Hget & _ & _)].
  - rewrite Hnone. rewrite M_bind_unfold.
    destruct (container_ok_cycles h container Hok) as (d & Hlk & _).
    assert (Hsc : stored_cycles h container = Some d)
      by (unfold stored_cycles; rewrite Hlk; reflexivity).
    assert (Hget : get_cycle container cycle_no h
                   = (Raise (Exn KeyError (Cycle_not_found_in_container cycle_no)), h)).
    { unfold get_cycle. rewrite M_bind_unfold, (read_cycles_ok _ _ _ Hlk).
      rewrite (stored_table_dict h container d cycle_no Hsc) in Hnone.
      destruct (dict_get Z.eqb cycle_no d) as [l|] eqn:E; [|reflexivity].
      destruct Hok as (_ & (d0 & Hd0 & Hframes) & _).
      rewrite Hsc in Hd0. injection Hd0 as <-.
      destruct (Hframes cycle_no l) as [df Hdf];
        [apply (dict_get_In Z.eqb Zeqb_eq), E|].
      rewrite Hdf in Hnone. discriminate. }
    rewrite Hget. split; [apply extends_refl|reflexivity].
  - rewrite Hsome. rewrite M_bind_unfold, Hget.
    rewrite M_bind_unfold.
    rewrite (copy_frame_ok (h ++ [OFrame df]) (length h) df)
      by (unfold frame_at; rewrite lookup_alloc_new; reflexivity).
    rewrite M_bind_unfold, read_frame_new.
    set (discharge := filter (fun rt : Row * Q => is_discharge (fst rt)) (with_TimeDiff df)).
    split.
    + destruct (length discharge =? 0)%nat; cbn [snd mret M_ret];
        exists [OFrame df; OFrame df]; rewrite <- app_assoc; reflexivity.
    + destruct (length discharge =? 0)%nat eqn:E; cbn [fst mret M_ret].
      * exists 0. split; [reflexivity|].
        apply Nat.eqb_eq in E. unfold _calculate_cycle_capacity.
        cbn [discharge_capacity]. fold discharge.
        destruct discharge; [|discriminate]. cbn. ring.
      * eexists. split; [reflexivity|]. reflexivity.
Qed.

Lemma get_capacity_agrees_witness :
  exists capacity_mah,
    outcome (get_capacity (mkCapacityConfig MANUAL (1 # 5) 3000) first_container 3)
      loaded_heap = Ok capacity_mah
    /\ capacity_mah == 3000.
Proof.
  destruct (get_capacity_agrees (mkCapacityConfig MANUAL (1 # 5) 3000) first_container
              3 loaded_heap loaded_heap_ok) as [_ H].
  change (stored_table loaded_heap first_container 3)
    with (Some [(0%Z, mkRow 0 4 1); (1%Z, mkRow 1 4 (-1))]) in H.
  destruct H as (capacity_mah & Hrun & Hvalue).
  exists capacity_mah. split; [exact Hrun|].
  rewrite Hvalue. vm_compute. reflexivity.
Defined.

(** ** The individual cycle analyzer on a container *)

Lemma summarize_run (cfg : CapacityConfig) (self : CycleDataContainer)
  (cycle_numbers : list Z) :
  forall h, container_ok h self ->
  exists r h',
    Individual.summarize cfg self cycle_numbers h = (r, h')
    /\ extends h h'
    /\ (forall summary_data,
          r = Ok summary_data ->
          Forall2 (fun n row =>
                     exists df dcir,
                       stored_table h self n = Some df
                       /\ calculate_ir df = Ok dcir
                       /\ row = summary_row cfg n df dcir)
                  (filter (fun n => is_Some (stored_table h self n)) cycle_numbers)
                  summary_data)
    /\ (Forall (fun n => stored_table h self n = None) cycle_numbers -> r = Ok []).
Proof.
  induction cycle_numbers as [|n rest IH]; intros h Hok.
  - exists (Ok []), h. split; [reflexivity|]. split; [apply extends_refl|].
    split; [intros ? [= <-]; constructor|reflexivity].
  - cbn [Individual.summarize]. rewrite filter_cons.
    destruct (visit_cycle h self n Hok)
      as [[Hnone Hhas]|(df & Hsome & Hhas & Hget & Hok1 & Ht1)].
    + rewrite M_bind_unfold, Hhas. cbn [negb].
      destruct (IH h Hok) as (r & h' & Hrun & Hext & Hrows & Hempty).
      exists r, h'. split; [exact Hrun|]. split; [exact Hext|].
      destruct (decide (is_Some (stored_table h self n))) as [[x Hx]|_];
        [congruence|].
      split; [exact Hrows|]. intros Hall. apply Hempty. inversion Hall; assumption.
    + rewrite M_bind_unfold, Hhas. cbn [negb].
      rewrite M_bind_unfold, Hget, M_bind_unfold, read_frame_new.
      rewrite M_bind_unfold. unfold lift at 1.
      destruct (decide (is_Some (stored_table h self n))) as [_|Hno];
        [|exfalso; apply Hno; eauto].
      destruct (calculate_ir df) as [dcir|e] eqn:Hir.
      * destruct (IH _ Hok1) as (r & h' & Hrun & Hext & Hrows & _).
        rewrite M_bind_unfold, Hrun.
        assert (Hext' : extends h h')
          by (eapply extends_trans; [eexists; reflexivity|exact Hext]).
        destruct r as [summary_data|e].
        -- eexists. exists h'. split; [reflexivity|]. split; [exact Hext'|]. split.
           ++ intros ? [= <-]. constructor.
              ** exists df, dcir. split; [exact Hsome|]. split; [exact Hir|reflexivity].
              ** specialize (Hrows summary_data eq_refl).
                 assert (Hfilter :
                   filter (fun n => is_Some (stored_table (h ++ [OFrame df]) self n)) rest
                   = filter (fun n => is_Some (stored_table h self n)) rest).
                 { apply list_filter_iff. intros m. rewrite Ht1. reflexivity. }
                 rewrite Hfilter in Hrows.
                 eapply Forall2_impl; [exact Hrows|].
                 intros m row (df' & dcir' & H1 & H2 & H3).
                 exists df', dcir'. rewrite Ht1 in H1. auto.
           ++ intros Hall. inversion Hall; congruence.
        -- exists (Raise e), h'. split; [reflexivity|]. split; [exact Hext'|].
           split; [discriminate|]. intros Hall. inversion Hall; congruence.
      * exists (Raise e), (h ++ [OFrame df]). split; [reflexivity|].
        split; [eexists; reflexivity|]. split; [discriminate|].
        intros Hall. inversion Hall; congruence.
Qed.

Lemma profiles_run (self : CycleDataContainer) (cycle_numbers : list Z) :
  forall (acc : list (Z * Individual.VoltageProfile)) h,
  container_ok h self ->
  exists final h',
    Individual.profiles self cycle_numbers acc h = (Ok final, h')
    /\ extends h h'
    /\ forall n,
         dict_get Z.eqb n final
         = if in_dec Z.eq_dec n cycle_numbers
           then match stored_table h self n with
                | Some df => Some (voltage_profile_of df)
                | None => dict_get Z.eqb n acc
                end
           else dict_get Z.eqb n acc.
Proof.
  induction cycle_numbers as [|c rest IH]; intros acc h Hok.
  - exists acc, h. split; [reflexivity|]. split; [apply extends_refl|].
    intros n. destruct (in_dec Z.eq_dec n []) as [[]|_]. reflexivity.
  - cbn [Individual.profiles].
    destruct (visit_cycle h self c Hok)
      as [[Hnone Hhas]|(df & Hsome & Hhas & Hget & Hok1 & Ht1)].
    + rewrite M_bind_unfold, Hhas. cbn [negb].
      destruct (IH acc h Hok) as (final & h' & Hrun & Hext & Hget).
      exists final, h'. split; [exact Hrun|]. split; [exact Hext|].
      intros n. rewrite Hget.
      destruct (in_dec Z.eq_dec n rest) as [Hin|Hnin],
               (in_dec Z.eq_dec n (c :: rest)) as [Hin'|Hnin']; try reflexivity.
      * exfalso. apply Hnin'. right. exact Hin.
      * destruct Hin' as [->|Hin']; [rewrite Hnone; reflexivity|contradiction].
    + rewrite M_bind_unfold, Hhas. cbn [negb].
      rewrite M_bind_unfold, Hget, M_bind_unfold, read_frame_new.
      destruct (IH (dict_set Z.eqb c (voltage_profile_of df) acc) _ Hok1)
        as (final & h' & Hrun & Hext & Hfinal).
      exists final, h'. split; [exact Hrun|].
      split; [eapply extends_trans; [eexists; reflexivity|exact Hext]|].
      intros n. rewrite Hfinal, Ht1.
      destruct (in_dec Z.eq_dec n rest) as [Hin|Hnin],
               (in_dec Z.eq_dec n (c :: rest)) as [Hin'|Hnin'].
      * destruct (stored_table h self n) eqn:En; [reflexivity|].
        destruct (Z.eq_dec c n) as [->|Hne]; [congruence|].
        apply (dict_get_set_ne Z.eqb Zeqb_eq). exact Hne.
      * exfalso. apply Hnin'. right. exact Hin.
      * destruct Hin' as [->|Hin']; [|contradiction].
        rewrite Hsome. apply (dict_get_set_eq Z.eqb Zeqb_eq).
      * apply (dict_get_set_ne Z.eqb Zeqb_eq). intros ->. apply Hnin'. left. reflexivity.
Qed.

Section IndividualRun.
Variable std_of : list Q -> option Q.

Lemma individual_postprocess (results : Individual.Results) (h : heap) :
  match Individual.summary results with
  | [] =>
      Individual.postprocess std_of results h
      = (Failed (Raised (Exn KeyError (Key_not_in_dict "Discharge_Capacity"))), h)
  | _ :: _ =>
      exists stats,
        Individual.postprocess std_of results h
        = (Done (Individual.mkResults (Individual.summary results)
                   (Individual.voltage_profiles results)
                   (Individual.cycle_numbers results) (Some stats)), h)
        /\ (is_Some (dict_get String.eqb "capacity_fade_rate" stats)
            <-> (2 <= length (Individual.summary results))%nat)
  end.
Proof.
  unfold Individual.postprocess. rewrite A_bind_unfold. cbn [postprocess mret A_ret].
  destruct (Individual.summary results) as [|first rest] eqn:E; [reflexivity|].
  destruct (last (first :: rest)) as [final|] eqn:Hlast.
  2:{ exfalso. clear -Hlast. revert first Hlast.
      induction rest as [|r rest IH]; intros first; [discriminate|].
      rewrite last_cons. destruct (last (r :: rest)) eqn:E'; [discriminate|].
      intros _. exact (IH r E'). }
  eexists. split; [reflexivity|].
  cbn [length]. destruct rest as [|second rest]; cbn [Nat.ltb Nat.leb length].
  - cbn. split; [intros [x Hx]; discriminate|lia].
  - split; [intros _; lia|intros _]. cbn. eauto.
Qed.

(** X26: a run of the individual cycle analyzer that [__init__] accepted,
    on a well-formed container.  The run is refused when the
    configuration does not validate or the container is empty; it
    raises KeyError when none of the requested cycles is in the
    container.  Whenever it returns, the summary has one row per
    requested cycle that the container has, in the order of the
    request, with the capacities and the DCIR derived from the stored
    table; there is a voltage profile for exactly those cycles; and
    the statistics hold a capacity fade rate exactly when the summary
    has at least two rows.  No stored object is changed. *)
Theorem individual_run_outcome (config : Config.AnalysisConfig)
  (container : CycleDataContainer) (h : heap) :
  container_ok h container ->
  Individual.__init__ config = Valid tt ->
  exists requested outcome h',
    (cycle ← Config.cycle config; Config.cycle_numbers cycle) = Some requested
    /\ requested <> []
    /\ Individual.run std_of config container h = (outcome, h')
    /\ extends h h'
    /\ (forall what, Config.validate config = Invalid what ->
                     outcome = Failed (Refused what))
    /\ (Config.validate config = Valid tt ->
        stored_cycles h container = Some [] ->
        outcome = Failed (Refused Container_is_empty))
    /\ (Config.validate config = Valid tt ->
        stored_cycles h container <> Some [] ->
        Forall (fun n => stored_table h container n = None) requested ->
        outcome = Failed (Raised (Exn KeyError (Key_not_in_dict "Discharge_Capacity"))))
    /\ (forall results,
          outcome = Done results ->
          Forall2 (fun n row =>
                     exists df dcir,
                       stored_table h container n = Some df
                       /\ calculate_ir df = Ok dcir
                       /\ row = summary_row (Config.capacity config) n df dcir)
                  (filter (fun n => is_Some (stored_table h container n)) requested)
                  (Individual.summary results)
          /\ Individual.cycle_numbers results = requested
          /\ (forall n,
                dict_get Z.eqb n (Individual.voltage_profiles results)
                = if in_dec Z.eq_dec n requested
                  then voltage_profile_of <$> stored_table h container n
                  else None)
          /\ exists stats,
               Individual.statistics results = Some stats
               /\ (is_Some (dict_get String.eqb "capacity_fade_rate" stats)
                   <-> (2 <= length (Individual.summary results))%nat)).
Proof.
  intros Hok Hinit. unfold Individual.__init__ in Hinit.
  destruct (Config.cycle config) as [cycle|] eqn:Hcycle; [|discriminate].
  destruct (Config.cycle_numbers cycle) as [[|c requested]|] eqn:Hnumbers;
    try discriminate.
  clear Hinit. exists (c :: requested).
  destruct (container_ok_cycles h container Hok) as (d & Hlk & _).
  assert (Hsc : stored_cycles h container = Some d)
    by (unfold stored_cycles; rewrite Hlk; reflexivity).
  assert (Hlen : __len__ container h = (Ok (length d), h)).
  { unfold __len__. rewrite M_bind_unfold, (read_cycles_ok _ _ _ Hlk). reflexivity. }
  unfold Individual.run, prepare.
  destruct (Config.validate config) as [[]|what] eqn:Hv.
  2:{ exists (Failed (Refused what)), h.
      split; [cbn [mbind option_bind]; exact Hnumbers|]. split; [discriminate|].
      split; [reflexivity|]. split; [apply extends_refl|].
      split; [intros w [= <-]; reflexivity|].
      split; [discriminate|]. split; [discriminate|]. discriminate. }
  destruct d as [|entry d].
  { exists (Failed (Refused Container_is_empty)), h.
    split; [cbn [mbind option_bind]; exact Hnumbers|]. split; [discriminate|].
    split.
    { rewrite !A_bind_unfold. unfold of_checked at 1. cbn iota.
      rewrite A_bind_unfold. unfold of_M at 1. rewrite Hlen. reflexivity. }
    split; [apply extends_refl|]. split; [discriminate|]. split; [reflexivity|].
    split; [intros _ Hne; contradiction|]. discriminate. }
  assert (Hprep : forall Y (k : unit -> A Y),
             ((_ ← of_checked (Valid tt);
               count ← of_M (__len__ container);
               if (count =? 0)%nat then refuse Container_is_empty else mret tt) ≫= k) h
             = k tt h).
  { intros Y k. rewrite !A_bind_unfold. unfold of_checked at 1. cbn iota.
    rewrite A_bind_unfold. unfold of_M at 1. rewrite Hlen. reflexivity. }
  rewrite Hprep. rewrite A_bind_unfold.
  unfold Individual.analyze. rewrite Hcycle, Hnumbers.
  destruct (summarize_run (Config.capacity config) container (c :: requested) h Hok)
    as (r & h1 & Hsum & Hext1 & Hrows & Hnone).
  rewrite A_bind_unfold. unfold of_M at 1. rewrite Hsum.
  destruct r as [summary_data|e].
  2:{ exists (Failed (Raised e)), h1.
      split; [cbn [mbind option_bind]; exact Hnumbers|]. split; [discriminate|].
      split; [reflexivity|]. split; [exact Hext1|].
      split; [discriminate|].
      split; [intros _ Hempty; rewrite Hsc in Hempty; discriminate|].
      split; [|discriminate].
      intros _ _ Hall. specialize (Hnone Hall). discriminate. }
  destruct (stored_views_extend h h1 container Hok Hext1) as (Ht1 & _ & Hok1).
  destruct (profiles_run container (c :: requested) [] h1 Hok1)
    as (final & h2 & Hprof & Hext2 & Hfinal).
  rewrite A_bind_unfold. unfold of_M at 1. rewrite Hprof. cbn [mret A_ret].
  pose proof (individual_postprocess
                (Individual.mkResults summary_data final (c :: requested) None) h2)
    as Hpost.
  cbn [Individual.summary Individual.voltage_profiles Individual.cycle_numbers] in Hpost.
  assert (Hext : extends h h2) by (eapply extends_trans; eassumption).
  destruct summary_data as [|row summary_data].
  - rewrite Hpost.
    exists (Failed (Raised (Exn KeyError (Key_not_in_dict "Discharge_Capacity")))), h2.
    split; [cbn [mbind option_bind]; exact Hnumbers|]. split; [discriminate|].
    split; [reflexivity|]. split; [exact Hext|].
    split; [discriminate|].
    split; [intros _ Hempty; rewrite Hsc in Hempty; discriminate|].
    split; [reflexivity|discriminate].
  - destruct Hpost as (stats & Hpost & Hfade). rewrite Hpost.
    eexists. exists h2.
    split; [cbn [mbind option_bind]; exact Hnumbers|]. split; [discriminate|].
    split; [reflexivity|]. split; [exact Hext|].
    split; [discriminate|].
    split; [intros _ Hempty; rewrite Hsc in Hempty; discriminate|].
    split.
    { intros _ _ Hall. specialize (Hnone Hall). discriminate. }
    intros results [= <-].
    cbn [Individual.summary Individual.voltage_profiles Individual.cycle_numbers
         Individual.statistics].
    split; [apply Hrows; reflexivity|]. split; [reflexivity|].
    split.
    + intros n. rewrite Hfinal, Ht1. cbn [dict_get].
      destruct (in_dec Z.eq_dec n (c :: requested)); [|reflexivity].
      destruct (stored_table h container n); reflexivity.
    + exists stats. split; [reflexivity|exact Hfade].
Qed.

End IndividualRun.

Lemma individual_run_outcome_witness :
  exists results h',
    Individual.run (fun _ => None) sample_config first_container loaded_heap
    = (Done results, h')
    /\ map Individual.Cycle (Individual.summary results) = [1%Z]
    /\ map fst (Individual.voltage_profiles results) = [1%Z].
Proof.
  destruct (individual_run_outcome (fun _ => None) sample_config first_container
              loaded_heap loaded_heap_ok eq_refl)
    as (requested & outcome & h' & _ & _ & Hrun & _).
  vm_compute in Hrun. injection Hrun as <- <-.
  eexists. eexists. split; [vm_compute; reflexivity|]. split; reflexivity.
Defined.

(** ** The container, linked-analyzer and capacity theorems on the sample folder *)

Lemma read_access_changes_nothing_witness :
  extends loaded_heap (run (get_cycle_range first_container 1 3) loaded_heap)
  /\ (forall n,
        stored_table (run (get_cycle_range first_container 1 3) loaded_heap)
          first_container n
        = stored_table loaded_heap first_container n)
  /\ stored_metadata (run (get_cycle_range first_container 1 3) loaded_heap)
       first_container
     = stored_metadata loaded_heap first_container.
Proof.
  apply (read_access_changes_nothing loaded_heap first_container loaded_heap_ok).
  right. left. exists 1%Z, 3%Z. reflexivity.
Defined.

Lemma returned_objects_are_new_witness :
  exists target,
    outcome (get_cycle first_container 1) loaded_heap = Ok target
    /\ forall (o : obj) (n : Z),
         stored_table (<[target := o]> (run (get_cycle first_container 1) loaded_heap))
           first_container n
         = stored_table loaded_heap first_container n.
Proof.
  eexists. split; [vm_compute; reflexivity|]. intros o n.
  apply (returned_objects_are_new loaded_heap first_container loaded_heap_ok).
  left. exists 1%Z. split; reflexivity.
Defined.

Lemma get_cycle_range_merges_witness :
  exists r merged,
    outcome (get_cycle_range first_container 1 3) loaded_heap = Ok r
    /\ frame_at (run (get_cycle_range first_container 1 3) loaded_heap) r = Some merged
    /\ length merged = 4%nat
    /\ nondecreasing (map TimeMin (rows merged)).
Proof.
  destruct (get_cycle_range_merges loaded_heap first_container 1 3 loaded_heap_ok)
    as [_ Hsome].
  destruct Hsome as (r & merged & Hr & Hmerged & Hlen & Hrows);
    [vm_compute; discriminate|].
  exists r, merged. split; [exact Hr|]. split; [exact Hmerged|].
  split; [rewrite Hlen; vm_compute; reflexivity|].
  apply Hrows.
  repeat constructor; try discriminate; vm_compute; discriminate.
Defined.

Lemma linked_global_numbers_witness :
  exists results,
    outcome (Linked.analyze C1_config
               [("/data/A"%string, first_container); ("/data/B"%string, first_container)]
               [("/data/A", "first"); ("/data/B", "second")]%string) loaded_heap
    = Ok results
    /\ map Linked.Global_Cycle (Linked.summary results) = [1; 3; 4; 6]%Z.
Proof.
  destruct (outcome (Linked.analyze C1_config
               [("/data/A"%string, first_container); ("/data/B"%string, first_container)]
               [("/data/A", "first"); ("/data/B", "second")]%string) loaded_heap)
    as [results|e] eqn:Hout; [|vm_compute in Hout; discriminate].
  exists results. split; [reflexivity|].
  destruct (linked_global_numbers C1_config
              [("/data/A"%string, first_container); ("/data/B"%string, first_container)]
              [("/data/A", "first"); ("/data/B", "second")]%string
              loaded_heap results) as [Hnum _];
    [|exact Hout|].
  - intros path c [[= <- <-]|[[= <- <-]|[]]]; vm_compute; eauto.
  - rewrite Hnum. vm_compute. reflexivity.
Defined.

Lemma PNE_bulk_load_skips_missing_witness :
  exists h',
    load_all_cycles C2_pne_files first_container "/data/pne" PNE (Some (1, 3)%Z)
      empty_heap
    = (Ok tt, PNE, h')
    /\ is_Some (stored_table h' first_container 1)
    /\ stored_table h' first_container 2 = None
    /\ is_Some (stored_table h' first_container 3).
Proof.
  destruct (PNE_bulk_load_skips_missing C2_pne_files first_container "/data/pne"
              1 3 empty_heap empty_heap_ok)
    as (h' & md & Hload & Hstored & _).
  { intros n e _. apply C2_pne_files_valid. }
  exists h'. split; [exact Hload|].
  rewrite !Hstored. vm_compute. eauto.
Defined.

Lemma capacities_nonneg_witness :
  0 <= discharge_capacity (_calculate_cycle_capacity C1_config C1_table)
  /\ 0 <= charge_capacity (_calculate_cycle_capacity C1_config C1_table).
Proof.
  apply (capacities_nonneg C1_config C1_table).
  - vm_compute. repeat split; discriminate.
  - vm_compute. discriminate.
Defined.
